(** * evesso.authorize: OAuth2 authorization-code flow with PKCE

    A shallow embedding of [evesso/authorize.py] together with the parts of
    the Python standard library it calls ([base64], [binascii], [hashlib],
    [secrets], [urllib.parse]) and of [requests], followed by the properties
    of the flow stated in the specification.

    Conventions.
    - A Python [bytes] object is a list of 8-bit characters ([ascii]).
    - A Python [str] is a list of Unicode code points ([N]).
    - A function that can raise returns a [result]; the exceptions are the
      Python classes the code can really raise.
    - The flow [get_auth_jwt] reads random bytes, reads a line or waits for
      the redirect listener, and posts to the token endpoint: those effects
      are threaded through an explicit [world], which also records the
      trace of what the flow did. *)

From Stdlib Require Import ZArith NArith List Ascii String Lia Bool DecimalString.
From stdpp Require Import gmap list strings.

Set Default Proof Using "Type".
Open Scope N_scope.

(** ** Python values *)

Abbreviation bytes := (list ascii).
Abbreviation str := (list N).

(** [B "..."] and [U "..."] are the literals [b'...'] and ['...'] with
    7-bit characters. *)
Definition B (s : string) : bytes := list_ascii_of_string s.
Definition U (s : string) : str := map N_of_ascii (list_ascii_of_string s).

(** Decimal numerals, as [str(n)] and the [%d] formats print them. *)
Definition str_of_Z (z : Z) : str := U (NilZero.string_of_int (Z.to_int z)).
Definition str_of_N (n : N) : str := str_of_Z (Z.of_N n).

(** The response object of [requests]: what the flow reads of it. *)
Record Response := {
  status_code : Z;
  reason : str;
  url : str;
  content : bytes
}.

(** The exception classes the code and the library calls it makes raise. *)
Inductive exn : Type :=
| ValueError (msg : str)
| OverflowError (msg : str)
| TypeError (msg : str)
| IndexError (msg : str)
| EOFError
| UnicodeEncodeError (msg : str)
| UnicodeDecodeError (msg : str)
| NameError (msg : str)
| binascii_Error (msg : str)
| ConnectionError (msg : str)
| HTTPError (msg : str) (response : Response)
| JSONDecodeError (msg : str).

Inductive result (A : Type) : Type :=
| Ok (a : A)
| Raise (e : exn).
Arguments Ok {A} a.
Arguments Raise {A} e.

(** [result] is a monad: [x ← e; k] runs [e] and stops at its exception. *)
#[global] Instance result_ret : MRet result := fun A a => Ok a.
#[global] Instance result_bind : MBind result := fun A R k r =>
  match r with
  | Ok a => k a
  | Raise e => Raise e
  end.

(** ** binascii: Base64 (RFC 4648)

    [b2a_base64(s, newline=False)] reads the input three bytes at a time
    and writes four symbols, each for six bits taken most significant bit
    first; a tail of one or two bytes is padded with zero bits and ["="]. *)

Definition table_b2a_base64 : bytes :=
  B "ABCDEFGHIJKLMNOPQRSTUVWXYZabcdefghijklmnopqrstuvwxyz0123456789+/".

Definition BASE64_PAD : ascii := "="%char.

(** The six-bit number with binary digits [b5 b4 b3 b2 b1 b0]. *)
Definition six (b5 b4 b3 b2 b1 b0 : bool) : ascii :=
  Ascii b0 b1 b2 b3 b4 b5 false false.

Definition b2a (x : ascii) : ascii :=
  nth (nat_of_ascii x) table_b2a_base64 BASE64_PAD.

Fixpoint b2a_base64 (s : bytes) : bytes :=
  match s with
  | [] => []
  | [Ascii a0 a1 a2 a3 a4 a5 a6 a7] =>
      [b2a (six a7 a6 a5 a4 a3 a2);
       b2a (six a1 a0 false false false false);
       BASE64_PAD; BASE64_PAD]
  | [Ascii a0 a1 a2 a3 a4 a5 a6 a7; Ascii b0 b1 b2 b3 b4 b5 b6 b7] =>
      [b2a (six a7 a6 a5 a4 a3 a2);
       b2a (six a1 a0 b7 b6 b5 b4);
       b2a (six b3 b2 b1 b0 false false);
       BASE64_PAD]
  | Ascii a0 a1 a2 a3 a4 a5 a6 a7 :: Ascii b0 b1 b2 b3 b4 b5 b6 b7
      :: Ascii c0 c1 c2 c3 c4 c5 c6 c7 :: rest =>
      b2a (six a7 a6 a5 a4 a3 a2)
      :: b2a (six a1 a0 b7 b6 b5 b4)
      :: b2a (six b3 b2 b1 b0 c7 c6)
      :: b2a (six c5 c4 c3 c2 c1 c0)
      :: b2a_base64 rest
  end.

Fixpoint index_of (c : ascii) (l : bytes) : option nat :=
  match l with
  | [] => None
  | x :: l' => if Ascii.eqb x c then Some O else option_map S (index_of c l')
  end.

(** [table_a2b_base64]: the value of a symbol, or nothing for a character
    outside the alphabet. *)
Definition a2b (c : ascii) : option ascii :=
  option_map ascii_of_nat (index_of c table_b2a_base64).

(** [a2b_base64(data)] with [strict_mode=False], the loop of [binascii.c]:
    [quad_pos] counts the symbols of the current group of four, [leftchar]
    holds the bits not yet written, [pads] the padding characters seen
    since the last symbol. Characters outside the alphabet are skipped; a
    padding that completes a group ends the decoding. *)
Fixpoint a2b_base64_loop (quad_pos : N) (leftchar : ascii) (pads : N)
    (bin_data : bytes) (ascii_data : bytes) : result bytes :=
  match ascii_data with
  | [] =>
      if quad_pos =? 0 then Ok bin_data
      else if quad_pos =? 1 then
        Raise (binascii_Error
          (U "Invalid base64-encoded string: number of data characters ("
           ++ str_of_N (N.of_nat (length bin_data) / 3 * 4 + 1)
           ++ U ") cannot be 1 more than a multiple of 4"))
      else Raise (binascii_Error (U "Incorrect padding"))
  | this_ch :: rest =>
      if Ascii.eqb this_ch BASE64_PAD then
        if 2 <=? quad_pos then
          if 4 <=? quad_pos + (pads + 1) then Ok bin_data
          else a2b_base64_loop quad_pos leftchar (pads + 1) bin_data rest
        else a2b_base64_loop quad_pos leftchar pads bin_data rest
      else
        match a2b this_ch with
        | None => a2b_base64_loop quad_pos leftchar pads bin_data rest
        | Some (Ascii t0 t1 t2 t3 t4 t5 _ _) =>
            let '(Ascii l0 l1 l2 l3 l4 l5 _ _) := leftchar in
            if quad_pos =? 0 then
              a2b_base64_loop 1 (Ascii t0 t1 t2 t3 t4 t5 false false) 0 bin_data rest
            else if quad_pos =? 1 then
              a2b_base64_loop 2 (Ascii t0 t1 t2 t3 false false false false) 0
                (bin_data ++ [Ascii t4 t5 l0 l1 l2 l3 l4 l5]) rest
            else if quad_pos =? 2 then
              a2b_base64_loop 3 (Ascii t0 t1 false false false false false false) 0
                (bin_data ++ [Ascii t2 t3 t4 t5 l0 l1 l2 l3]) rest
            else
              a2b_base64_loop 0 zero 0
                (bin_data ++ [Ascii t0 t1 t2 t3 t4 t5 l0 l1]) rest
        end
  end.

Definition a2b_base64 (data : bytes) : result bytes :=
  a2b_base64_loop 0 zero 0 [] data.

(** ** base64 *)

(** [bytes.translate(bytes.maketrans(src, dst))] for two-character tables. *)
Definition translate2 (s1 s2 d1 d2 : ascii) (s : bytes) : bytes :=
  map (fun c => if Ascii.eqb c s1 then d1 else if Ascii.eqb c s2 then d2 else c) s.

Definition b64encode (s : bytes) : bytes := b2a_base64 s.
Definition b64decode (s : bytes) : result bytes := a2b_base64 s.

Definition urlsafe_b64encode (s : bytes) : bytes :=
  translate2 "+" "/" "-" "_" (b64encode s).

Definition urlsafe_b64decode (s : bytes) : result bytes :=
  b64decode (translate2 "-" "_" "+" "/" s).

(** ** hashlib: SHA-256 (FIPS 180-4)

    Words are 32-bit integers in [Z]; every addition wraps modulo 2^32. *)

Module SHA256.
Local Open Scope Z_scope.

Definition w32 (x : Z) : Z := x mod 2 ^ 32.
Definition add32 (x y : Z) : Z := w32 (x + y).
Definition not32 (x : Z) : Z := Z.lxor x 4294967295.
Definition rotr (n x : Z) : Z := Z.lor (Z.shiftr x n) (w32 (Z.shiftl x (32 - n))).

Definition Ch (x y z : Z) : Z := Z.lxor (Z.land x y) (Z.land (not32 x) z).
Definition Maj (x y z : Z) : Z :=
  Z.lxor (Z.lxor (Z.land x y) (Z.land x z)) (Z.land y z).
Definition Sigma0 (x : Z) : Z := Z.lxor (Z.lxor (rotr 2 x) (rotr 13 x)) (rotr 22 x).
Definition Sigma1 (x : Z) : Z := Z.lxor (Z.lxor (rotr 6 x) (rotr 11 x)) (rotr 25 x).
Definition sigma0 (x : Z) : Z := Z.lxor (Z.lxor (rotr 7 x) (rotr 18 x)) (Z.shiftr x 3).
Definition sigma1 (x : Z) : Z := Z.lxor (Z.lxor (rotr 17 x) (rotr 19 x)) (Z.shiftr x 10).

(** The constants of the standard are defined from the first prime
    numbers: the first 32 bits of the fractional part of the cube root of
    each of the first 64 primes, and, for the initial hash value, of the
    square root of each of the first 8. *)
Definition is_prime (n : nat) : bool :=
  (2 <=? n)%nat && forallb (fun d => negb (n mod d =? 0)%nat) (seq 2 (n - 2)).

Definition primes (count : nat) : list Z :=
  map Z.of_nat (take count (List.filter is_prime (seq 2 310))).

(** The integer [e]-th root of [n], bit by bit from bit [bit - 1] down. *)
Fixpoint root (e n : Z) (bit : nat) (r : Z) : Z :=
  match bit with
  | O => r
  | S b =>
      let r' := r + 2 ^ Z.of_nat b in
      root e n b (if r' ^ e <=? n then r' else r)
  end.

Definition fraction_bits (e p : Z) : Z := root e (p * 2 ^ (32 * e)) 36 0 mod 2 ^ 32.

Definition K : list Z := Eval vm_compute in map (fraction_bits 3) (primes 64).

(** The working variables and the hash value: eight words. *)
Record regs := Regs { ra : Z; rb : Z; rc : Z; rd : Z; re : Z; rf : Z; rg : Z; rh : Z }.

Definition H0 : regs :=
  Eval vm_compute in
  match map (fraction_bits 2) (primes 8) with
  | [a; b; c; d; e; f; g; h] => Regs a b c d e f g h
  | _ => Regs 0 0 0 0 0 0 0 0
  end.

Definition Z_of_byte (c : ascii) : Z := Z.of_N (N_of_ascii c).
Definition byte_of_Z (x : Z) : ascii := ascii_of_N (Z.to_N (x mod 256)).

(** Big-endian words. *)
Definition word_of_bytes (a b c d : ascii) : Z :=
  Z_of_byte a * 2 ^ 24 + Z_of_byte b * 2 ^ 16 + Z_of_byte c * 2 ^ 8 + Z_of_byte d.
Definition bytes_of_word (x : Z) : bytes :=
  [byte_of_Z (x / 2 ^ 24); byte_of_Z (x / 2 ^ 16); byte_of_Z (x / 2 ^ 8); byte_of_Z x].

Fixpoint words_of_bytes (s : bytes) : list Z :=
  match s with
  | a :: b :: c :: d :: rest => word_of_bytes a b c d :: words_of_bytes rest
  | _ => []
  end.

(** The padding: a one bit, zero bits up to 56 modulo 64 bytes, and the
    length of the message in bits as a 64-bit big-endian number. *)
Definition pad (m : bytes) : bytes :=
  let len := Z.of_nat (length m) in
  let zeros := Z.to_nat ((55 - len) mod 64) in
  let bits := (8 * len) mod 2 ^ 64 in
  m ++ [byte_of_Z 128] ++ repeat Ascii.zero zeros
    ++ bytes_of_word (bits / 2 ^ 32) ++ bytes_of_word bits.

(** The message schedule: sixteen words of the block, extended to 64. *)
Fixpoint extend (n : nat) (w : list Z) : list Z :=
  match n with
  | O => w
  | S n' =>
      let t := length w in
      let at_ (k : nat) := nth (t - k) w 0 in
      extend n' (w ++ [add32 (add32 (add32 (sigma1 (at_ 2%nat)) (at_ 7%nat))
                                    (sigma0 (at_ 15%nat))) (at_ 16%nat)])
  end.

Definition round (r : regs) (kw : Z * Z) : regs :=
  let '(k, w) := kw in
  let T1 := add32 (add32 (add32 (add32 (rh r) (Sigma1 (re r))) (Ch (re r) (rf r) (rg r))) k) w in
  let T2 := add32 (Sigma0 (ra r)) (Maj (ra r) (rb r) (rc r)) in
  Regs (add32 T1 T2) (ra r) (rb r) (rc r) (add32 (rd r) T1) (re r) (rf r) (rg r).

Definition compress (h : regs) (block : list Z) : regs :=
  let r := fold_left round (combine K (extend 48 block)) h in
  Regs (add32 (ra h) (ra r)) (add32 (rb h) (rb r)) (add32 (rc h) (rc r))
       (add32 (rd h) (rd r)) (add32 (re h) (re r)) (add32 (rf h) (rf r))
       (add32 (rg h) (rg r)) (add32 (rh h) (rh r)).

(** The blocks of sixteen words; [n] bounds their number. *)
Fixpoint blocks (n : nat) (h : regs) (ws : list Z) : regs :=
  match n, ws with
  | S n', _ :: _ => blocks n' (compress h (firstn 16 ws)) (skipn 16 ws)
  | _, _ => h
  end.

Definition hash (m : bytes) : bytes :=
  let ws := words_of_bytes (pad m) in
  let h := blocks (length ws) H0 ws in
  bytes_of_word (ra h) ++ bytes_of_word (rb h) ++ bytes_of_word (rc h)
    ++ bytes_of_word (rd h) ++ bytes_of_word (re h) ++ bytes_of_word (rf h)
    ++ bytes_of_word (rg h) ++ bytes_of_word (rh h).

End SHA256.

(** The hash object of [hashlib.sha256()]: the bytes fed to it so far.
    [update] appends, [digest] hashes what was fed. *)
Definition hashlib_sha256 : bytes := [].
Definition update (m : bytes) (data : bytes) : bytes := m ++ data.
Definition digest (m : bytes) : bytes := SHA256.hash m.

(** [bytes.hex()], to read digests. *)
Definition hexdigit (n : N) : ascii :=
  nth (N.to_nat n) (B "0123456789abcdef") "0"%char.
Definition hex (s : bytes) : bytes :=
  flat_map (fun c => [hexdigit (N_of_ascii c / 16); hexdigit (N_of_ascii c mod 16)]) s.

(** ** Methods of [str] and [bytes]

    Both are lists here, so one definition serves both types. The
    separators and the characters replaced are single characters in every
    call the code makes. *)

Section Sequences.
Context {A : Type} `{EqDecision A}.

(** [s.split(sep)]: always at least one piece. *)
Fixpoint split (sep : A) (s : list A) : list (list A) :=
  match s with
  | [] => [[]]
  | c :: s' =>
      if decide (c = sep) then [] :: split sep s'
      else match split sep s' with
           | w :: ws => (c :: w) :: ws
           | [] => [[c]]
           end
  end.

(** [s.split(sep, 1)]: one piece, or the text before and after the first
    separator. *)
Fixpoint split1 (sep : A) (s : list A) : list (list A) :=
  match s with
  | [] => [[]]
  | c :: s' =>
      if decide (c = sep) then [[]; s']
      else match split1 sep s' with
           | w :: ws => (c :: w) :: ws
           | [] => [[c]]
           end
  end.

(** [s.partition(sep)] and [s.rpartition(sep)]: before, whether the
    separator was found, after. *)
Fixpoint partition (sep : A) (s : list A) : list A * bool * list A :=
  match s with
  | [] => ([], false, [])
  | c :: s' =>
      if decide (c = sep) then ([], true, s')
      else let '(x, found, y) := partition sep s' in (c :: x, found, y)
  end.

Definition rpartition (sep : A) (s : list A) : list A * bool * list A :=
  let '(y, found, x) := partition sep (rev s) in
  if found then (rev x, true, rev y) else ([], false, s).

(** [sep.join(l)] *)
Fixpoint join (sep : list A) (l : list (list A)) : list A :=
  match l with
  | [] => []
  | [x] => x
  | x :: l' => x ++ sep ++ join sep l'
  end.

(** [s.replace(old, new)] *)
Definition replace (old : A) (new : list A) (s : list A) : list A :=
  flat_map (fun c => if decide (c = old) then new else [c]) s.

(** [c in s] *)
Definition contains (c : A) (s : list A) : bool := bool_decide (c ∈ s).

(** [s.lstrip(chars)] and [s.rstrip(chars)] *)
Fixpoint lstrip (chars : list A) (s : list A) : list A :=
  match s with
  | c :: s' => if contains c chars then lstrip chars s' else s
  | [] => []
  end.

Definition rstrip (chars : list A) (s : list A) : list A :=
  rev (lstrip chars (rev s)).

(** The longest prefix of characters satisfying [p], and the rest. *)
Fixpoint span (p : A -> bool) (s : list A) : list A * list A :=
  match s with
  | [] => ([], [])
  | c :: s' =>
      if p c then let '(x, y) := span p s' in (c :: x, y)
      else ([], s)
  end.

(** [s.startswith(p)] *)
Fixpoint startswith (p s : list A) : bool :=
  match p, s with
  | [], _ => true
  | x :: p', y :: s' => bool_decide (x = y) && startswith p' s'
  | _ :: _, [] => false
  end.

End Sequences.

(** ** The UTF-8 codec *)

Definition chr (n : N) : ascii := ascii_of_N n.
Definition ord (c : ascii) : N := N_of_ascii c.

(** A [str] that [encode] accepts holds code points below 0x110000 and no
    surrogate. *)
Definition is_surrogate (c : N) : bool := (0xD800 <=? c) && (c <? 0xE000).
Definition encodable (c : N) : bool := (c <? 0x110000) && negb (is_surrogate c).

(** [s.encode('utf-8', 'strict')] *)
Definition utf8_encode_char (c : N) : bytes :=
  if c <? 0x80 then [chr c]
  else if c <? 0x800 then [chr (0xC0 + c / 64); chr (0x80 + c mod 64)]
  else if c <? 0x10000 then
    [chr (0xE0 + c / 4096); chr (0x80 + c / 64 mod 64); chr (0x80 + c mod 64)]
  else
    [chr (0xF0 + c / 262144); chr (0x80 + c / 4096 mod 64);
     chr (0x80 + c / 64 mod 64); chr (0x80 + c mod 64)].

Fixpoint utf8_encode (s : str) : result bytes :=
  match s with
  | [] => Ok []
  | c :: s' =>
      if encodable c then rest ← utf8_encode s'; Ok (utf8_encode_char c ++ rest)
      else Raise (UnicodeEncodeError (U "surrogates not allowed"))
  end.

(** The UTF-8 decoder of CPython. It reports a byte that cannot start a
    character, and a character cut short by a byte that cannot continue it
    or by the end of the input, and resumes at the byte that did not fit.
    [utf8_scan] gives the code points and [None] at each error. *)
Definition is_continuation (c : ascii) : bool := (0x80 <=? ord c) && (ord c <? 0xC0).
Definition low6 (c : ascii) : N := ord c - 0x80.

Fixpoint utf8_scan (s : bytes) : list (option N) :=
  match s with
  | [] => []
  | c1 :: r1 =>
      let ch := ord c1 in
      if ch <? 0x80 then Some ch :: utf8_scan r1
      else if ch <? 0xC2 then None :: utf8_scan r1
      else if ch <? 0xE0 then
        match r1 with
        | [] => [None]
        | c2 :: r2 =>
            if is_continuation c2
            then Some ((ch - 0xC0) * 64 + low6 c2) :: utf8_scan r2
            else None :: utf8_scan r1
        end
      else if ch <? 0xF0 then
        match r1 with
        | [] => [None]
        | c2 :: r2 =>
            if negb (is_continuation c2)
               || (if ord c2 <? 0xA0 then ch =? 0xE0 else ch =? 0xED)
            then None :: utf8_scan r1
            else match r2 with
                 | [] => [None]
                 | c3 :: r3 =>
                     if is_continuation c3
                     then Some ((ch - 0xE0) * 4096 + low6 c2 * 64 + low6 c3)
                          :: utf8_scan r3
                     else None :: utf8_scan r2
                 end
        end
      else if ch <? 0xF5 then
        match r1 with
        | [] => [None]
        | c2 :: r2 =>
            if negb (is_continuation c2)
               || (if ord c2 <? 0x90 then ch =? 0xF0 else ch =? 0xF4)
            then None :: utf8_scan r1
            else match r2 with
                 | [] => [None]
                 | c3 :: r3 =>
                     if negb (is_continuation c3)
                     then None :: utf8_scan r2
                     else match r3 with
                          | [] => [None]
                          | c4 :: r4 =>
                              if is_continuation c4
                              then Some ((ch - 0xF0) * 262144 + low6 c2 * 4096
                                         + low6 c3 * 64 + low6 c4) :: utf8_scan r4
                              else None :: utf8_scan r3
                          end
                 end
        end
      else None :: utf8_scan r1
  end.

(** [s.decode('utf-8', 'replace')]: U+FFFD at each error. *)
Definition REPLACEMENT : N := 0xFFFD.
Definition utf8_decode (s : bytes) : str :=
  map (fun o => match o with Some c => c | None => REPLACEMENT end) (utf8_scan s).

(** [s.decode()], that is [s.decode('utf-8', 'strict')] *)
Fixpoint strict (l : list (option N)) : result str :=
  match l with
  | [] => Ok []
  | Some c :: l' => s ← strict l'; Ok (c :: s)
  | None :: _ => Raise (UnicodeDecodeError (U "'utf-8' codec can't decode"))
  end.

Definition decode (s : bytes) : result str := strict (utf8_scan s).

(** [s.decode('ascii')] *)
Definition decode_ascii (s : bytes) : result str :=
  if forallb (fun c => ord c <? 0x80) s then Ok (map ord s)
  else Raise (UnicodeDecodeError (U "'ascii' codec can't decode")).

(** ** What the libraries take from outside

    Three library functions are not modelled further: [ipaddress.ip_address]
    and [unicodedata.normalize('NFKC', _)], which [urlsplit] calls to check a
    network location, and the JSON decoder behind [Response.json()]. *)

Inductive ip_version := IPv4Address | IPv6Address.

Class Library := {
  ip_address : str -> result ip_version;
  normalize_NFKC : str -> str;
  json : Type;
  json_loads : bytes -> result json
}.

(** ** urllib.parse: quoting *)

Definition _ALWAYS_SAFE_BYTES : bytes :=
  B "ABCDEFGHIJKLMNOPQRSTUVWXYZabcdefghijklmnopqrstuvwxyz0123456789_.-~".

Definition HEXDIG : bytes := B "0123456789ABCDEF".

(** ['%{:02X}'.format(b)] *)
Definition percent (c : ascii) : str :=
  [ord "%"; ord (nth (N.to_nat (ord c / 16)) HEXDIG "0"%char);
            ord (nth (N.to_nat (ord c mod 16)) HEXDIG "0"%char)].

(** [_Quoter(safe)[b]] *)
Definition quoter (safe : bytes) (c : ascii) : str :=
  if contains c (_ALWAYS_SAFE_BYTES ++ safe) then [ord c] else percent c.

(** When every byte is safe the code returns [bs.decode()]; the bytes are
    then 7-bit and are their own code points. *)
Definition quote_from_bytes (bs : bytes) (safe : bytes) : str :=
  match bs with
  | [] => []
  | _ =>
      match rstrip (_ALWAYS_SAFE_BYTES ++ safe) bs with
      | [] => map ord bs
      | _ => flat_map (quoter safe) bs
      end
  end.

(** The values [urlencode] and [requests] accept here: text or bytes. *)
Inductive value :=
| VStr (s : str)
| VBytes (s : bytes).

Definition quote (string : value) (safe : bytes) : result str :=
  match string with
  | VStr [] => Ok []
  | VStr s => bs ← utf8_encode s; Ok (quote_from_bytes bs safe)
  | VBytes bs => Ok (quote_from_bytes bs safe)
  end.

Definition has_space (string : value) : bool :=
  match string with
  | VStr s => contains (ord " ") s
  | VBytes s => contains " "%char s
  end.

Definition quote_plus (string : value) (safe : bytes) : result str :=
  if negb (has_space string) then quote string safe
  else string ← quote string (safe ++ B " ");
       Ok (replace (ord " ") (U "+") string).

(** [urlencode(query)] with [doseq=False] on the items of a dict whose keys
    are text. *)
Fixpoint urlencode_items (query : list (str * value)) : result (list str) :=
  match query with
  | [] => Ok []
  | (k, v) :: query' =>
      k ← quote_plus (VStr k) [];
      v ← quote_plus v [];
      l ← urlencode_items query';
      Ok ((k ++ U "=" ++ v) :: l)
  end.

Definition urlencode (query : list (str * value)) : result str :=
  l ← urlencode_items query; Ok (join (U "&") l).

(** ** urllib.parse: unquoting *)

Definition hexval (c : ascii) : option N :=
  option_map N.of_nat (index_of c (B "0123456789ABCDEF"))
  ∪ option_map (fun i => N.of_nat i + 10) (index_of c (B "abcdef")).

(** [_hextobyte[item[:2]]], a [KeyError] being [None]. *)
Definition _hextobyte (h1 h2 : ascii) : option ascii :=
  match hexval h1, hexval h2 with
  | Some x, Some y => Some (chr (16 * x + y))
  | _, _ => None
  end.

Definition unquote_item (item : bytes) : bytes :=
  match item with
  | h1 :: h2 :: rest =>
      match _hextobyte h1 h2 with
      | Some c => c :: rest
      | None => "%"%char :: item
      end
  | _ => "%"%char :: item
  end.

Definition unquote_to_bytes (string : bytes) : bytes :=
  match split "%"%char string with
  | [] => string
  | [_] => string
  | bits0 :: bits => bits0 ++ concat (map unquote_item bits)
  end.

(** [_asciire.split(string)] for [_asciire = re.compile('([\x00-\x7f]+)')]:
    the text between the 7-bit runs at the even places, the runs at the odd
    ones. *)
Fixpoint _asciire_split (string : str) : list str :=
  match string with
  | [] => [[]]
  | c :: s' =>
      let bits := _asciire_split s' in
      if c <? 0x80 then
        match bits with
        | [] :: run :: rest => [] :: (c :: run) :: rest
        | _ => [] :: [c] :: bits
        end
      else
        match bits with
        | text :: rest => (c :: text) :: rest
        | [] => [[c]]
        end
  end.

(** The loop [for i in range(1, len(bits), 2)] of [unquote]: a 7-bit run is
    its own UTF-8 encoding. *)
Fixpoint unquote_bits (bits : list str) : str :=
  match bits with
  | run :: text :: rest =>
      utf8_decode (unquote_to_bytes (map chr run)) ++ text ++ unquote_bits rest
  | _ => []
  end.

(** [unquote(string)] with [encoding='utf-8'], [errors='replace'] *)
Definition unquote (string : str) : str :=
  if negb (contains (ord "%") string) then string
  else match _asciire_split string with
       | bits0 :: bits => bits0 ++ unquote_bits bits
       | [] => []
       end.

(** [parse_qsl(qs)] with the defaults [keep_blank_values=False],
    [strict_parsing=False], [max_num_fields=None], [separator='&']. *)
Definition parse_field (name_value : str) : list (str * str) :=
  match name_value with
  | [] => []
  | _ =>
      match split1 (ord "=") name_value with
      | [nv0; nv1] =>
          match nv1 with
          | [] => []
          | _ => [(unquote (replace (ord "+") (U " ") nv0),
                   unquote (replace (ord "+") (U " ") nv1))]
          end
      | _ => []
      end
  end.

Definition parse_qsl (qs : str) : list (str * str) :=
  let query_args := match qs with [] => [] | _ => split (ord "&") qs end in
  flat_map parse_field query_args.

Definition parse_qs_add (parsed_result : gmap str (list str)) (nv : str * str)
    : gmap str (list str) :=
  let '(name, value) := nv in
  match parsed_result !! name with
  | Some l => <[name := l ++ [value]]> parsed_result
  | None => <[name := [value]]> parsed_result
  end.

Definition parse_qs (qs : str) : gmap str (list str) :=
  fold_left parse_qs_add (parse_qsl qs) ∅.

(** ** urllib.parse: splitting a URL *)

Record SplitResult := {
  split_scheme : str;
  split_netloc : str;
  split_path : str;
  split_query : str;
  split_fragment : str
}.

Record ParseResult := {
  scheme : str;
  netloc : str;
  path : str;
  params : str;
  query : str;
  fragment : str
}.

Definition scheme_chars : str :=
  U "abcdefghijklmnopqrstuvwxyzABCDEFGHIJKLMNOPQRSTUVWXYZ0123456789+-.".

Definition uses_params : list str :=
  [[]; U "ftp"; U "hdl"; U "prospero"; U "http"; U "imap"; U "https";
   U "shttp"; U "rtsp"; U "rtspu"; U "sip"; U "sips"; U "mms"; U "sftp";
   U "tel"].

Definition _WHATWG_C0_CONTROL_OR_SPACE : str :=
  map N.of_nat (seq 0 33).

Definition _UNSAFE_URL_BYTES_TO_REMOVE : str := [0x09; 0x0D; 0x0A].

(** [c.isascii() and c.isalpha()] *)
Definition is_ascii_alpha (c : N) : bool :=
  ((0x41 <=? c) && (c <=? 0x5A)) || ((0x61 <=? c) && (c <=? 0x7A)).

(** [s.lower()] on the characters of a scheme *)
Definition lower (s : str) : str :=
  map (fun c => if (0x41 <=? c) && (c <=? 0x5A) then c + 32 else c) s.

(** [s.isascii()] *)
Definition isascii (s : str) : bool := forallb (fun c => c <? 0x80) s.

(** [_splitnetloc(url, 2)]: the text after ["//"] up to the first of
    ["/"], ["?"] and ["#"], and the rest from that delimiter on. *)
Definition _splitnetloc (url : str) : str * str :=
  span (fun c => negb (contains c (U "/?#"))) (drop 2 url).

Section Urlsplit.
Context `{Library}.

(** The match of [r"\Av[a-fA-F0-9]+\..+\Z"] on a host that starts with
    ["v"]. *)
Definition is_hexdigit (c : N) : bool := contains c (U "0123456789abcdefABCDEF").

Definition ipvfuture_match (hostname : str) : bool :=
  match hostname with
  | v :: rest =>
      let '(digits, after) := span is_hexdigit rest in
      match digits, after with
      | _ :: _, dot :: ((_ :: _) as tail) =>
          (v =? ord "v") && (dot =? ord ".") && forallb (fun c => negb (c =? 0x0A)) tail
      | _, _ => false
      end
  | [] => false
  end.

Definition _check_bracketed_host (hostname : str) : result unit :=
  if startswith (U "v") hostname then
    if ipvfuture_match hostname then Ok tt
    else Raise (ValueError (U "IPvFuture address is invalid"))
  else
    ip ← ip_address hostname;
    match ip with
    | IPv4Address => Raise (ValueError (U "An IPv4 address cannot be in brackets"))
    | IPv6Address => Ok tt
    end.

Definition _check_bracketed_netloc (netloc : str) : result unit :=
  let hostname_and_port := (rpartition (ord "@") netloc).2 in
  let '(before_bracket, have_open_br, bracketed) := partition (ord "[") hostname_and_port in
  if have_open_br then
    match before_bracket with
    | _ :: _ => Raise (ValueError (U "Invalid IPv6 URL"))
    | [] =>
        let '(hostname, _, port) := partition (ord "]") bracketed in
        match port with
        | _ :: _ =>
            if negb (startswith (U ":") port)
            then Raise (ValueError (U "Invalid IPv6 URL"))
            else _check_bracketed_host hostname
        | [] => _check_bracketed_host hostname
        end
    end
  else
    let '(hostname, _, port) := partition (ord ":") hostname_and_port in
    _check_bracketed_host hostname.

Definition _checknetloc (netloc : str) : result unit :=
  match netloc with
  | [] => Ok tt
  | _ =>
      if isascii netloc then Ok tt
      else
        let n := replace (ord "?") [] (replace (ord "#") []
                   (replace (ord ":") [] (replace (ord "@") [] netloc))) in
        let netloc2 := normalize_NFKC n in
        if bool_decide (n = netloc2) then Ok tt
        else if existsb (fun c => contains c netloc2) (U "/?#@:")
        then Raise (ValueError (U "netloc '" ++ netloc ++
                      U "' contains invalid characters under NFKC normalization"))
        else Ok tt
  end.

(** [urlsplit(url)] with [scheme=''] and [allow_fragments=True], block by
    block: the cleaning of the text, the scheme, the network location with
    its checks, the fragment and the query. *)
Definition urlsplit_clean (url : str) : str :=
  let url := lstrip _WHATWG_C0_CONTROL_OR_SPACE url in
  fold_left (fun url c => replace c [] url) _UNSAFE_URL_BYTES_TO_REMOVE url.

Definition urlsplit_scheme (url : str) : str * str :=
  match partition (ord ":") url with
  | ((c :: _) as head, true, tail) =>
      if is_ascii_alpha c && forallb (fun c => contains c scheme_chars) head
      then (lower head, tail)
      else ([], url)
  | _ => ([], url)
  end.

Definition urlsplit_netloc (url : str) : result (str * str) :=
  if bool_decide (take 2 url = U "//") then
    let '(netloc, url) := _splitnetloc url in
    let open_br := contains (ord "[") netloc in
    let close_br := contains (ord "]") netloc in
    if (open_br && negb close_br) || (close_br && negb open_br)
    then Raise (ValueError (U "Invalid IPv6 URL"))
    else if open_br && close_br
    then _ ← _check_bracketed_netloc netloc; Ok (netloc, url)
    else Ok (netloc, url)
  else Ok ([], url).

Definition urlsplit_fragment (url : str) : str * str :=
  match partition (ord "#") url with
  | (x, true, y) => (x, y)
  | _ => (url, [])
  end.

Definition urlsplit_query (url : str) : str * str :=
  match partition (ord "?") url with
  | (x, true, y) => (x, y)
  | _ => (url, [])
  end.

Definition urlsplit (url : str) : result SplitResult :=
  let url := urlsplit_clean url in
  let '(scheme, url) := urlsplit_scheme url in
  '(netloc, url) ← urlsplit_netloc url;
  let '(url, fragment) := urlsplit_fragment url in
  let '(url, query) := urlsplit_query url in
  _ ← _checknetloc netloc;
  Ok {| split_scheme := scheme; split_netloc := netloc; split_path := url;
        split_query := query; split_fragment := fragment |}.

Definition _splitparams (url : str) : str * str :=
  match rpartition (ord "/") url with
  | (head, true, tail) =>
      match partition (ord ";") tail with
      | (x, true, y) => (head ++ U "/" ++ x, y)
      | _ => (url, [])
      end
  | _ =>
      let '(x, _, y) := partition (ord ";") url in (x, y)
  end.

Definition urlparse (url : str) : result ParseResult :=
  r ← urlsplit url;
  let '(url, params) :=
    if bool_decide (split_scheme r ∈ uses_params) && contains (ord ";") (split_path r)
    then _splitparams (split_path r)
    else (split_path r, []) in
  Ok {| scheme := split_scheme r; netloc := split_netloc r; path := url;
        params := params; query := split_query r; fragment := split_fragment r |}.

End Urlsplit.

(** ** The process and its surroundings

    The flow draws random bytes from the operating system, prints, reads a
    line, opens a browser, waits for the redirect listener and posts to the
    token endpoint. A [world] holds what the surroundings will answer, the
    module global [STATE], and the trace of what was done so far; the
    events of reading record what was read. *)

Inductive event :=
| Print (text : str)
| Input (prompt : str) (line : option str)
| BrowserOpen (url : str)
| Listen (redirect : str)
| Post (url : str) (data : list (str * value)) (headers : list (str * str)).

Record Request := {
  req_url : str;
  req_data : list (str * value);
  req_headers : list (str * str)
}.

Record world := {
  (** the bytes [os.urandom] will deliver, and how many were drawn *)
  urandom : nat -> ascii;
  drawn : nat;
  (** the lines [input()] will read *)
  stdin : list str;
  (** the redirect URLs the listener will capture, and how many it returned *)
  redirects : nat -> str;
  listened : nat;
  (** the answer of the token endpoint to a request *)
  server : Request -> result Response;
  (** the module global [STATE], unset before the module is imported *)
  global_STATE : option str;
  trace : list event
}.

Definition M (A : Type) : Type := world -> result A * world.

#[global] Instance M_ret : MRet M := fun A a w => (Ok a, w).
#[global] Instance M_bind : MBind M := fun A R k m w =>
  match m w with
  | (Ok a, w') => k a w'
  | (Raise e, w') => (Raise e, w')
  end.

Definition raise {A} (e : exn) : M A := fun w => (Raise e, w).
Definition lift {A} (r : result A) : M A := fun w => (r, w).

Definition emit (e : event) : M unit := fun w =>
  (Ok tt, {| urandom := urandom w; drawn := drawn w; stdin := stdin w;
             redirects := redirects w; listened := listened w;
             server := server w; global_STATE := global_STATE w;
             trace := trace w ++ [e] |}).

(** [os.urandom(n)] on a 64-bit build of CPython 3.11. The count is
    converted to a C [Py_ssize_t], which fails outside [-2^63, 2^63 - 1];
    a negative count is refused; the byte string is then created, which
    fails when the count and the header of a [bytes] object together pass
    [PY_SSIZE_T_MAX]; at last the bytes are drawn. The surroundings are
    taken to provide what is asked of them: the memory of the byte string
    ([MemoryError]) and the random source of the system are not modelled
    as failing. *)
Definition PY_SSIZE_T_MAX : Z := 9223372036854775807.
Definition PY_SSIZE_T_MIN : Z := -9223372036854775808.

(** [PyBytesObject_SIZE]: the header of a [bytes] object and its closing
    zero byte, [bytes.__basicsize__]. *)
Definition PyBytesObject_SIZE : Z := 33.

Definition os_urandom (n : Z) : M bytes := fun w =>
  if ((n <? PY_SSIZE_T_MIN) || (PY_SSIZE_T_MAX <? n))%Z then
    (Raise (OverflowError (U "Python int too large to convert to C ssize_t")), w)
  else if (n <? 0)%Z then
    (Raise (ValueError (U "negative argument not allowed")), w)
  else if (PY_SSIZE_T_MAX - PyBytesObject_SIZE <? n)%Z then
    (Raise (OverflowError (U "byte string is too large")), w)
  else
    (Ok (map (urandom w) (seq (drawn w) (Z.to_nat n))),
     {| urandom := urandom w; drawn := (drawn w + Z.to_nat n)%nat;
        stdin := stdin w; redirects := redirects w; listened := listened w;
        server := server w; global_STATE := global_STATE w;
        trace := trace w |}).

(** [print(text)] *)
Definition print (text : str) : M unit := emit (Print text).

(** [input(prompt)] *)
Definition input (prompt : str) : M str := fun w =>
  match stdin w with
  | [] => (Raise EOFError, snd (emit (Input prompt None) w))
  | line :: rest =>
      let w' := snd (emit (Input prompt (Some line)) w) in
      (Ok line,
       {| urandom := urandom w'; drawn := drawn w'; stdin := rest;
          redirects := redirects w'; listened := listened w';
          server := server w'; global_STATE := global_STATE w';
          trace := trace w' |})
  end.

(** [webbrowser.open(url)] *)
Definition webbrowser_open (url : str) : M unit := emit (BrowserOpen url).

(** Modelled from the spec: [listen_for_callback] of [evesso/callback.py],
    which is not among the sources. It blocks until the local listener has
    captured one redirect and returns the full URL of that request as a
    string. *)
Definition listen_for_callback : M str := fun w =>
  let w' := snd (emit (Listen (redirects w (listened w))) w) in
  (Ok (redirects w (listened w)),
   {| urandom := urandom w'; drawn := drawn w'; stdin := stdin w';
      redirects := redirects w'; listened := S (listened w');
      server := server w'; global_STATE := global_STATE w';
      trace := trace w' |}).

(** ** secrets *)

Definition token_bytes (nbytes : Z) : M bytes := os_urandom nbytes.

Definition token_urlsafe (nbytes : Z) : M str :=
  tok ← token_bytes nbytes;
  lift (decode_ascii (rstrip (B "=") (urlsafe_b64encode tok))).

(** ** requests *)

(** [requests.post(url, data=data, headers=headers)] *)
Definition send (rq : Request) : M Response := fun w => (server w rq, w).

Definition requests_post (url : str) (data : list (str * value))
    (headers : list (str * str)) : M Response :=
  _ ← emit (Post url data headers);
  send {| req_url := url; req_data := data; req_headers := headers |}.

(** [response.raise_for_status()] *)
Definition raise_for_status (response : Response) : result unit :=
  let http_error_msg :=
    if ((400 <=? status_code response) && (status_code response <? 500))%Z then
      str_of_Z (status_code response) ++ U " Client Error: " ++ reason response
        ++ U " for url: " ++ url response
    else if ((500 <=? status_code response) && (status_code response <? 600))%Z then
      str_of_Z (status_code response) ++ U " Server Error: " ++ reason response
        ++ U " for url: " ++ url response
    else [] in
  match http_error_msg with
  | [] => Ok tt
  | _ => Raise (HTTPError http_error_msg response)
  end.

(** ** evesso.const

    [AUTH_URL], [TOKEN_URL] and [HEADERS] are imported from
    [evesso/const.py], which is not among the sources: they are parameters
    of the development. *)

Class Const := {
  AUTH_URL : str;
  TOKEN_URL : str;
  HEADERS : list (str * str)
}.

(** ** evesso.authorize *)

Section Authorize.
Context `{Library} `{Const}.

(** [STATE = secrets.token_urlsafe(32)], run once when the module is
    imported. *)
Definition set_STATE (s : str) : M unit := fun w =>
  (Ok tt,
   {| urandom := urandom w; drawn := drawn w; stdin := stdin w;
      redirects := redirects w; listened := listened w;
      server := server w; global_STATE := Some s;
      trace := trace w |}).

Definition import_authorize : M unit :=
  s ← token_urlsafe 32;
  set_STATE s.

(** Reading the global [STATE]. *)
Definition STATE : M str := fun w =>
  match global_STATE w with
  | Some s => (Ok s, w)
  | None => (Raise (NameError (U "name 'STATE' is not defined")), w)
  end.

Definition generate_byte_string (length : Z) : M bytes :=
  bs ← token_bytes length;
  mret (urlsafe_b64encode bs).

Definition generate_challenge (verifier : bytes) : result str :=
  let m := hashlib_sha256 in
  let m := update m verifier in
  let d := digest m in
  s ← decode (urlsafe_b64encode d);
  Ok (replace (ord "=") [] s).

Definition build_auth_url (client_id : str) (scope : str) (callback_url : str)
    (code_verifier : bytes) : M str :=
  code_challenge ← lift (generate_challenge code_verifier);
  state ← STATE;
  let query_string :=
    [(U "response_type", VStr (U "code"));
     (U "redirect_uri", VStr callback_url);
     (U "client_id", VStr client_id);
     (U "scope", VStr scope);
     (U "code_challenge", VStr code_challenge);
     (U "code_challenge_method", VStr (U "S256"));
     (U "state", VStr state)] in
  q ← lift (urlencode query_string);
  mret (AUTH_URL ++ U "?" ++ q).

Definition parse_callback_url (callback_url : str) : result (gmap str (list str)) :=
  parsed_path ← urlparse callback_url;
  Ok (parse_qs (query parsed_path)).

(** [x[0]] for the [x] that [dict.get] returned *)
Definition subscript0 (x : option (list str)) : result str :=
  match x with
  | None => Raise (TypeError (U "'NoneType' object is not subscriptable"))
  | Some [] => Raise (IndexError (U "list index out of range"))
  | Some (v :: _) => Ok v
  end.

Definition get_auth_jwt (client_id : str) (scope : str) (callback_url : str)
    (cli : bool) : M json :=
  code_verifier ← generate_byte_string 32;
  auth_url ← build_auth_url client_id scope callback_url code_verifier;
  callback ←
    (if cli then
       _ ← print (U "Open this url in a web browser:" ++ [0x0A; 0x0A] ++ auth_url
                  ++ [0x0A; 0x0A]);
       input (U "Copy the callback URL from your web browser and paste it here, then press enter:"
              ++ [0x0A])
     else
       _ ← webbrowser_open auth_url;
       listen_for_callback);
  query_string ← lift (parse_callback_url callback);
  code ← lift (subscript0 (query_string !! U "code"));
  state ← lift (subscript0 (query_string !! U "state"));
  expected ← STATE;
  if negb (bool_decide (state = expected)) then
    raise (ValueError (U "Did not receive expected state"))
  else
    let data :=
      [(U "grant_type", VStr (U "authorization_code"));
       (U "client_id", VStr client_id);
       (U "code", VStr code);
       (U "code_verifier", VBytes code_verifier)] in
    response ← requests_post TOKEN_URL data HEADERS;
    _ ← lift (raise_for_status response);
    jwt ← lift (json_loads (content response));
    mret jwt.

End Authorize.

(** ** A concrete setting for the examples

    A library whose address parser knows the loopback addresses, whose
    normalisation leaves 7-bit text alone, and whose JSON decoder hands the
    body over as it is; the endpoints of the EVE Online single sign-on; a
    world with a fixed sequence of random bytes. *)

Definition example_library : Library := {|
  ip_address := fun s =>
    if bool_decide (s = U "::1") then Ok IPv6Address
    else if bool_decide (s = U "127.0.0.1") then Ok IPv4Address
    else Raise (ValueError (U "does not appear to be an IPv4 or IPv6 address"));
  normalize_NFKC := fun s => s;
  json := bytes;
  json_loads := fun body => Ok body
|}.

Definition example_const : Const := {|
  AUTH_URL := U "https://login.eveonline.com/v2/oauth/authorize/";
  TOKEN_URL := U "https://login.eveonline.com/v2/oauth/token";
  HEADERS := [(U "Content-Type", U "application/x-www-form-urlencoded");
              (U "Host", U "login.eveonline.com")]
|}.

Definition example_response (status : Z) (why : string) (body : string) : Response :=
  {| status_code := status; reason := U why;
     url := U "https://login.eveonline.com/v2/oauth/token"; content := B body |}.

(** The body [{"error":"invalid_grant"}] of a refused exchange, and the
    answer with status 400 that carries it. *)
Definition invalid_grant : bytes :=
  let q := [ascii_of_nat 34] in
  B "{" ++ q ++ B "error" ++ q ++ B ":" ++ q ++ B "invalid_grant" ++ q ++ B "}".

Definition bad_request : Response :=
  {| status_code := 400; reason := U "Bad Request";
     url := U "https://login.eveonline.com/v2/oauth/token";
     content := invalid_grant |}.

(** A world before the module is imported: [pasted] is what the user will
    paste or the listener capture, [response] what the endpoint answers. *)
Definition example_world (pasted : str) (response : Response) : world :=
  {| urandom := fun i => ascii_of_nat (7 * i + 3); drawn := 0;
     stdin := [pasted]; redirects := fun _ => pasted; listened := 0;
     server := fun _ => Ok response; global_STATE := None; trace := [] |}.

(** The same world once the module is imported; its [STATE] is
    ["AwoRGB8mLTQ7QklQV15lbHN6gYiPlp2kq7K5wMfO1dw"]. *)
Definition example_process (pasted : str) (response : Response) : world :=
  snd (import_authorize (example_world pasted response)).

(** The flow with the library and the endpoints of the examples. *)
Definition example_get_auth_jwt :=
  @get_auth_jwt example_library example_const.
Definition example_parse_callback_url :=
  @parse_callback_url example_library.
Definition example_build_auth_url :=
  @build_auth_url example_const.

(** ** Notions used by the statements *)

(** The symbols of the standard and of the URL-safe alphabet. *)
Definition urlsafe_alphabet : bytes :=
  B "ABCDEFGHIJKLMNOPQRSTUVWXYZabcdefghijklmnopqrstuvwxyz0123456789-_".

Definition is_symbol (c : ascii) : bool := contains c table_b2a_base64.
Definition is_urlsafe (c : ascii) : bool := contains c urlsafe_alphabet.

(** The challenge in the words of the specification: the URL-safe Base64
    text of the SHA-256 digest of the verifier as it is transmitted, with
    every padding character removed. *)
Definition derive_challenge (verifier : bytes) : str :=
  map ord (filter (fun c => c <> BASE64_PAD) (urlsafe_b64encode (SHA256.hash verifier))).

(** The events of a run from [w] to [w']. *)
Definition log (w w' : world) : list event := drop (length (trace w)) (trace w').

(** The run read the redirect URL [callback], from the prompt or from the
    listener. *)
Definition received (callback : str) (events : list event) : Prop :=
  (exists prompt, Input prompt (Some callback) ∈ events) \/ Listen callback ∈ events.

(** The run showed [auth_url] to the user, in the terminal or in the
    browser. *)
Definition shown (auth_url : str) (events : list event) : Prop :=
  Print (U "Open this url in a web browser:" ++ [0x0A; 0x0A] ++ auth_url
           ++ [0x0A; 0x0A]) ∈ events
  \/ BrowserOpen auth_url ∈ events.

(** No request was sent. *)
Definition no_post (events : list event) : Prop :=
  forall target data headers, Post target data headers ∉ events.

Section Flow.
Context `{Library} `{Const}.

(** The two halves of [get_auth_jwt]: obtaining the redirect URL (lines
    98 to 103 of the source) and what follows it (lines 104 to 120). *)
Definition acquire (cli : bool) (auth_url : str) : M str :=
  if cli then
    _ ← print (U "Open this url in a web browser:" ++ [0x0A; 0x0A] ++ auth_url
               ++ [0x0A; 0x0A]);
    input (U "Copy the callback URL from your web browser and paste it here, then press enter:"
           ++ [0x0A])
  else
    _ ← webbrowser_open auth_url;
    listen_for_callback.

Definition token_request (client_id : str) (code : str) (code_verifier : bytes)
    : list (str * value) :=
  [(U "grant_type", VStr (U "authorization_code"));
   (U "client_id", VStr client_id);
   (U "code", VStr code);
   (U "code_verifier", VBytes code_verifier)].

Definition exchange (client_id : str) (code_verifier : bytes) (callback : str) : M json :=
  query_string ← lift (parse_callback_url callback);
  code ← lift (subscript0 (query_string !! U "code"));
  state ← lift (subscript0 (query_string !! U "state"));
  expected ← STATE;
  if negb (bool_decide (state = expected)) then
    raise (ValueError (U "Did not receive expected state"))
  else
    response ← requests_post TOKEN_URL (token_request client_id code code_verifier) HEADERS;
    _ ← lift (raise_for_status response);
    jwt ← lift (json_loads (content response));
    mret jwt.

(** What the first half adds to the trace when it reads [callback]. *)
Definition prelude (cli : bool) (auth_url callback : str) : list event :=
  if cli then
    [Print (U "Open this url in a web browser:" ++ [0x0A; 0x0A] ++ auth_url
            ++ [0x0A; 0x0A]);
     Input (U "Copy the callback URL from your web browser and paste it here, then press enter:"
            ++ [0x0A]) (Some callback)]
  else [BrowserOpen auth_url; Listen callback].

(** What a run leaves as it was, whatever it reads and writes. *)
Definition same_surroundings (w w' : world) : Prop :=
  global_STATE w' = global_STATE w /\ server w' = server w
  /\ urandom w' = urandom w /\ redirects w' = redirects w.

(** The verifier an attempt started in [w] generates. *)
Definition verifier_of (w : world) : bytes :=
  urlsafe_b64encode (map (urandom w) (seq (drawn w) 32)).

(** The parameters of the authorization request. *)
Definition authorization_request (client_id scope callback_url code_challenge state : str)
    : list (str * value) :=
  [(U "response_type", VStr (U "code"));
   (U "redirect_uri", VStr callback_url);
   (U "client_id", VStr client_id);
   (U "scope", VStr scope);
   (U "code_challenge", VStr code_challenge);
   (U "code_challenge_method", VStr (U "S256"));
   (U "state", VStr state)].

End Flow.

(** The claims of the specification that the code does not satisfy as they
    are written, stated in full; their amended forms are theorems below. *)

(** "For every callback whose extracted state value differs from the
    expected token, the flow fails with the state-mismatch error and the
    token-exchange request is never sent." *)
Definition state_mismatch_claim : Prop :=
  forall (L : Library) (C : Const) client_id scope callback_url cli
         (w w' : world) (r : result json) st callback query_string state others,
    global_STATE w = Some st ->
    get_auth_jwt client_id scope callback_url cli w = (r, w') ->
    received callback (log w w') ->
    parse_callback_url callback = Ok query_string ->
    query_string !! U "state" = Some (state :: others) ->
    state <> st ->
    r = Raise (ValueError (U "Did not receive expected state"))
    /\ no_post (log w w').

(** The characters [quote_plus] writes: the unreserved ones, ["%"] and
    ["+"]. *)
Definition is_quoted (c : N) : bool :=
  contains c (map ord _ALWAYS_SAFE_BYTES ++ U "%+").

(** A query string as it is written: fields [name=value] joined by ["&"]. *)
Definition field (nv : str * str) : str := nv.1 ++ U "=" ++ nv.2.
Definition query_of (fields : list (str * str)) : str := join (U "&") (map field fields).

(** What [parse_qsl] makes of a name or a value. *)
Definition unquote_plus (string : str) : str :=
  unquote (replace (ord "+") (U " ") string).

(** The fields of a query that [parse_qsl] keeps, unquoted: those with a
    value that is not blank. *)
Definition kept_fields (fields : list (str * str)) : list (str * str) :=
  flat_map (fun nv => match nv.2 with
                      | [] => []
                      | _ => [(unquote_plus nv.1, unquote_plus nv.2)]
                      end) fields.

(** The values of [name] among pairs, in their order. *)
Definition values_of (name : str) (pairs : list (str * str)) : list str :=
  map snd (filter (fun nv => nv.1 = name) pairs).

(** Fields as a query can hold them: no ["&"] inside a name or a value, no
    ["="] inside a name. *)
Definition written (fields : list (str * str)) : Prop :=
  Forall (fun nv => (ord "=" ∉ nv.1) /\ (ord "&" ∉ nv.1) /\ (ord "&" ∉ nv.2)) fields.

(** The values of [name] as a mapping holds them: nothing for no value. *)
Definition listed (values : list str) : option (list str) :=
  match values with
  | [] => None
  | _ => Some values
  end.


(** A character that is neither ["?"] nor ["#"], and a query text that
    [urlsplit] leaves as it is: no ["#"], no tab, no line break. *)
Definition no_delimiter (c : N) : Prop := c <> ord "?" /\ c <> ord "#".
Definition plain_query (q : str) : Prop :=
  Forall (fun c => c <> ord "#" /\ c <> 0x09 /\ c <> 0x0A /\ c <> 0x0D) q.

(** Text that can be sent and that [parse_qs] keeps: not empty, and made
    of code points that UTF-8 encodes. *)
Definition sendable (s : str) : Prop := s <> [] /\ forallb encodable s = true.

(** The characters of an encoded query. *)
Definition is_query_char (c : N) : Prop :=
  is_quoted c = true \/ c = ord "&" \/ c = ord "=".

(** "For every client_id, scope, redirect_uri, verifier and state, parsing
    the query of the URL that [build_authorization_url] returns gives back
    exactly these inputs, all seven parameters present." *)
Definition authorization_url_claim : Prop :=
  forall (L : Library) (C : Const) client_id scope callback_url code_verifier
         (w w' : world) st auth_url,
    global_STATE w = Some st ->
    build_auth_url client_id scope callback_url code_verifier w = (Ok auth_url, w') ->
    exists query_string,
      parse_callback_url auth_url = Ok query_string
      /\ query_string !! U "response_type" = Some [U "code"]
      /\ query_string !! U "redirect_uri" = Some [callback_url]
      /\ query_string !! U "client_id" = Some [client_id]
      /\ query_string !! U "scope" = Some [scope]
      /\ query_string !! U "code_challenge" = Some [derive_challenge code_verifier]
      /\ query_string !! U "code_challenge_method" = Some [U "S256"]
      /\ query_string !! U "state" = Some [st].

(** The requests among events. *)
Definition is_post (e : event) : bool :=
  match e with
  | Post _ _ _ => true
  | _ => false
  end.

(** ** A process

    The module is imported once, then any number of authorization attempts
    follow, each from the world the one before left; a caller that catches
    the exception of a failed attempt starts the next. *)
Record attempt := {
  attempt_client_id : str;
  attempt_scope : str;
  attempt_callback_url : str;
  attempt_cli : bool
}.

Section Process.
Context `{Library} `{Const}.

(** The attempts with the world before, the result and the world after. *)
Fixpoint run_attempts (attempts : list attempt) (w : world)
    : list (attempt * world * result json * world) :=
  match attempts with
  | [] => []
  | a :: rest =>
      let '(r, w') := get_auth_jwt (attempt_client_id a) (attempt_scope a)
                        (attempt_callback_url a) (attempt_cli a) w in
      (a, w, r, w') :: run_attempts rest w'
  end.

Definition process (attempts : list attempt) (w0 : world)
    : list (attempt * world * result json * world) :=
  run_attempts attempts (snd (import_authorize w0)).

End Process.

(** The token that [token_urlsafe(32)] makes of the next random bytes. *)
Definition token_of (w : world) : str :=
  map ord (rstrip (B "=") (urlsafe_b64encode (map (urandom w) (seq (drawn w) 32)))).

Section ProcessStatements.
Context `{Library} `{Const}.

(** What holds of every attempt of a process whose token is [st]. *)
Definition attempt_uses (st : str) (run : attempt * world * result json * world) : Prop :=
  let '(a, w, r, w') := run in
  global_STATE w = Some st /\ global_STATE w' = Some st
  /\ (forall auth_url, shown auth_url (log w w') ->
        exists front, auth_url = AUTH_URL ++ U "?" ++ front ++ U "&state=" ++ st)
  /\ (forall callback query_string state others,
        received callback (log w w') ->
        parse_callback_url callback = Ok query_string ->
        query_string !! U "state" = Some (state :: others) ->
        state <> st ->
        (exists e, r = Raise e) /\ no_post (log w w'))
  /\ (forall target data headers,
        Post target data headers ∈ log w w' ->
        exists callback query_string others,
          received callback (log w w')
          /\ parse_callback_url callback = Ok query_string
          /\ query_string !! U "state" = Some (st :: others)).

End ProcessStatements.

(** * Properties *)

(** ** Test vectors of the library models *)

Example urlsafe_b64encode_ex :
  urlsafe_b64encode (B "any carnal pleas") = B "YW55IGNhcm5hbCBwbGVhcw=="
  /\ urlsafe_b64encode [ascii_of_nat 251; ascii_of_nat 255] = B "-_8="
  /\ urlsafe_b64decode (B "-_8=") = Ok [ascii_of_nat 251; ascii_of_nat 255]
  /\ urlsafe_b64decode (B "QQ==QQ==") = Ok (B "A")
  /\ urlsafe_b64decode (B "QUJD*RA==") = Ok (B "ABCD")
  /\ urlsafe_b64decode (B "Q=Q=") = Raise (binascii_Error (U "Incorrect padding"))
  /\ urlsafe_b64decode (B "QUJDR") = Raise (binascii_Error (U
       "Invalid base64-encoded string: number of data characters (5) cannot be 1 more than a multiple of 4")).
Proof. repeat split; reflexivity. Qed.

Example sha256_abc :
  hex (digest (update hashlib_sha256 (B "abc")))
  = B "ba7816bf8f01cfea414140de5dae2223b00361a396177a9cb410ff61f20015ad".
Proof. vm_compute. reflexivity. Qed.

Example sha256_empty :
  hex (digest hashlib_sha256)
  = B "e3b0c44298fc1c149afbf4c8996fb92427ae41e4649b934ca495991b7852b855".
Proof. vm_compute. reflexivity. Qed.

Example sha256_two_blocks :
  hex (digest (update hashlib_sha256
    (B "abcdbcdecdefdefgefghfghighijhijkijkljklmklmnlmnomnopnopq")))
  = B "248d6a61d20638b8e5c026930c3e6039a33ce45964ff2167f6ecedd419db06c1".
Proof. vm_compute. reflexivity. Qed.

Example utf8_ex :
  utf8_encode [0xE9; 0x20AC; 0x1F600] = Ok (map chr [0xC3; 0xA9; 0xE2; 0x82; 0xAC; 0xF0; 0x9F; 0x98; 0x80])
  /\ utf8_encode [0x41; 0xD800] = Raise (UnicodeEncodeError (U "surrogates not allowed"))
  /\ utf8_decode (map chr [0xC3; 0xA9; 0xE2; 0x82; 0xAC; 0xF0; 0x9F; 0x98; 0x80]) = [0xE9; 0x20AC; 0x1F600]
  /\ utf8_decode (map chr [0xE2; 0x82]) = [0xFFFD]
  /\ utf8_decode (map chr [0xE2; 0x82; 0x41]) = [0xFFFD; 0x41]
  /\ utf8_decode (map chr [0xE0; 0x80; 0x41]) = [0xFFFD; 0xFFFD; 0x41]
  /\ utf8_decode (map chr [0xED; 0xA0; 0x80]) = [0xFFFD; 0xFFFD; 0xFFFD]
  /\ utf8_decode (map chr [0xF0; 0x9F]) = [0xFFFD]
  /\ utf8_decode (map chr [0xF0; 0x80]) = [0xFFFD; 0xFFFD].
Proof. repeat split; reflexivity. Qed.

Example quote_ex :
  quote_plus (VStr (U "a b+c/~")) [] = Ok (U "a+b%2Bc%2F~")
  /\ quote_plus (VStr [0xE9; 0x20; 0x2F]) [] = Ok (U "%C3%A9+%2F")
  /\ quote_plus (VBytes (B "x y=")) [] = Ok (U "x+y%3D")
  /\ urlencode [(U "a", VStr []); (U "b", VBytes (B "x y="))] = Ok (U "a=&b=x+y%3D")
  /\ unquote (U "%zz%41+b%C3%A9%e2") = U "%zzA+b" ++ [0xE9; 0xFFFD]
  /\ unquote ([0xE9] ++ U "%41" ++ [0xE9]) = [0xE9; 0x41; 0xE9]
  /\ parse_qsl (U "a=%zz%41+b&=x&c&&d=&e=1=2") =
       [(U "a", U "%zzA b"); ([], U "x"); (U "e", U "1=2")].
Proof. repeat split; reflexivity. Qed.

Example parse_qs_ex :
  parse_qs (U "code=a&state=s&code=b")
  = <[U "code" := [U "a"; U "b"]]> (<[U "state" := [U "s"]]> ∅).
Proof. vm_compute. reflexivity. Qed.

Example urlparse_ex :
  @urlparse example_library (U "https://x/cb?code=abc&state=secret")
  = Ok {| scheme := U "https"; netloc := U "x"; path := U "/cb"; params := [];
          query := U "code=abc&state=secret"; fragment := [] |}
  /\ @urlparse example_library ([0x20; 0x09] ++ U "HTTPS://u@[::1]:8/a;b/c;d?co" ++ [0x09] ++ U "de=a#f?x")
     = Ok {| scheme := U "https"; netloc := U "u@[::1]:8"; path := U "/a;b/c";
             params := U "d"; query := U "code=a"; fragment := U "f?x" |}
  /\ @urlparse example_library (U "not a url?code=a&state=s")
     = Ok {| scheme := []; netloc := []; path := U "not a url"; params := [];
             query := U "code=a&state=s"; fragment := [] |}
  /\ @urlparse example_library (U "https://[::1/cb?code=a")
     = Raise (ValueError (U "Invalid IPv6 URL"))
  /\ @urlparse example_library (U "https://[127.0.0.1]/cb")
     = Raise (ValueError (U "An IPv4 address cannot be in brackets"))
  /\ @urlparse example_library (U "https://[v1.x]x/cb")
     = Raise (ValueError (U "Invalid IPv6 URL"))
  /\ @urlparse example_library (U "https://[vg.x]/cb")
     = Raise (ValueError (U "IPvFuture address is invalid")).
Proof. repeat split; vm_compute; reflexivity. Qed.


Example os_urandom_ex :
  let w := example_world [] (example_response 200 "OK" "{}") in
  fst (os_urandom 9223372036854775808 w)
    = Raise (OverflowError (U "Python int too large to convert to C ssize_t"))
  /\ fst (os_urandom 9223372036854775807 w)
     = Raise (OverflowError (U "byte string is too large"))
  /\ fst (os_urandom 9223372036854775775 w)
     = Raise (OverflowError (U "byte string is too large"))
  /\ fst (os_urandom (-9223372036854775809) w)
     = Raise (OverflowError (U "Python int too large to convert to C ssize_t"))
  /\ fst (os_urandom (-9223372036854775808) w)
     = Raise (ValueError (U "negative argument not allowed"))
  /\ fst (os_urandom (-1) w) = Raise (ValueError (U "negative argument not allowed"))
  /\ fst (os_urandom 0 w) = Ok []
  /\ fst (os_urandom 2 w) = Ok [ascii_of_nat 3; ascii_of_nat 10].
Proof. vm_compute. repeat split. Qed.

(** ** Base64 *)

(** Induction on a list of bytes three bytes at a time, as the encoder
    reads it. *)
Lemma bytes_ind3 (P : bytes -> Prop) :
  P [] -> (forall a, P [a]) -> (forall a c, P [a; c]) ->
  (forall a c d rest, P rest -> P (a :: c :: d :: rest)) ->
  forall s, P s.
Proof.
  intros H0 H1 H2 H3 s.
  assert (Hall : P s /\ (forall a, P (a :: s)) /\ (forall a c, P (a :: c :: s))).
  { induction s as [|x s IH].
    - auto.
    - destruct IH as (IHs & IH1' & IH2'). repeat split; auto. }
  apply Hall.
Qed.

Lemma b2a_symbol b5 b4 b3 b2 b1 b0 :
  is_symbol (b2a (six b5 b4 b3 b2 b1 b0)) = true.
Proof. destruct b5, b4, b3, b2, b1, b0; reflexivity. Qed.

Lemma a2b_b2a b5 b4 b3 b2 b1 b0 :
  a2b (b2a (six b5 b4 b3 b2 b1 b0)) = Some (six b5 b4 b3 b2 b1 b0).
Proof. destruct b5, b4, b3, b2, b1, b0; reflexivity. Qed.

Lemma symbol_not_pad c : is_symbol c = true -> Ascii.eqb c BASE64_PAD = false.
Proof.
  unfold is_symbol, contains. intros Hc. apply bool_decide_eq_true in Hc.
  apply Ascii.eqb_neq. intros ->. revert Hc. vm_compute. 
  intros Hc. repeat (apply elem_of_cons in Hc as [Hc|Hc]; [discriminate|]).
  by apply elem_of_nil in Hc.
Qed.

Lemma char_eqb_refl (c : ascii) : Ascii.eqb c c = true.
Proof. apply Ascii.eqb_refl. Qed.

(** What the loop does with a symbol of the alphabet, by the place of the
    symbol in its group of four. *)
Lemma a2b_base64_loop_cons q l p out c rest :
  a2b_base64_loop q l p out (c :: rest) =
  if Ascii.eqb c BASE64_PAD then
    if 2 <=? q then
      if 4 <=? q + (p + 1) then Ok out
      else a2b_base64_loop q l (p + 1) out rest
    else a2b_base64_loop q l p out rest
  else
    match a2b c with
    | None => a2b_base64_loop q l p out rest
    | Some (Ascii t0 t1 t2 t3 t4 t5 _ _) =>
        let '(Ascii l0 l1 l2 l3 l4 l5 _ _) := l in
        if q =? 0 then
          a2b_base64_loop 1 (Ascii t0 t1 t2 t3 t4 t5 false false) 0 out rest
        else if q =? 1 then
          a2b_base64_loop 2 (Ascii t0 t1 t2 t3 false false false false) 0
            (out ++ [Ascii t4 t5 l0 l1 l2 l3 l4 l5]) rest
        else if q =? 2 then
          a2b_base64_loop 3 (Ascii t0 t1 false false false false false false) 0
            (out ++ [Ascii t2 t3 t4 t5 l0 l1 l2 l3]) rest
        else
          a2b_base64_loop 0 zero 0 (out ++ [Ascii t0 t1 t2 t3 t4 t5 l0 l1]) rest
    end.
Proof. reflexivity. Qed.

Lemma a2b_base64_loop_symbol q l0 l1 l2 l3 l4 l5 l6 l7 p out t5 t4 t3 t2 t1 t0 rest :
  a2b_base64_loop q (Ascii l0 l1 l2 l3 l4 l5 l6 l7) p out
    (b2a (six t5 t4 t3 t2 t1 t0) :: rest) =
  if q =? 0 then
    a2b_base64_loop 1 (Ascii t0 t1 t2 t3 t4 t5 false false) 0 out rest
  else if q =? 1 then
    a2b_base64_loop 2 (Ascii t0 t1 t2 t3 false false false false) 0
      (out ++ [Ascii t4 t5 l0 l1 l2 l3 l4 l5]) rest
  else if q =? 2 then
    a2b_base64_loop 3 (Ascii t0 t1 false false false false false false) 0
      (out ++ [Ascii t2 t3 t4 t5 l0 l1 l2 l3]) rest
  else
    a2b_base64_loop 0 zero 0 (out ++ [Ascii t0 t1 t2 t3 t4 t5 l0 l1]) rest.
Proof.
  rewrite a2b_base64_loop_cons.
  rewrite (symbol_not_pad _ (b2a_symbol t5 t4 t3 t2 t1 t0)).
  rewrite a2b_b2a. reflexivity.
Qed.

Lemma a2b_base64_loop_pad q l p out rest :
  a2b_base64_loop q l p out (BASE64_PAD :: rest) =
  if 2 <=? q then
    if 4 <=? q + (p + 1) then Ok out
    else a2b_base64_loop q l (p + 1) out rest
  else a2b_base64_loop q l p out rest.
Proof. reflexivity. Qed.

(** Decoding what the encoder wrote gives the bytes back. *)
Lemma a2b_base64_loop_b2a out s :
  a2b_base64_loop 0 zero 0 out (b2a_base64 s) = Ok (out ++ s).
Proof.
  revert out. induction s as [|a|a c|a c d rest IH] using bytes_ind3; intros out.
  - cbn. by rewrite app_nil_r.
  - destruct a as [a0 a1 a2 a3 a4 a5 a6 a7].
    cbn [b2a_base64]. unfold zero.
    rewrite !a2b_base64_loop_symbol, !a2b_base64_loop_pad. reflexivity.
  - destruct a as [a0 a1 a2 a3 a4 a5 a6 a7], c as [c0 c1 c2 c3 c4 c5 c6 c7].
    cbn [b2a_base64]. unfold zero.
    rewrite !a2b_base64_loop_symbol, !a2b_base64_loop_pad.
    cbn [N.eqb N.leb N.compare Pos.eqb Pos.compare Pos.compare_cont N.add Pos.add].
    by rewrite <- !app_assoc.
  - destruct a as [a0 a1 a2 a3 a4 a5 a6 a7], c as [c0 c1 c2 c3 c4 c5 c6 c7],
      d as [d0 d1 d2 d3 d4 d5 d6 d7].
    cbn [b2a_base64]. unfold zero at 1.
    rewrite !a2b_base64_loop_symbol.
    cbn [N.eqb Pos.eqb]. rewrite IH.
    by rewrite <- !app_assoc.
Qed.

Lemma a2b_base64_b2a_base64 s : a2b_base64 (b2a_base64 s) = Ok s.
Proof. apply (a2b_base64_loop_b2a []). Qed.

Lemma b2a_base64_chars s :
  Forall (fun c => is_symbol c || Ascii.eqb c BASE64_PAD = true) (b2a_base64 s).
Proof.
  induction s as [|a|a c|a c d rest IH] using bytes_ind3.
  - constructor.
  - destruct a as [a0 a1 a2 a3 a4 a5 a6 a7]. cbn [b2a_base64].
    repeat constructor; rewrite ?b2a_symbol; reflexivity.
  - destruct a as [a0 a1 a2 a3 a4 a5 a6 a7], c as [c0 c1 c2 c3 c4 c5 c6 c7].
    cbn [b2a_base64]. repeat constructor; rewrite ?b2a_symbol; reflexivity.
  - destruct a as [a0 a1 a2 a3 a4 a5 a6 a7], c as [c0 c1 c2 c3 c4 c5 c6 c7],
      d as [d0 d1 d2 d3 d4 d5 d6 d7].
    cbn [b2a_base64]. repeat (constructor; [by rewrite b2a_symbol|]). exact IH.
Qed.

Lemma b2a_base64_length s :
  length (b2a_base64 s) = (4 * ((length s + 2) / 3))%nat.
Proof.
  induction s as [|a|a c|a c d rest IH] using bytes_ind3.
  - reflexivity.
  - by destruct a.
  - by destruct a, c.
  - destruct a, c, d. cbn [b2a_base64 length]. rewrite IH.
    replace (S (S (S (length rest))) + 2)%nat with (1 * 3 + (length rest + 2))%nat by lia.
    rewrite Nat.div_add_l by lia. lia.
Qed.

(** Facts about single characters are decided by running through the 256
    of them. *)
Lemma all_chars (Q : ascii -> Prop) `{forall c, Decision (Q c)} :
  forallb (fun n => bool_decide (Q (ascii_of_nat n))) (seq 0 256) = true ->
  forall c, Q c.
Proof.
  intros Hall c. rewrite forallb_forall in Hall.
  rewrite <- (ascii_nat_embedding c).
  eapply bool_decide_eq_true, Hall, in_seq.
  pose proof (nat_ascii_bounded c). lia.
Qed.

Ltac each_char :=
  match goal with
  | |- forall c : ascii, @?Q c =>
      unshelve (eapply (@all_chars Q));
      [ intros ?; cbv beta zeta; apply _ .. | vm_compute; reflexivity ]
  end.

Lemma urlsafe_translation c :
  is_symbol c || Ascii.eqb c BASE64_PAD = true ->
  let c' := (if Ascii.eqb c "+" then "-" else if Ascii.eqb c "/" then "_" else c)%char in
  (is_urlsafe c' || Ascii.eqb c' BASE64_PAD = true)
  /\ (if Ascii.eqb c' "-" then "+" else if Ascii.eqb c' "_" then "/" else c')%char = c.
Proof. revert c. each_char. Qed.

Lemma urlsafe_b64encode_chars s :
  Forall (fun c => is_urlsafe c || Ascii.eqb c BASE64_PAD = true) (urlsafe_b64encode s).
Proof.
  unfold urlsafe_b64encode, b64encode, translate2.
  apply Forall_map. eapply Forall_impl; [apply b2a_base64_chars|].
  intros c Hc. apply (urlsafe_translation c Hc).
Qed.

Lemma urlsafe_b64encode_length s :
  length (urlsafe_b64encode s) = (4 * ((length s + 2) / 3))%nat.
Proof.
  unfold urlsafe_b64encode, b64encode, translate2.
  by rewrite length_map, b2a_base64_length.
Qed.

(** Decoding with the URL-safe alphabet what was encoded with it. *)
Lemma urlsafe_b64decode_b64encode s :
  urlsafe_b64decode (urlsafe_b64encode s) = Ok s.
Proof.
  unfold urlsafe_b64decode, urlsafe_b64encode, b64decode, b64encode, translate2.
  rewrite map_map.
  rewrite (map_ext_Forall _ id).
  - rewrite map_id. apply a2b_base64_b2a_base64.
  - eapply Forall_impl; [apply b2a_base64_chars|].
    intros c Hc. apply (urlsafe_translation c Hc).
Qed.

(** ** The verifier *)

Lemma os_urandom_draws (n : Z) (w : world) :
  (0 <= n <= 9223372036854775774)%Z ->
  exists w', os_urandom n w = (Ok (map (urandom w) (seq (drawn w) (Z.to_nat n))), w')
    /\ drawn w' = (drawn w + Z.to_nat n)%nat
    /\ trace w' = trace w /\ global_STATE w' = global_STATE w
    /\ stdin w' = stdin w /\ listened w' = listened w
    /\ redirects w' = redirects w /\ server w' = server w /\ urandom w' = urandom w.
Proof.
  intros Hn. unfold os_urandom, PY_SSIZE_T_MIN, PY_SSIZE_T_MAX, PyBytesObject_SIZE.
  destruct (Z.ltb_spec n (-9223372036854775808)) as [Hlt|_]; [lia|].
  destruct (Z.ltb_spec 9223372036854775807 n) as [Hlt|_]; [lia|].
  destruct (Z.ltb_spec n 0) as [Hlt|_]; [lia|].
  destruct (Z.ltb_spec (9223372036854775807 - 33) n) as [Hlt|_]; [lia|].
  eexists. split; [reflexivity|]. cbn. repeat split.
Qed.

Lemma last_map {A C} (f : A -> C) (l : list A) :
  last (map f l) = option_map f (last l).
Proof.
  induction l as [|x l IH]; [done|].
  cbn [map]. rewrite !last_cons, IH. by destruct (last l).
Qed.

Lemma last_b2a_base64_pad (s : bytes) :
  (length s mod 3 <> 0)%nat -> last (b2a_base64 s) = Some BASE64_PAD.
Proof.
  induction s as [|a|a c|a c d rest IH] using bytes_ind3; intros Hlen.
  - by cbn in Hlen.
  - by destruct a.
  - by destruct a, c.
  - destruct a, c, d. cbn [b2a_base64].
    rewrite !last_cons. rewrite IH; [done|].
    cbn [length] in Hlen.
    replace (S (S (S (length rest)))) with (length rest + 1 * 3)%nat in Hlen by lia.
    by rewrite Nat.Div0.mod_add in Hlen.
Qed.

(** C3. For a requested number of bytes [length] that is a size of a byte
    string, from 0 to [PY_SSIZE_T_MAX - PyBytesObject_SIZE] (below 0
    [os.urandom] raises [ValueError], above it [OverflowError]),
    [generate_byte_string] draws [length] random bytes and returns their
    URL-safe Base64 encoding with the padding kept: the text has four
    characters for every three bytes begun and ends with ["="] unless
    [length] is a multiple of three. Decoding the returned verifier gives
    the [length] bytes back. *)
Theorem generate_byte_string_roundtrip (length : Z) (w : world) :
  (0 <= length <= PY_SSIZE_T_MAX - PyBytesObject_SIZE)%Z ->
  exists (random : bytes) (w' : world),
    generate_byte_string length w = (Ok (urlsafe_b64encode random), w')
    /\ random = map (urandom w) (seq (drawn w) (Z.to_nat length))
    /\ Z.of_nat (Datatypes.length random) = length
    /\ urlsafe_b64decode (urlsafe_b64encode random) = Ok random
    /\ Datatypes.length (urlsafe_b64encode random)
       = (4 * ((Z.to_nat length + 2) / 3))%nat
    /\ ((length mod 3 <> 0)%Z -> last (urlsafe_b64encode random) = Some BASE64_PAD).
Proof.
  intros Hlen. unfold PY_SSIZE_T_MAX, PyBytesObject_SIZE in Hlen.
  destruct (os_urandom_draws length w) as (w' & Hrun & _); [lia|].
  exists (map (urandom w) (seq (drawn w) (Z.to_nat length))), w'.
  assert (Hsize : Datatypes.length (map (urandom w) (seq (drawn w) (Z.to_nat length)))
                  = Z.to_nat length) by (by rewrite length_map, length_seq).
  repeat split.
  - unfold generate_byte_string, token_bytes, mbind, M_bind. by rewrite Hrun.
  - rewrite Hsize. lia.
  - apply urlsafe_b64decode_b64encode.
  - by rewrite urlsafe_b64encode_length, Hsize.
  - intros Hmod. unfold urlsafe_b64encode, b64encode, translate2.
    rewrite last_map, last_b2a_base64_pad; [done|].
    rewrite Hsize. intros H0. apply Hmod.
    rewrite <- (Z2Nat.id length) by lia.
    change 3%Z with (Z.of_nat 3). rewrite <- Nat2Z.inj_mod. by rewrite H0.
Qed.

Lemma generate_byte_string_roundtrip_witness :
  exists (random : bytes) (w' : world),
    generate_byte_string 32 (example_world [] (example_response 200 "OK" "{}"))
      = (Ok (urlsafe_b64encode random), w')
    /\ Z.of_nat (Datatypes.length random) = 32%Z
    /\ urlsafe_b64decode (urlsafe_b64encode random) = Ok random.
Proof.
  destruct (generate_byte_string_roundtrip 32
              (example_world [] (example_response 200 "OK" "{}")))
    as (random & w' & Hrun & _ & Hlen & Hdec & _);
    [unfold PY_SSIZE_T_MAX, PyBytesObject_SIZE; lia|].
  exists random, w'. auto.
Defined.

(** ** The challenge *)

Lemma ord_inj c d : ord c = ord d -> c = d.
Proof.
  unfold ord. intros Heq.
  by rewrite <- (ascii_N_embedding c), <- (ascii_N_embedding d), Heq.
Qed.

Lemma chr_ord c : chr (ord c) = c.
Proof. apply ascii_N_embedding. Qed.

(** Seven-bit bytes decode to themselves. *)
Lemma utf8_scan_7bit s :
  forallb (fun c => ord c <? 0x80) s = true ->
  utf8_scan s = map (fun c => Some (ord c)) s.
Proof.
  induction s as [|c s IH]; [done|].
  cbn [forallb]. intros [Hc Hs]%andb_true_iff.
  cbn [utf8_scan map]. rewrite Hc. by rewrite IH.
Qed.

Lemma decode_7bit s :
  forallb (fun c => ord c <? 0x80) s = true -> decode s = Ok (map ord s).
Proof.
  intros Hs. unfold decode. rewrite (utf8_scan_7bit s Hs).
  clear Hs. induction s as [|c s IH]; [done|].
  cbn [map strict]. by rewrite IH.
Qed.

Lemma urlsafe_char_7bit c :
  is_urlsafe c || Ascii.eqb c BASE64_PAD = true ->
  (ord c <? 0x80) = true /\ ord c <> ord "+" /\ ord c <> ord "/".
Proof. revert c. each_char. Qed.

Lemma urlsafe_b64encode_7bit s :
  forallb (fun c => ord c <? 0x80) (urlsafe_b64encode s) = true.
Proof.
  apply forallb_forall. intros c Hc.
  pose proof (urlsafe_b64encode_chars s) as Hall.
  rewrite List.Forall_forall in Hall. by apply urlsafe_char_7bit, Hall.
Qed.

(** Removing a character from text that came from bytes. *)
Lemma replace_ord_filter (x : ascii) (s : bytes) :
  replace (ord x) [] (map ord s) = map ord (filter (fun c => c <> x) s).
Proof.
  induction s as [|c s IH]; [done|].
  cbn [map]. unfold replace in *. cbn [flat_map]. rewrite IH.
  rewrite filter_cons.
  destruct (decide (ord c = ord x)) as [Heq|Hne].
  - apply ord_inj in Heq. subst c. by rewrite decide_False by auto.
  - rewrite decide_True by congruence. done.
Qed.

Lemma generate_challenge_ok verifier :
  generate_challenge verifier = Ok (derive_challenge verifier).
Proof.
  unfold generate_challenge, derive_challenge, digest, update, hashlib_sha256.
  cbn [app]. rewrite decode_7bit by apply urlsafe_b64encode_7bit.
  unfold mbind, result_bind. by rewrite replace_ord_filter.
Qed.

Lemma derive_challenge_chars verifier n :
  n ∈ derive_challenge verifier ->
  n <> ord "=" /\ n <> ord "+" /\ n <> ord "/".
Proof.
  unfold derive_challenge.
  intros (c & <- & Hc)%list_elem_of_In%in_map_iff.
  apply list_elem_of_In, list_elem_of_filter in Hc as [Hpad Hc].
  pose proof (urlsafe_b64encode_chars (SHA256.hash verifier)) as Hall.
  rewrite Forall_forall in Hall.
  destruct (urlsafe_char_7bit c (Hall c Hc)) as (_ & Hplus & Hslash).
  repeat split; try done.
  intros Heq. by apply ord_inj in Heq.
Qed.

(** C2. [generate_challenge] returns, for every verifier, the URL-safe
    Base64 text of the SHA-256 digest of the verifier's bytes as they are,
    without any ["="]; it raises nothing, gives one result for one
    verifier, and the result holds none of ["="], ["+"] and ["/"]. *)
Theorem generate_challenge_derive (verifier : bytes) :
  generate_challenge verifier = Ok (derive_challenge verifier)
  /\ (forall r1 r2, generate_challenge verifier = r1 ->
        generate_challenge verifier = r2 -> r1 = r2)
  /\ (ord "=" ∉ derive_challenge verifier)
  /\ (ord "+" ∉ derive_challenge verifier)
  /\ (ord "/" ∉ derive_challenge verifier).
Proof.
  split; [apply generate_challenge_ok|]. split; [congruence|].
  repeat split; intros Hin; apply derive_challenge_chars in Hin;
    destruct Hin as (Heq & Hplus & Hslash); congruence.
Qed.

(** ** The flow *)

Section FlowFacts.
Context `{Library} `{Const}.

Lemma get_auth_jwt_halves client_id scope callback_url cli :
  get_auth_jwt client_id scope callback_url cli =
  (code_verifier ← generate_byte_string 32;
   auth_url ← build_auth_url client_id scope callback_url code_verifier;
   callback ← acquire cli auth_url;
   exchange client_id code_verifier callback).
Proof. reflexivity. Qed.

Lemma same_surroundings_refl w : same_surroundings w w.
Proof. by repeat split. Qed.

Lemma same_surroundings_trans w1 w2 w3 :
  same_surroundings w1 w2 -> same_surroundings w2 w3 -> same_surroundings w1 w3.
Proof.
  intros (? & ? & ? & ?) (? & ? & ? & ?). repeat split; congruence.
Qed.

(** The second half, outcome by outcome. *)
Lemma exchange_run client_id code_verifier callback w st :
  global_STATE w = Some st ->
  exchange client_id code_verifier callback w =
  match parse_callback_url callback with
  | Raise e => (Raise e, w)
  | Ok query_string =>
      match subscript0 (query_string !! U "code") with
      | Raise e => (Raise e, w)
      | Ok code =>
          match subscript0 (query_string !! U "state") with
          | Raise e => (Raise e, w)
          | Ok state =>
              if bool_decide (state = st) then
                let data := token_request client_id code code_verifier in
                let w' := snd (emit (Post TOKEN_URL data HEADERS) w) in
                (response ← server w {| req_url := TOKEN_URL; req_data := data;
                                        req_headers := HEADERS |};
                 _ ← raise_for_status response;
                 json_loads (content response), w')
              else (Raise (ValueError (U "Did not receive expected state")), w)
          end
      end
  end.
Proof.
  intros Hst. unfold exchange, mbind, M_bind, lift.
  destruct (parse_callback_url callback) as [query_string|e]; [|done].
  destruct (subscript0 (query_string !! U "code")) as [code|e]; [|done].
  destruct (subscript0 (query_string !! U "state")) as [state|e]; [|done].
  unfold STATE at 1. rewrite Hst.
  destruct (bool_decide (state = st)); [|done].
  cbn [negb]. unfold requests_post, mbind, M_bind, emit, send. cbn [server snd].
  destruct (server w _) as [response|e]; [|done].
  cbn [result_bind]. unfold mbind, result_bind.
  destruct (raise_for_status response); [|done].
  by destruct (json_loads (content response)).
Qed.


Lemma log_app w w' events : trace w' = trace w ++ events -> log w w' = events.
Proof. intros Heq. unfold log. by rewrite Heq, drop_app_length. Qed.

(** The first half: the verifier is drawn, the URL built, and the redirect
    URL read from the prompt or from the listener. *)
Lemma get_auth_jwt_cases client_id scope callback_url cli w st r w' :
  global_STATE w = Some st ->
  get_auth_jwt client_id scope callback_url cli w = (r, w') ->
  let request := authorization_request client_id scope callback_url
                   (derive_challenge (verifier_of w)) st in
  (exists e, urlencode request = Raise e /\ r = Raise e /\ log w w' = []
             /\ same_surroundings w w')
  \/ (exists q, urlencode request = Ok q
       /\ ((cli = true /\ stdin w = [] /\ r = Raise EOFError
            /\ same_surroundings w w'
            /\ exists prompt,
                 log w w' = [Print (U "Open this url in a web browser:" ++ [0x0A; 0x0A]
                                    ++ (AUTH_URL ++ U "?" ++ q) ++ [0x0A; 0x0A]);
                             Input prompt None])
           \/ (exists callback w2,
                 trace w2 = trace w ++ prelude cli (AUTH_URL ++ U "?" ++ q) callback
                 /\ (if cli then head (stdin w) = Some callback
                     else callback = redirects w (listened w))
                 /\ same_surroundings w w2
                 /\ exchange client_id (verifier_of w) callback w2 = (r, w')))).
Proof.
  intros Hst Hrun request. rewrite get_auth_jwt_halves in Hrun.
  unfold mbind at 1, M_bind at 1 in Hrun.
  unfold generate_byte_string, token_bytes, mbind at 1, M_bind at 1 in Hrun.
  destruct (os_urandom_draws 32 w) as (w1 & Hdraw & Hdrawn & Htrace & Hglobal
    & Hstdin & Hlistened & Hredirects & Hserver & Hurandom); [lia|].
  rewrite Hdraw in Hrun. cbn [mret M_ret] in Hrun.
  change (urlsafe_b64encode _) with (verifier_of w) in Hrun.
  unfold build_auth_url, mbind at 1, M_bind at 1 in Hrun.
  unfold mbind at 1, M_bind at 1, lift at 1 in Hrun.
  rewrite generate_challenge_ok in Hrun.
  unfold mbind at 1, M_bind at 1, STATE at 1 in Hrun.
  rewrite Hglobal, Hst in Hrun.
  unfold mbind at 1, M_bind at 1, lift at 1 in Hrun.
  change (urlencode _) with (urlencode request) in Hrun.
  assert (Hsame1 : same_surroundings w w1) by (by repeat split).
  destruct (urlencode request) as [q|e].
  2:{ left. exists e. injection Hrun as <- <-.
      repeat split; try done. by apply log_app; rewrite app_nil_r. }
  right. exists q. split; [done|].
  cbn [mret M_ret] in Hrun.
  unfold mbind at 1, M_bind at 1 in Hrun.
  destruct cli.
  - unfold acquire, mbind at 1, M_bind at 1, print, emit in Hrun.
    unfold input in Hrun. cbn [stdin snd emit] in Hrun. rewrite Hstdin in Hrun.
    destruct (stdin w) as [|line rest] eqn:Hin;
      cbn [urandom drawn stdin redirects listened server global_STATE trace snd] in Hrun.
    + left. injection Hrun as <- <-. repeat split; try done.
      eexists. apply log_app. cbn [trace]. rewrite Htrace, <- app_assoc.
      reflexivity.
    + right. exists line. eexists. split; [|split; [|split; [|exact Hrun]]].
      * cbn [trace prelude]. rewrite Htrace, <- app_assoc. reflexivity.
      * reflexivity.
      * by repeat split.
  - unfold acquire, mbind at 1, M_bind at 1, webbrowser_open, emit in Hrun.
    unfold listen_for_callback in Hrun.
    cbn [urandom drawn stdin redirects listened server global_STATE trace snd emit] in Hrun.
    right. eexists. eexists. split; [|split; [|split; [|exact Hrun]]].
    + cbn [trace prelude]. rewrite Htrace, <- app_assoc. reflexivity.
    + by rewrite Hredirects, Hlistened.
    + by repeat split.
Qed.

(** What the second half adds to the trace: nothing, or one request. *)
Lemma exchange_trace client_id code_verifier callback w st r w' :
  global_STATE w = Some st ->
  exchange client_id code_verifier callback w = (r, w') ->
  same_surroundings w w'
  /\ ((w' = w /\ exists e, r = Raise e)
      \/ exists code, trace w' = trace w
            ++ [Post TOKEN_URL (token_request client_id code code_verifier) HEADERS]).
Proof.
  intros Hst Hrun. rewrite (exchange_run _ _ _ _ _ Hst) in Hrun.
  destruct (parse_callback_url callback) as [query_string|e].
  2:{ injection Hrun as <- <-. split; [apply same_surroundings_refl|]. left. eauto. }
  destruct (subscript0 (query_string !! U "code")) as [code|e].
  2:{ injection Hrun as <- <-. split; [apply same_surroundings_refl|]. left. eauto. }
  destruct (subscript0 (query_string !! U "state")) as [state|e].
  2:{ injection Hrun as <- <-. split; [apply same_surroundings_refl|]. left. eauto. }
  destruct (bool_decide (state = st)).
  2:{ injection Hrun as <- <-. split; [apply same_surroundings_refl|]. left. eauto. }
  injection Hrun as <- <-. split; [by repeat split|]. right. by exists code.
Qed.

Lemma not_received_post callback target data headers :
  ~ received callback [Post target data headers].
Proof.
  intros [[prompt Hin]|Hin]; apply list_elem_of_singleton in Hin; discriminate.
Qed.

Lemma received_prelude cli auth_url callback callback' tail :
  (tail = [] \/ exists target data headers, tail = [Post target data headers]) ->
  received callback (prelude cli auth_url callback' ++ tail) -> callback = callback'.
Proof.
  intros Htail Hrec.
  assert (Hpre : received callback (prelude cli auth_url callback')).
  { destruct Htail as [->|(target & data & headers & ->)].
    - by rewrite app_nil_r in Hrec.
    - destruct Hrec as [[prompt Hin]|Hin]; apply elem_of_app in Hin as [Hin|Hin].
      + left. eauto.
      + apply list_elem_of_singleton in Hin. discriminate.
      + by right.
      + apply list_elem_of_singleton in Hin. discriminate. }
  destruct cli; cbn [prelude] in Hpre.
  - destruct Hpre as [[prompt Hin]|Hin];
      repeat (apply elem_of_cons in Hin as [Hin|Hin]; [try discriminate|]);
      try (by apply elem_of_nil in Hin).
    by injection Hin.
  - destruct Hpre as [[prompt Hin]|Hin];
      repeat (apply elem_of_cons in Hin as [Hin|Hin]; [try discriminate|]);
      try (by apply elem_of_nil in Hin).
    by injection Hin.
Qed.

(** A run that read [callback] went on with the second half on it. *)
Lemma get_auth_jwt_received client_id scope callback_url cli w st r w' callback :
  global_STATE w = Some st ->
  get_auth_jwt client_id scope callback_url cli w = (r, w') ->
  received callback (log w w') ->
  exists q w2,
    urlencode (authorization_request client_id scope callback_url
                 (derive_challenge (verifier_of w)) st) = Ok q
    /\ trace w2 = trace w ++ prelude cli (AUTH_URL ++ U "?" ++ q) callback
    /\ same_surroundings w w2
    /\ exchange client_id (verifier_of w) callback w2 = (r, w')
    /\ log w w' = prelude cli (AUTH_URL ++ U "?" ++ q) callback ++ log w2 w'.
Proof.
  intros Hst Hrun Hrec.
  destruct (get_auth_jwt_cases _ _ _ _ _ _ _ _ Hst Hrun)
    as [(e & _ & _ & Hlog & _)|(q & Hq & [(_ & _ & _ & _ & prompt & Hlog)
        |(callback' & w2 & Htrace & _ & Hsame & Hex)])].
  - rewrite Hlog in Hrec. destruct Hrec as [[prompt Hin]|Hin];
      by apply elem_of_nil in Hin.
  - rewrite Hlog in Hrec. destruct Hrec as [[prompt' Hin]|Hin];
      repeat (apply elem_of_cons in Hin as [Hin|Hin]; [discriminate|]);
      by apply elem_of_nil in Hin.
  - assert (Hst2 : global_STATE w2 = Some st) by (by rewrite (proj1 Hsame)).
    destruct (exchange_trace _ _ _ _ _ _ _ Hst2 Hex) as [_ Hcases].
    assert (Hlog : log w w' = prelude cli (AUTH_URL ++ U "?" ++ q) callback'
                              ++ log w2 w'
                   /\ (log w2 w' = [] \/ exists target data headers,
                         log w2 w' = [Post target data headers])).
    { destruct Hcases as [[-> _]|[code Hpost]].
      - rewrite (log_app w2 w2 []) by (by rewrite app_nil_r).
        split; [|by left]. apply log_app. by rewrite Htrace, app_nil_r.
      - rewrite (log_app _ _ _ Hpost). split; [|right; eauto].
        apply log_app. by rewrite Hpost, Htrace, <- app_assoc. }
    destruct Hlog as [Hlog Htail]. rewrite Hlog in Hrec.
    apply received_prelude in Hrec; [|done]. subst callback'.
    exists q, w2. auto.
Qed.

End FlowFacts.

Section FlowClaims.
Context `{Library} `{Const}.

(** [parse_qs] stores no empty list. *)
Lemma parse_qs_add_nonempty m nv :
  (forall k l, m !! k = Some l -> l <> []) ->
  forall k l, parse_qs_add m nv !! k = Some l -> l <> [].
Proof.
  intros Hm k l. unfold parse_qs_add. destruct nv as [name value].
  destruct (m !! name) as [l0|] eqn:Hname.
  - destruct (decide (name = k)) as [->|Hne].
    + rewrite lookup_insert_eq. intros [= <-]. by destruct l0.
    + rewrite lookup_insert_ne by done. apply Hm.
  - destruct (decide (name = k)) as [->|Hne].
    + rewrite lookup_insert_eq. by intros [= <-].
    + rewrite lookup_insert_ne by done. apply Hm.
Qed.

Lemma parse_qs_nonempty qs k l : parse_qs qs !! k = Some l -> l <> [].
Proof.
  unfold parse_qs.
  assert (Hfold : forall pairs (m : gmap (list N) (list (list N))),
    (forall k l, m !! k = Some l -> l <> []) ->
    forall k l, fold_left parse_qs_add pairs m !! k = Some l -> l <> []).
  { induction pairs as [|nv pairs IH]; intros m Hm; [exact Hm|].
    cbn [fold_left]. apply IH. by apply parse_qs_add_nonempty. }
  apply Hfold. intros k' l'. by rewrite lookup_empty.
Qed.

Lemma parse_callback_url_nonempty callback query_string k l :
  parse_callback_url callback = Ok query_string ->
  query_string !! k = Some l -> l <> [].
Proof.
  unfold parse_callback_url, mbind, result_bind.
  destruct (urlparse callback) as [parsed|e]; [|done].
  intros [= <-]. apply parse_qs_nonempty.
Qed.

Lemma parse_callback_url_raises callback e :
  parse_callback_url callback = Raise e <-> urlparse callback = Raise e.
Proof.
  unfold parse_callback_url, mbind, result_bind.
  destruct (urlparse callback); split; congruence.
Qed.

(** A run that sent a request had read a callback with a code and with the
    expected state first, and sent nothing else. *)
Lemma get_auth_jwt_posted client_id scope callback_url cli w st r w'
    target data headers :
  global_STATE w = Some st ->
  get_auth_jwt client_id scope callback_url cli w = (r, w') ->
  Post target data headers ∈ log w w' ->
  exists q callback query_string code codes states,
    urlencode (authorization_request client_id scope callback_url
                 (derive_challenge (verifier_of w)) st) = Ok q
    /\ parse_callback_url callback = Ok query_string
    /\ query_string !! U "code" = Some (code :: codes)
    /\ query_string !! U "state" = Some (st :: states)
    /\ target = TOKEN_URL /\ headers = HEADERS
    /\ data = token_request client_id code (verifier_of w)
    /\ log w w' = prelude cli (AUTH_URL ++ U "?" ++ q) callback
                  ++ [Post target data headers]
    /\ r = (response ← server w {| req_url := target; req_data := data;
                                   req_headers := headers |};
            _ ← raise_for_status response;
            json_loads (content response)).
Proof.
  intros Hst Hrun Hpost.
  destruct (get_auth_jwt_cases _ _ _ _ _ _ _ _ Hst Hrun)
    as [(e & _ & _ & Hlog & _)|(q & Hq & [(_ & _ & _ & _ & prompt & Hlog)
        |(callback & w2 & Htrace & _ & Hsame & Hex)])].
  - rewrite Hlog in Hpost. by apply elem_of_nil in Hpost.
  - rewrite Hlog in Hpost.
    repeat (apply elem_of_cons in Hpost as [Hpost|Hpost]; [discriminate|]).
    by apply elem_of_nil in Hpost.
  - assert (Hst2 : global_STATE w2 = Some st) by (by rewrite (proj1 Hsame)).
    rewrite (exchange_run _ _ _ _ _ Hst2) in Hex.
    assert (Hnone : log w w2 = prelude cli (AUTH_URL ++ U "?" ++ q) callback)
      by (by apply log_app).
    assert (Hno : Post target data headers ∉ log w w2).
    { rewrite Hnone. destruct cli; cbn [prelude]; intros Hin;
        repeat (apply elem_of_cons in Hin as [Hin|Hin]; [discriminate|]);
        by apply elem_of_nil in Hin. }
    destruct (parse_callback_url callback) as [query_string|e] eqn:Hparse;
      [|by injection Hex as <- <-].
    destruct (query_string !! U "code") as [[|code codes]|] eqn:Hcode;
      cbn [subscript0] in Hex; try (by injection Hex as <- <-).
    destruct (query_string !! U "state") as [[|state states]|] eqn:Hstate;
      cbn [subscript0] in Hex; try (by injection Hex as <- <-).
    destruct (bool_decide (state = st)) eqn:Heq; [|by injection Hex as <- <-].
    apply bool_decide_eq_true in Heq. subst state.
    cbn zeta in Hex. injection Hex as Hr Hw'.
    assert (Hlog : log w w'
                   = prelude cli (AUTH_URL ++ U "?" ++ q) callback
                     ++ [Post TOKEN_URL (token_request client_id code (verifier_of w))
                           HEADERS]).
    { apply log_app. rewrite <- Hw'. cbn [emit snd trace].
      by rewrite Htrace, <- app_assoc. }
    rewrite Hlog in Hpost |- *. apply elem_of_app in Hpost as [Hpost|Hpost].
    { by rewrite <- Hnone in Hpost. }
    apply list_elem_of_singleton in Hpost. injection Hpost as -> -> ->.
    exists q, callback, query_string, code, codes, states.
    destruct Hsame as (_ & Hserver & _). rewrite Hserver in Hr.
    repeat (split; [done|]). done.
Qed.

End FlowClaims.

Section FlowTheorems.
Context `{Library} `{Const}.

Lemma no_post_prelude cli auth_url callback :
  no_post (prelude cli auth_url callback).
Proof.
  intros target data headers Hin. destruct cli; cbn [prelude] in Hin;
    repeat (apply elem_of_cons in Hin as [Hin|Hin]; [discriminate|]);
    by apply elem_of_nil in Hin.
Qed.

(** A run whose second half raised before the request sent none. *)
Lemma get_auth_jwt_stopped cli (w w' w2 : world) callback q :
  trace w2 = trace w ++ prelude cli (AUTH_URL ++ U "?" ++ q) callback ->
  w' = w2 ->
  no_post (log w w').
Proof.
  intros Htrace ->. rewrite (log_app _ _ _ Htrace). apply no_post_prelude.
Qed.

(** A first [state] that is not the expected token stops the flow. *)
Lemma mismatch_stops client_id scope callback_url cli w st r w'
    callback query_string state others :
  global_STATE w = Some st ->
  get_auth_jwt client_id scope callback_url cli w = (r, w') ->
  received callback (log w w') ->
  parse_callback_url callback = Ok query_string ->
  query_string !! U "state" = Some (state :: others) ->
  state <> st ->
  no_post (log w w')
  /\ (exists e, r = Raise e)
  /\ (forall code codes, query_string !! U "code" = Some (code :: codes) ->
        r = Raise (ValueError (U "Did not receive expected state"))).
Proof.
  intros Hst Hrun Hrec Hparse Hstate Hne.
  destruct (get_auth_jwt_received _ _ _ _ _ _ _ _ _ Hst Hrun Hrec)
    as (q & w2 & Hq & Htrace & Hsame & Hex & Hlog).
  assert (Hst2 : global_STATE w2 = Some st) by (by rewrite (proj1 Hsame)).
  rewrite (exchange_run _ _ _ _ _ Hst2), Hparse, Hstate in Hex.
  cbn [subscript0] in Hex.
  rewrite bool_decide_eq_false_2 in Hex by done.
  destruct (subscript0 (query_string !! U "code")) as [code|e] eqn:Hcode;
    injection Hex as <- <-.
  - split; [by eapply get_auth_jwt_stopped|]. split; [eauto|done].
  - split; [by eapply get_auth_jwt_stopped|]. split; [eauto|].
    intros code codes Hsome. rewrite Hsome in Hcode. discriminate.
Qed.

(** C1, amended. When the redirect URL that the flow read carries a first
    [state] value different from the expected token, no request is sent to
    the token endpoint and the flow raises; when the URL also carries a
    [code], the flow raises the state-mismatch error,
    [ValueError('Did not receive expected state')]. *)
Theorem state_mismatch_rejected client_id scope callback_url cli w st r w'
    callback query_string state others :
  global_STATE w = Some st ->
  get_auth_jwt client_id scope callback_url cli w = (r, w') ->
  received callback (log w w') ->
  parse_callback_url callback = Ok query_string ->
  query_string !! U "state" = Some (state :: others) ->
  state <> st ->
  no_post (log w w')
  /\ (exists e, r = Raise e)
  /\ (forall code codes, query_string !! U "code" = Some (code :: codes) ->
        r = Raise (ValueError (U "Did not receive expected state"))).
Proof. apply mismatch_stops. Qed.

(** C8. When the redirect URL that the flow read cannot be parsed, or its
    query has no [code] or no [state], the flow fails before any request is
    sent: with the exception [urlparse] raised in the first case, with the
    [TypeError] of subscripting the missing value in the second. *)
Theorem malformed_callback_fails client_id scope callback_url cli w st r w' callback :
  global_STATE w = Some st ->
  get_auth_jwt client_id scope callback_url cli w = (r, w') ->
  received callback (log w w') ->
  (forall e, urlparse callback = Raise e ->
     r = Raise e /\ no_post (log w w'))
  /\ (forall query_string,
        parse_callback_url callback = Ok query_string ->
        query_string !! U "code" = None \/ query_string !! U "state" = None ->
        r = Raise (TypeError (U "'NoneType' object is not subscriptable"))
        /\ no_post (log w w')).
Proof.
  intros Hst Hrun Hrec.
  destruct (get_auth_jwt_received _ _ _ _ _ _ _ _ _ Hst Hrun Hrec)
    as (q & w2 & Hq & Htrace & Hsame & Hex & Hlog).
  assert (Hst2 : global_STATE w2 = Some st) by (by rewrite (proj1 Hsame)).
  rewrite (exchange_run _ _ _ _ _ Hst2) in Hex.
  split.
  - intros e Hraise. apply parse_callback_url_raises in Hraise.
    rewrite Hraise in Hex. injection Hex as <- <-.
    split; [done|by eapply get_auth_jwt_stopped].
  - intros query_string Hparse Hmissing. rewrite Hparse in Hex.
    destruct (query_string !! U "code") as [[|code codes]|] eqn:Hcode.
    + by apply (parse_callback_url_nonempty _ _ _ _ Hparse) in Hcode.
    + destruct Hmissing as [?|Hstate]; [done|].
      rewrite Hstate in Hex. cbn [subscript0] in Hex. injection Hex as <- <-.
      split; [done|by eapply get_auth_jwt_stopped].
    + cbn [subscript0] in Hex. injection Hex as <- <-.
      split; [done|by eapply get_auth_jwt_stopped].
Qed.

(** [raise_for_status] on a status from 400 to 599. *)
Lemma raise_for_status_failure response :
  (400 <= status_code response < 600)%Z ->
  exists msg, raise_for_status response = Raise (HTTPError msg response).
Proof.
  intros Hstatus. unfold raise_for_status.
  destruct ((400 <=? status_code response) && (status_code response <? 500))%Z eqn:H4.
  - destruct (str_of_Z (status_code response) ++ _) eqn:Hmsg; [|eauto].
    apply app_eq_nil in Hmsg as [_ Hmsg]. discriminate.
  - assert (H5 : ((500 <=? status_code response) && (status_code response <? 600))%Z = true).
    { apply andb_false_iff in H4. apply andb_true_iff. lia. }
    rewrite H5.
    destruct (str_of_Z (status_code response) ++ _) eqn:Hmsg; [|eauto].
    apply app_eq_nil in Hmsg as [_ Hmsg]. discriminate.
Qed.

(** C9. When the token endpoint answers the request of the flow with a
    status from 400 to 599, the flow raises the error of
    [raise_for_status], which carries the response, with its status and its
    body; no token is returned. *)
Theorem token_exchange_failure client_id scope callback_url cli w st r w'
    target data headers response :
  global_STATE w = Some st ->
  get_auth_jwt client_id scope callback_url cli w = (r, w') ->
  Post target data headers ∈ log w w' ->
  server w {| req_url := target; req_data := data; req_headers := headers |}
    = Ok response ->
  (400 <= status_code response < 600)%Z ->
  exists msg, r = Raise (HTTPError msg response)
    /\ (forall jwt, r <> Ok jwt).
Proof.
  intros Hst Hrun Hpost Hserver Hstatus.
  destruct (get_auth_jwt_posted _ _ _ _ _ _ _ _ _ _ _ Hst Hrun Hpost)
    as (q & callback & query_string & code & codes & states & _ & _ & _ & _
        & _ & _ & _ & _ & Hr).
  rewrite Hserver in Hr. unfold mbind, result_bind in Hr.
  destruct (raise_for_status_failure response Hstatus) as [msg Hraise].
  rewrite Hraise in Hr. exists msg. split; [done|]. by rewrite Hr.
Qed.

(** C10. Of the values of [code] and of [state] in the redirect URL the
    flow uses the first only: when the first [state] is the expected token
    the request is sent, with the first [code], whatever values follow;
    when it is not, the flow raises the state-mismatch error, also if the
    expected token is among the values that follow. *)
Theorem first_values_only client_id scope callback_url cli w st r w'
    callback query_string code codes state states :
  global_STATE w = Some st ->
  get_auth_jwt client_id scope callback_url cli w = (r, w') ->
  received callback (log w w') ->
  parse_callback_url callback = Ok query_string ->
  query_string !! U "code" = Some (code :: codes) ->
  query_string !! U "state" = Some (state :: states) ->
  (state = st ->
     Post TOKEN_URL (token_request client_id code (verifier_of w)) HEADERS ∈ log w w'
     /\ forall target data headers, Post target data headers ∈ log w w' ->
          data = token_request client_id code (verifier_of w))
  /\ (state <> st ->
        r = Raise (ValueError (U "Did not receive expected state"))
        /\ no_post (log w w')).
Proof.
  intros Hst Hrun Hrec Hparse Hcode Hstate.
  destruct (get_auth_jwt_received _ _ _ _ _ _ _ _ _ Hst Hrun Hrec)
    as (q & w2 & Hq & Htrace & Hsame & Hex & Hlog).
  assert (Hst2 : global_STATE w2 = Some st) by (by rewrite (proj1 Hsame)).
  rewrite (exchange_run _ _ _ _ _ Hst2), Hparse, Hcode, Hstate in Hex.
  cbn [subscript0] in Hex. split.
  - intros ->. rewrite bool_decide_eq_true_2 in Hex by done.
    cbn zeta in Hex. injection Hex as Hr Hw'.
    assert (Hlog2 : log w2 w' = [Post TOKEN_URL
              (token_request client_id code (verifier_of w)) HEADERS]).
    { apply log_app. by rewrite <- Hw'. }
    rewrite Hlog, Hlog2. split.
    + apply elem_of_app. right. by apply list_elem_of_singleton.
    + intros target data headers [Hin|Hin]%elem_of_app.
      * by apply no_post_prelude in Hin.
      * apply list_elem_of_singleton in Hin. by injection Hin.
  - intros Hne. rewrite bool_decide_eq_false_2 in Hex by done.
    injection Hex as <- <-. split; [done|by eapply get_auth_jwt_stopped].
Qed.

End FlowTheorems.

(** ** UTF-8 *)

Lemma ord_chr n : n < 256 -> ord (chr n) = n.
Proof. intros Hn. unfold ord, chr. by apply N_ascii_embedding. Qed.

Lemma ord_bound c : ord c < 256.
Proof. apply N_ascii_bounded. Qed.

(** The decoder on a well-formed character of one to four bytes. *)
Lemma utf8_scan_1 b1 rest :
  ord b1 < 0x80 -> utf8_scan (b1 :: rest) = Some (ord b1) :: utf8_scan rest.
Proof.
  intros H1. cbn [utf8_scan].
  by destruct (N.ltb_spec (ord b1) 0x80); [|lia].
Qed.

Lemma utf8_scan_2 b1 b2 rest :
  0xC2 <= ord b1 < 0xE0 -> is_continuation b2 = true ->
  utf8_scan (b1 :: b2 :: rest)
  = Some ((ord b1 - 0xC0) * 64 + low6 b2) :: utf8_scan rest.
Proof.
  intros H1 H2. cbn [utf8_scan]. rewrite H2.
  destruct (N.ltb_spec (ord b1) 0x80); [lia|].
  destruct (N.ltb_spec (ord b1) 0xC2); [lia|].
  by destruct (N.ltb_spec (ord b1) 0xE0); [|lia].
Qed.

Lemma utf8_scan_3 b1 b2 b3 rest :
  0xE0 <= ord b1 < 0xF0 ->
  is_continuation b2 = true -> is_continuation b3 = true ->
  (ord b1 = 0xE0 -> 0xA0 <= ord b2) -> (ord b1 = 0xED -> ord b2 < 0xA0) ->
  utf8_scan (b1 :: b2 :: b3 :: rest)
  = Some ((ord b1 - 0xE0) * 4096 + low6 b2 * 64 + low6 b3) :: utf8_scan rest.
Proof.
  intros H1 H2 H3 Hlow Hhigh. cbn [utf8_scan]. rewrite H2, H3. cbn [negb orb].
  destruct (N.ltb_spec (ord b1) 0x80); [lia|].
  destruct (N.ltb_spec (ord b1) 0xC2); [lia|].
  destruct (N.ltb_spec (ord b1) 0xE0); [lia|].
  destruct (N.ltb_spec (ord b1) 0xF0); [|lia].
  destruct (N.ltb_spec (ord b2) 0xA0).
  - destruct (N.eqb_spec (ord b1) 0xE0); [|done]. apply Hlow in e. lia.
  - destruct (N.eqb_spec (ord b1) 0xED); [|done]. apply Hhigh in e. lia.
Qed.

Lemma utf8_scan_4 b1 b2 b3 b4 rest :
  0xF0 <= ord b1 < 0xF5 ->
  is_continuation b2 = true -> is_continuation b3 = true ->
  is_continuation b4 = true ->
  (ord b1 = 0xF0 -> 0x90 <= ord b2) -> (ord b1 = 0xF4 -> ord b2 < 0x90) ->
  utf8_scan (b1 :: b2 :: b3 :: b4 :: rest)
  = Some ((ord b1 - 0xF0) * 262144 + low6 b2 * 4096 + low6 b3 * 64 + low6 b4)
    :: utf8_scan rest.
Proof.
  intros H1 H2 H3 H4 Hlow Hhigh. cbn [utf8_scan]. rewrite H2, H3, H4.
  cbn [negb orb].
  destruct (N.ltb_spec (ord b1) 0x80); [lia|].
  destruct (N.ltb_spec (ord b1) 0xC2); [lia|].
  destruct (N.ltb_spec (ord b1) 0xE0); [lia|].
  destruct (N.ltb_spec (ord b1) 0xF0); [lia|].
  destruct (N.ltb_spec (ord b1) 0xF5); [|lia].
  destruct (N.ltb_spec (ord b2) 0x90).
  - destruct (N.eqb_spec (ord b1) 0xF0); [|done]. apply Hlow in e. lia.
  - destruct (N.eqb_spec (ord b1) 0xF4); [|done]. apply Hhigh in e. lia.
Qed.

Lemma is_continuation_chr n :
  n < 64 -> is_continuation (chr (0x80 + n)) = true /\ low6 (chr (0x80 + n)) = n.
Proof.
  intros Hn. unfold is_continuation, low6. rewrite ord_chr by lia.
  split; [|lia]. apply andb_true_iff. split; [apply N.leb_le|apply N.ltb_lt]; lia.
Qed.

Lemma encodable_spec c :
  encodable c = true <-> c < 0x110000 /\ ~ (0xD800 <= c < 0xE000).
Proof.
  unfold encodable, is_surrogate.
  rewrite andb_true_iff, negb_true_iff, andb_false_iff.
  rewrite N.ltb_lt, N.leb_gt, N.ltb_ge. lia.
Qed.

(** Decoding the encoding of one character. *)
Lemma utf8_scan_encode_char c rest :
  encodable c = true ->
  utf8_scan (utf8_encode_char c ++ rest) = Some c :: utf8_scan rest.
Proof.
  intros [Hmax Hsur]%encodable_spec. unfold utf8_encode_char.
  destruct (N.ltb_spec c 0x80) as [H1|H1].
  { cbn [app]. rewrite utf8_scan_1; rewrite ord_chr by lia; [done|lia]. }
  destruct (N.ltb_spec c 0x800) as [H2|H2].
  { cbn [app].
    assert (Hq : c / 64 < 32) by (apply N.Div0.div_lt_upper_bound; lia).
    assert (Hq' : 2 <= c / 64) by (apply N.div_le_lower_bound; lia).
    assert (Hr : c mod 64 < 64) by (apply N.mod_lt; lia).
    destruct (is_continuation_chr (c mod 64) Hr) as [Hc Hl].
    rewrite utf8_scan_2; rewrite ?ord_chr by lia; [|lia|done].
    rewrite Hl. f_equal. f_equal.
    pose proof (N.div_mod c 64). lia. }
  destruct (N.ltb_spec c 0x10000) as [H3|H3].
  { cbn [app].
    assert (Hq : c / 4096 < 16) by (apply N.Div0.div_lt_upper_bound; lia).
    assert (Hr1 : c / 64 mod 64 < 64) by (apply N.mod_lt; lia).
    assert (Hr : c mod 64 < 64) by (apply N.mod_lt; lia).
    destruct (is_continuation_chr (c mod 64) Hr) as [Hc Hl].
    destruct (is_continuation_chr (c / 64 mod 64) Hr1) as [Hc1 Hl1].
    pose proof (N.div_mod c 64) as Hd1. pose proof (N.div_mod (c / 64) 64) as Hd2.
    assert (Hdd : c / 64 / 64 = c / 4096) by (by rewrite N.Div0.div_div).
    rewrite utf8_scan_3; rewrite ?ord_chr by lia; try done; try lia.
    rewrite Hl, Hl1. f_equal. f_equal. lia. }
  cbn [app].
  assert (Hq : c / 262144 < 5) by (apply N.Div0.div_lt_upper_bound; lia).
  assert (Hr2 : c / 4096 mod 64 < 64) by (apply N.mod_lt; lia).
  assert (Hr1 : c / 64 mod 64 < 64) by (apply N.mod_lt; lia).
  assert (Hr : c mod 64 < 64) by (apply N.mod_lt; lia).
  destruct (is_continuation_chr (c mod 64) Hr) as [Hc Hl].
  destruct (is_continuation_chr (c / 64 mod 64) Hr1) as [Hc1 Hl1].
  destruct (is_continuation_chr (c / 4096 mod 64) Hr2) as [Hc2 Hl2].
  pose proof (N.div_mod c 64) as Hd1. pose proof (N.div_mod (c / 64) 64) as Hd2.
  pose proof (N.div_mod (c / 4096) 64) as Hd3.
  assert (Hdd : c / 64 / 64 = c / 4096) by (by rewrite N.Div0.div_div).
  assert (Hddd : c / 4096 / 64 = c / 262144) by (by rewrite N.Div0.div_div).
  rewrite utf8_scan_4; rewrite ?ord_chr by lia; try done; try lia.
  rewrite Hl, Hl1, Hl2. f_equal. f_equal. lia.
Qed.

Lemma utf8_encode_ok s :
  forallb encodable s = true -> utf8_encode s = Ok (flat_map utf8_encode_char s).
Proof.
  induction s as [|c s IH]; [done|].
  cbn [forallb]. intros [Hc Hs]%andb_true_iff.
  cbn [utf8_encode flat_map]. rewrite Hc, (IH Hs). reflexivity.
Qed.

Lemma utf8_decode_encode s :
  forallb encodable s = true -> utf8_decode (flat_map utf8_encode_char s) = s.
Proof.
  induction s as [|c s IH]; [done|].
  cbn [forallb]. intros [Hc Hs]%andb_true_iff.
  cbn [flat_map]. unfold utf8_decode in *.
  rewrite (utf8_scan_encode_char _ _ Hc). cbn [map]. by rewrite (IH Hs).
Qed.

(** ** Quoting and unquoting *)

Section SequenceFacts.
Context {A : Type} `{EqDecision A}.

Lemma split_nonempty (sep : A) s : split sep s <> [].
Proof.
  destruct s as [|x s]; cbn [split]; [done|].
  destruct (decide (x = sep)); [done|]. by destruct (split sep s).
Qed.

Lemma split_cons_ne (sep c : A) s :
  c <> sep ->
  exists w ws, split sep s = w :: ws /\ split sep (c :: s) = (c :: w) :: ws.
Proof.
  intros Hne. cbn [split]. rewrite decide_False by done.
  destruct (split sep s) as [|w ws] eqn:Hs.
  - by apply split_nonempty in Hs.
  - by exists w, ws.
Qed.

Lemma split_single (sep : A) s w : split sep s = [w] -> w = s.
Proof.
  revert w. induction s as [|c s IH]; intros w; cbn [split].
  - by intros [= <-].
  - destruct (decide (c = sep)).
    { intros [= <- Hs]. by apply split_nonempty in Hs. }
    destruct (split sep s) as [|w' ws] eqn:Hs; [by apply split_nonempty in Hs|].
    intros [= <- ->]. by rewrite (IH w').
Qed.

Lemma lstrip_nil (chars l : list A) :
  lstrip chars l = [] -> forallb (fun c => contains c chars) l = true.
Proof.
  induction l as [|c l IH]; [done|]. cbn [lstrip forallb].
  destruct (contains c chars); [|done]. intros Hl. by rewrite IH.
Qed.

Lemma rstrip_nil (chars l : list A) :
  rstrip chars l = [] -> forallb (fun c => contains c chars) l = true.
Proof.
  unfold rstrip. intros Hl.
  assert (Hrev : lstrip chars (rev l) = []).
  { by rewrite <- (rev_involutive (lstrip chars (rev l))), Hl. }
  apply lstrip_nil in Hrev. rewrite forallb_forall in Hrev |- *.
  intros x Hx. apply Hrev. by apply in_rev in Hx.
Qed.

Lemma replace_flat_map {C} (old : A) (new : list A) (f : C -> list A) l :
  replace old new (flat_map f l) = flat_map (fun x => replace old new (f x)) l.
Proof.
  unfold replace. induction l as [|x l IH]; [done|].
  cbn [flat_map]. by rewrite flat_map_app, IH.
Qed.

Lemma replace_absent (old : A) (new : list A) s :
  contains old s = false -> replace old new s = s.
Proof.
  unfold contains, replace. intros Hs%bool_decide_eq_false.
  induction s as [|c s IH]; [done|]. cbn [flat_map].
  rewrite decide_False.
  - cbn [app]. f_equal. apply IH. intros Hin. apply Hs. by right.
  - intros ->. apply Hs. by left.
Qed.

End SequenceFacts.

Lemma flat_map_quoter_safe safe (l : list ascii) :
  forallb (fun c => contains c (_ALWAYS_SAFE_BYTES ++ safe)) l = true ->
  flat_map (quoter safe) l = map ord l.
Proof.
  induction l as [|x l IH]; [done|].
  cbn [forallb]. intros [Hx Hl]%andb_true_iff.
  cbn [map flat_map]. rewrite (IH Hl). unfold quoter. by rewrite Hx.
Qed.

Lemma quote_from_bytes_each bs safe :
  quote_from_bytes bs safe = flat_map (quoter safe) bs.
Proof.
  unfold quote_from_bytes. destruct bs as [|c bs]; [done|].
  destruct (rstrip _ (c :: bs)) eqn:Hstrip; [|done].
  apply rstrip_nil in Hstrip. by rewrite flat_map_quoter_safe.
Qed.

Lemma quote_VStr s safe :
  forallb encodable s = true ->
  quote (VStr s) safe = Ok (flat_map (quoter safe) (flat_map utf8_encode_char s)).
Proof.
  intros Hs. unfold quote. destruct s as [|c s]; [done|].
  rewrite (utf8_encode_ok _ Hs). unfold mbind, result_bind.
  by rewrite quote_from_bytes_each.
Qed.

(** What [unquote_to_bytes] does at a plain character and at an escape. *)
Lemma unquote_to_bytes_split s w ws :
  split "%"%char s = w :: ws ->
  unquote_to_bytes s = w ++ concat (map unquote_item ws).
Proof.
  intros Hs. unfold unquote_to_bytes. rewrite Hs.
  destruct ws as [|w' ws]; [|done].
  apply split_single in Hs. subst w. by rewrite app_nil_r.
Qed.

Lemma unquote_to_bytes_plain c s :
  c <> "%"%char -> unquote_to_bytes (c :: s) = c :: unquote_to_bytes s.
Proof.
  intros Hc. destruct (split_cons_ne "%"%char c s Hc) as (w & ws & Hs & Hcs).
  by rewrite (unquote_to_bytes_split _ _ _ Hs), (unquote_to_bytes_split _ _ _ Hcs).
Qed.

Lemma unquote_to_bytes_escape h1 h2 x s :
  _hextobyte h1 h2 = Some x -> h1 <> "%"%char -> h2 <> "%"%char ->
  unquote_to_bytes ("%"%char :: h1 :: h2 :: s) = x :: unquote_to_bytes s.
Proof.
  intros Hx H1 H2.
  destruct (split_cons_ne "%"%char h2 s H2) as (w & ws & Hs & Hs2).
  destruct (split_cons_ne "%"%char h1 (h2 :: s) H1) as (w1 & ws1 & Hs1 & Hs12).
  rewrite Hs2 in Hs1. injection Hs1 as <- <-.
  assert (Hall : split "%"%char ("%"%char :: h1 :: h2 :: s)
                 = [] :: (h1 :: h2 :: w) :: ws).
  { change (split "%"%char ("%"%char :: h1 :: h2 :: s))
      with ([] :: split "%"%char (h1 :: h2 :: s)). by rewrite Hs12. }
  rewrite (unquote_to_bytes_split _ _ _ Hall), (unquote_to_bytes_split _ _ _ Hs).
  cbn [map concat app unquote_item]. by rewrite Hx.
Qed.

(** A quoted byte is the byte itself or its escape. *)
Lemma quoter_plain_or_escape safe c :
  safe = [] \/ safe = B " " ->
  (map chr (quoter safe c) = [c] /\ c <> "%"%char)
  \/ (map chr (quoter safe c) = map chr (percent c)
      /\ _hextobyte (chr (nth 1 (percent c) 0)) (chr (nth 2 (percent c) 0)) = Some c
      /\ chr (nth 1 (percent c) 0) <> "%"%char
      /\ chr (nth 2 (percent c) 0) <> "%"%char).
Proof. intros [->| ->]; revert c; each_char. Qed.

Lemma quoter_cases safe c :
  safe = [] \/ safe = B " " ->
  (map chr (quoter safe c) = [c] /\ c <> "%"%char)
  \/ (exists h1 h2, map chr (quoter safe c) = ["%"%char; h1; h2]
        /\ _hextobyte h1 h2 = Some c /\ h1 <> "%"%char /\ h2 <> "%"%char).
Proof.
  intros Hsafe.
  destruct (quoter_plain_or_escape safe c Hsafe) as [?|(Heq & Hx & H1 & H2)]; [by left|].
  right. exists (chr (nth 1 (percent c) 0)), (chr (nth 2 (percent c) 0)).
  by rewrite Heq.
Qed.

Lemma unquote_to_bytes_quoter safe bs :
  safe = [] \/ safe = B " " ->
  unquote_to_bytes (map chr (flat_map (quoter safe) bs)) = bs.
Proof.
  intros Hsafe. induction bs as [|c bs IH]; [done|].
  cbn [flat_map]. rewrite map_app.
  destruct (quoter_cases safe c Hsafe) as [[-> Hc]|(h1 & h2 & -> & Hx & H1 & H2)].
  - cbn [app]. by rewrite unquote_to_bytes_plain, IH.
  - cbn [app]. by rewrite (unquote_to_bytes_escape _ _ _ _ Hx H1 H2), IH.
Qed.

(** The characters of a quoted byte, and the exchange of [" "] and ["+"]. *)
Lemma quoter_chars safe c :
  safe = [] \/ safe = B " " ->
  forallb is_quoted (replace (ord " ") (U "+") (quoter safe c)) = true
  /\ replace (ord "+") (U " ") (replace (ord " ") (U "+") (quoter (B " ") c))
     = quoter (B " ") c
  /\ replace (ord "+") (U " ") (quoter [] c) = quoter [] c
  /\ forallb (fun x => x <? 0x80) (quoter safe c) = true
  /\ quoter safe c <> []
  /\ replace (ord " ") (U "+") (quoter safe c) <> []
  /\ forallb is_quoted (quoter [] c) = true.
Proof. intros [->| ->]; revert c; each_char. Qed.

(** [unquote] on 7-bit text is percent-decoding followed by UTF-8
    decoding. *)
Lemma _asciire_split_7bit s :
  s <> [] -> isascii s = true -> _asciire_split s = [[]; s; []].
Proof.
  induction s as [|c s IH]; [done|]. intros _.
  cbn [isascii forallb]. intros [Hc Hs]%andb_true_iff.
  cbn [_asciire_split]. rewrite Hc.
  destruct s as [|c' s]; [done|].
  fold (isascii (c' :: s)) in Hs. by rewrite IH.
Qed.

Lemma chr_7bit_not_percent c :
  (c <? 0x80) = true -> c <> ord "%" -> chr c <> "%"%char.
Proof.
  intros Hc%N.ltb_lt Hne Heq. apply Hne.
  rewrite <- (ord_chr c) by lia. by rewrite Heq.
Qed.

Lemma unquote_to_bytes_no_percent s :
  isascii s = true -> contains (ord "%") s = false ->
  unquote_to_bytes (map chr s) = map chr s.
Proof.
  induction s as [|c s IH]; [done|].
  cbn [isascii forallb]. intros [Hc Hs]%andb_true_iff.
  unfold contains. intros Hno%bool_decide_eq_false.
  cbn [map]. rewrite unquote_to_bytes_plain.
  - rewrite IH; [done|done|]. apply bool_decide_eq_false.
    intros Hin. apply Hno. by right.
  - apply chr_7bit_not_percent; [done|]. intros ->. apply Hno. by left.
Qed.

Lemma utf8_decode_7bit s : isascii s = true -> utf8_decode (map chr s) = s.
Proof.
  intros Hs. unfold utf8_decode. rewrite utf8_scan_7bit.
  - rewrite !map_map. rewrite <- (map_id s) at 2. apply map_ext_in.
    intros c Hc. unfold isascii in Hs. rewrite forallb_forall in Hs.
    apply Hs, N.ltb_lt in Hc. rewrite ord_chr; [done|lia].
  - rewrite forallb_forall. intros x (c & <- & Hc)%in_map_iff.
    unfold isascii in Hs. rewrite forallb_forall in Hs.
    pose proof (Hs c Hc) as Hlt. apply N.ltb_lt in Hlt.
    rewrite ord_chr by lia. by apply N.ltb_lt.
Qed.

Lemma unquote_7bit s :
  isascii s = true -> unquote s = utf8_decode (unquote_to_bytes (map chr s)).
Proof.
  intros Hs. unfold unquote.
  destruct (contains (ord "%") s) eqn:Hpercent; cbn [negb].
  - assert (Hne : s <> []) by (by intros ->).
    rewrite (_asciire_split_7bit s Hne Hs). cbn [unquote_bits app].
    by rewrite app_nil_r.
  - by rewrite unquote_to_bytes_no_percent, utf8_decode_7bit.
Qed.

(** [quote_plus] followed by the unquoting of [parse_qsl] gives the text
    back; the quoted text is made of unreserved characters, ["%"] and
    ["+"], and is empty only for the empty text. *)
Lemma flat_map_forallb {X Y} (f : X -> list Y) (p : Y -> bool) l :
  (forall x, forallb p (f x) = true) -> forallb p (flat_map f l) = true.
Proof.
  intros Hf. induction l as [|x l IH]; [done|].
  cbn [flat_map]. by rewrite forallb_app, Hf, IH.
Qed.

Lemma flat_map_nonempty {X Y} (f : X -> list Y) l :
  (forall x, f x <> []) -> l <> [] -> flat_map f l <> [].
Proof.
  intros Hf Hl. destruct l as [|x l]; [done|]. cbn [flat_map].
  intros [Hx _]%app_eq_nil. by apply Hf in Hx.
Qed.

Lemma utf8_encode_char_nonempty c : utf8_encode_char c <> [].
Proof.
  unfold utf8_encode_char.
  by destruct (c <? 0x80), (c <? 0x800), (c <? 0x10000).
Qed.

Lemma quote_plus_unquote s :
  forallb encodable s = true ->
  exists t, quote_plus (VStr s) [] = Ok t
    /\ unquote (replace (ord "+") (U " ") t) = s
    /\ forallb is_quoted t = true
    /\ (s <> [] -> t <> []).
Proof.
  intros Hs. unfold quote_plus.
  set (bs := flat_map utf8_encode_char s).
  assert (Hback : forall safe, safe = [] \/ safe = B " " ->
    unquote (flat_map (quoter safe) bs) = s).
  { intros safe Hsafe. rewrite unquote_7bit.
    - rewrite unquote_to_bytes_quoter by done. by apply utf8_decode_encode.
    - apply flat_map_forallb. intros c. by apply quoter_chars. }
  assert (Hne : forall safe, safe = [] \/ safe = B " " ->
    s <> [] -> flat_map (quoter safe) bs <> []).
  { intros safe Hsafe Hnil. apply flat_map_nonempty.
    - intros c. by apply quoter_chars.
    - apply flat_map_nonempty; [apply utf8_encode_char_nonempty|done]. }
  destruct (has_space (VStr s)); cbn [negb].
  - rewrite (quote_VStr s ([] ++ B " ") Hs). unfold mbind, result_bind.
    eexists. split; [reflexivity|]. fold bs. cbn [app]. split; [|split].
    + rewrite !replace_flat_map.
      rewrite (flat_map_ext _ (quoter (B " "))).
      * apply Hback. by right.
      * intros c. apply (quoter_chars (B " ")). by right.
    + rewrite replace_flat_map. apply flat_map_forallb.
      intros c. apply (quoter_chars (B " ")). by right.
    + intros Hnil. rewrite replace_flat_map. apply flat_map_nonempty.
      * intros c. apply (quoter_chars (B " ")). by right.
      * apply flat_map_nonempty; [apply utf8_encode_char_nonempty|done].
  - rewrite (quote_VStr s [] Hs). eexists. split; [reflexivity|].
    fold bs. split; [|split].
    + rewrite replace_flat_map. rewrite (flat_map_ext _ (quoter [])).
      * apply Hback. by left.
      * intros c. apply (quoter_chars [] c). by left.
    + apply flat_map_forallb. intros c. apply (quoter_chars [] c). by left.
    + apply Hne. by left.
Qed.

(** ** Queries *)

Section SplitFacts.
Context {A : Type} `{EqDecision A}.

Lemma split_absent (sep : A) s : sep ∉ s -> split sep s = [s].
Proof.
  induction s as [|c s IH]; [done|]. intros Hs.
  cbn [split]. rewrite decide_False by (intros ->; apply Hs; by left).
  rewrite IH; [done|]. intros Hin. apply Hs. by right.
Qed.

Lemma split_app_sep (sep : A) x rest :
  sep ∉ x -> split sep (x ++ sep :: rest) = x :: split sep rest.
Proof.
  induction x as [|c x IH]; intros Hx.
  - cbn [app split]. by rewrite decide_True.
  - cbn [app split]. rewrite decide_False by (intros ->; apply Hx; by left).
    rewrite IH; [done|]. intros Hin. apply Hx. by right.
Qed.

Lemma split_join (sep : A) (fields : list (list A)) :
  fields <> [] -> Forall (fun x => sep ∉ x) fields ->
  split sep (join [sep] fields) = fields.
Proof.
  induction fields as [|x fields IH]; [done|]. intros _ Hall.
  apply Forall_cons in Hall as [Hx Hall].
  destruct fields as [|y fields].
  - cbn [join]. by apply split_absent.
  - change (join [sep] (x :: y :: fields)) with (x ++ sep :: join [sep] (y :: fields)).
    rewrite split_app_sep by done. by rewrite IH.
Qed.

Lemma split1_app_sep (sep : A) x rest :
  sep ∉ x -> split1 sep (x ++ sep :: rest) = [x; rest].
Proof.
  induction x as [|c x IH]; intros Hx.
  - cbn [app split1]. by rewrite decide_True.
  - cbn [app split1]. rewrite decide_False by (intros ->; apply Hx; by left).
    rewrite IH; [done|]. intros Hin. apply Hx. by right.
Qed.

Lemma partition_absent (sep : A) s : sep ∉ s -> partition sep s = (s, false, []).
Proof.
  induction s as [|c s IH]; [done|]. intros Hs.
  cbn [partition]. rewrite decide_False by (intros ->; apply Hs; by left).
  rewrite IH; [done|]. intros Hin. apply Hs. by right.
Qed.

Lemma partition_app_sep (sep : A) x rest :
  sep ∉ x -> partition sep (x ++ sep :: rest) = (x, true, rest).
Proof.
  induction x as [|c x IH]; intros Hx.
  - cbn [app partition]. by rewrite decide_True.
  - cbn [app partition]. rewrite decide_False by (intros ->; apply Hx; by left).
    rewrite IH; [done|]. intros Hin. apply Hx. by right.
Qed.

Lemma partition_found (sep : A) s x y :
  partition sep s = (x, true, y) -> s = x ++ sep :: y /\ sep ∉ x.
Proof.
  revert x. induction s as [|c s IH]; intros x; [done|].
  cbn [partition]. destruct (decide (c = sep)) as [->|Hne].
  - intros [= <- <-]. split; [done|]. apply not_elem_of_nil.
  - destruct (partition sep s) as [[x' found] y'] eqn:Hs.
    intros [= <- -> <-]. destruct (IH x' eq_refl) as [-> Hx'].
    split; [done|]. intros [?|?]%elem_of_cons; congruence.
Qed.

Lemma partition_not_found (sep : A) s x y :
  partition sep s = (x, false, y) -> sep ∉ s.
Proof.
  revert x. induction s as [|c s IH]; intros x; [intros _; apply not_elem_of_nil|].
  cbn [partition]. destruct (decide (c = sep)) as [->|Hne]; [done|].
  destruct (partition sep s) as [[x' found] y'] eqn:Hs.
  intros [= <- -> <-]. intros [?|?]%elem_of_cons; [congruence|].
  by eapply IH.
Qed.

Lemma lstrip_app_stop (chars a : list A) x rest :
  contains x chars = false ->
  lstrip chars (a ++ x :: rest) = lstrip chars a ++ x :: rest.
Proof.
  intros Hx. induction a as [|c a IH].
  - cbn [app lstrip]. by rewrite Hx.
  - cbn [app lstrip]. by destruct (contains c chars).
Qed.

Lemma span_app_stop (p : A -> bool) a x rest n r :
  p x = false -> span p a = (n, r) ->
  span p (a ++ x :: rest) = (n, r ++ x :: rest).
Proof.
  intros Hx. revert n r. induction a as [|c a IH]; intros n r.
  - cbn [span app]. rewrite Hx. by intros [= <- <-].
  - cbn [span app]. destruct (p c); [|by intros [= <- <-]].
    destruct (span p a) as [n' r'] eqn:Ha. intros [= <- <-].
    by rewrite (IH n' r' eq_refl).
Qed.

Lemma replace_app (old : A) new a c : replace old new (a ++ c) = replace old new a ++ replace old new c.
Proof. unfold replace. apply flat_map_app. Qed.

(** Parts of a text hold only characters of the text. *)
Lemma lstrip_Forall (P : A -> Prop) chars s : Forall P s -> Forall P (lstrip chars s).
Proof.
  induction s as [|c s IH]; [done|]. intros Hs. cbn [lstrip].
  destruct (contains c chars); [|done]. apply IH. by apply Forall_cons in Hs as [_ Hs].
Qed.

Lemma replace_nil_Forall (P : A -> Prop) old s :
  Forall P s -> Forall P (replace old [] s).
Proof.
  unfold replace. induction s as [|c s IH]; [done|]. intros [Hc Hs]%Forall_cons.
  cbn [flat_map]. destruct (decide (c = old)); cbn [app]; [by apply IH|].
  apply Forall_cons. split; [done|by apply IH].
Qed.

Lemma span_Forall (P : A -> Prop) p s n r :
  Forall P s -> span p s = (n, r) -> Forall P n /\ Forall P r.
Proof.
  revert n r. induction s as [|c s IH]; intros n r Hs.
  - by intros [= <- <-].
  - cbn [span]. destruct (p c); [|by intros [= <- <-]].
    destruct (span p s) as [n' r'] eqn:Hspan. intros [= <- <-].
    apply Forall_cons in Hs as [Hc Hs].
    destruct (IH n' r' Hs eq_refl) as [Hn Hr]. split; [|done].
    by apply Forall_cons.
Qed.

End SplitFacts.

(** [parse_qsl] on a query written field by field. *)
Lemma parse_field_field name value :
  ord "=" ∉ name ->
  parse_field (field (name, value))
  = match value with
    | [] => []
    | _ => [(unquote_plus name, unquote_plus value)]
    end.
Proof.
  intros Hname. unfold parse_field, field. cbn [fst snd].
  change (U "=" ++ value) with (ord "=" :: value).
  rewrite split1_app_sep by done.
  destruct (name ++ ord "=" :: value) eqn:Hfield.
  - by apply app_eq_nil in Hfield as [_ ?].
  - by destruct value.
Qed.

Lemma query_of_nil fields : query_of fields = [] -> fields = [].
Proof.
  destruct fields as [|[name value] fields]; [done|].
  unfold query_of. cbn [map]. destruct (map field fields); cbn [join].
  - unfold field. cbn. intros Heq. by apply app_eq_nil in Heq as [_ ?].
  - unfold field. cbn. intros Heq. apply app_eq_nil in Heq as [Heq _].
    by apply app_eq_nil in Heq as [_ ?].
Qed.

Lemma parse_qsl_query_of fields :
  Forall (fun nv => (ord "=" ∉ nv.1) /\ (ord "&" ∉ nv.1) /\ (ord "&" ∉ nv.2)) fields ->
  parse_qsl (query_of fields) = kept_fields fields.
Proof.
  intros Hfields. unfold parse_qsl.
  destruct (query_of fields) eqn:Hq.
  { apply query_of_nil in Hq. by subst fields. }
  assert (Hne : map field fields <> []) by (by destruct fields).
  rewrite <- Hq. clear Hq. unfold query_of.
  change (U "&") with [ord "&"]. rewrite split_join.
  - clear Hne. unfold kept_fields.
    induction Hfields as [|[name value] fields Hnv _ IH]; [done|].
    cbn [map flat_map]. rewrite IH. cbn [fst snd] in *.
    by rewrite parse_field_field by apply Hnv.
  - done.
  - apply Forall_map. eapply Forall_impl; [exact Hfields|].
    intros [name value] (_ & Hn & Hv). unfold field. cbn [fst snd].
    intros [?|[?|?]%elem_of_app]%elem_of_app; try done.
    apply list_elem_of_singleton in H. discriminate.
Qed.

(** [parse_qs] gathers, for each name, its values in their order. *)
Lemma parse_qs_add_lookup m nv name :
  parse_qs_add m nv !! name
  = if decide (nv.1 = name)
    then Some (default [] (m !! name) ++ [nv.2])
    else m !! name.
Proof.
  destruct nv as [n v]. unfold parse_qs_add. cbn [fst snd].
  destruct (decide (n = name)) as [->|Hne].
  - destruct (m !! name); by rewrite lookup_insert_eq.
  - destruct (m !! n); by rewrite lookup_insert_ne.
Qed.

Lemma fold_parse_qs_add_lookup pairs m name :
  (forall k l, m !! k = Some l -> l <> []) ->
  default [] (fold_left parse_qs_add pairs m !! name)
  = default [] (m !! name) ++ values_of name pairs.
Proof.
  revert m. induction pairs as [|nv pairs IH]; intros m Hm.
  - cbn. by rewrite app_nil_r.
  - cbn [fold_left]. rewrite IH by (by apply parse_qs_add_nonempty).
    rewrite parse_qs_add_lookup. unfold values_of. rewrite filter_cons.
    destruct (decide (nv.1 = name)).
    + cbn. by rewrite <- app_assoc.
    + done.
Qed.

Lemma parse_qs_lookup qs name :
  parse_qs qs !! name = listed (values_of name (parse_qsl qs)).
Proof.
  pose proof (fold_parse_qs_add_lookup (parse_qsl qs) ∅ name) as Hfold.
  rewrite lookup_empty in Hfold. fold (parse_qs qs) in Hfold.
  specialize (Hfold ltac:(intros k l'; by rewrite lookup_empty)).
  destruct (parse_qs qs !! name) as [l|] eqn:Hl; cbn in Hfold; rewrite <- Hfold.
  - destruct l; [|done]. by apply parse_qs_nonempty in Hl.
  - done.
Qed.

Section ParseCallback.
Context `{Library}.


End ParseCallback.



(** ** A URL with a query appended *)

Section SplitFacts2.
Context {A : Type} `{EqDecision A}.

Lemma partition_app_absent (sep : A) a c :
  sep ∉ a ->
  partition sep (a ++ c)
  = let '(x, found, y) := partition sep c in (a ++ x, found, y).
Proof.
  induction a as [|e a IH]; intros Ha.
  - cbn [app]. by destruct (partition sep c) as [[x found] y].
  - cbn [app partition]. rewrite decide_False by (intros ->; apply Ha; by left).
    rewrite IH by (intros Hin; apply Ha; by right).
    by destruct (partition sep c) as [[x found] y].
Qed.

Lemma partition_app_found (sep : A) x y z :
  sep ∉ x -> partition sep ((x ++ sep :: y) ++ z) = (x, true, y ++ z).
Proof.
  intros Hx. rewrite <- (List.app_assoc x (sep :: y) z).
  by apply partition_app_sep.
Qed.

Lemma not_elem_of_Forall (P : A -> Prop) x s : Forall P s -> ~ P x -> x ∉ s.
Proof.
  intros Hs Hx Hin. rewrite Forall_forall in Hs. by apply Hx, Hs.
Qed.

End SplitFacts2.

Section UrlsplitFacts.
Context `{Library}.

Lemma no_delimiter_query s : Forall no_delimiter s -> ord "?" ∉ s.
Proof. intros Hs. apply (not_elem_of_Forall _ _ _ Hs). by intros [? _]. Qed.

Lemma no_delimiter_fragment s : Forall no_delimiter s -> ord "#" ∉ s.
Proof. intros Hs. apply (not_elem_of_Forall _ _ _ Hs). by intros [_ ?]. Qed.

Lemma urlsplit_clean_query base q :
  plain_query q ->
  urlsplit_clean (base ++ ord "?" :: q) = urlsplit_clean base ++ ord "?" :: q.
Proof.
  intros Hq. unfold urlsplit_clean.
  rewrite lstrip_app_stop by (vm_compute; reflexivity).
  cbn [fold_left _UNSAFE_URL_BYTES_TO_REMOVE].
  rewrite !replace_app. f_equal.
  assert (Hkeep : forall c, c ∈ [0x09; 0x0D; 0x0A] ->
            replace c [] (ord "?" :: q) = ord "?" :: q).
  { intros c Hc. apply replace_absent, bool_decide_eq_false.
    intros [->|Hin]%elem_of_cons.
    - repeat (apply elem_of_cons in Hc as [Hc|Hc]; [discriminate|]).
      by apply elem_of_nil in Hc.
    - unfold plain_query in Hq. rewrite Forall_forall in Hq.
      destruct (Hq c Hin) as (_ & ? & ? & ?).
      repeat (apply elem_of_cons in Hc as [Hc|Hc]; [done|]).
      by apply elem_of_nil in Hc. }
  rewrite !Hkeep; [done| | |]; set_solver.
Qed.

Lemma urlsplit_clean_Forall (P : N -> Prop) base :
  Forall P base -> Forall P (urlsplit_clean base).
Proof.
  intros Hbase. unfold urlsplit_clean.
  cbn [fold_left _UNSAFE_URL_BYTES_TO_REMOVE].
  by do 3 apply replace_nil_Forall; apply lstrip_Forall.
Qed.

Lemma urlsplit_scheme_query url q s rest :
  Forall no_delimiter url ->
  urlsplit_scheme url = (s, rest) ->
  urlsplit_scheme (url ++ ord "?" :: q) = (s, rest ++ ord "?" :: q)
  /\ Forall no_delimiter rest.
Proof.
  intros Hurl. unfold urlsplit_scheme.
  destruct (partition (ord ":") url) as [[head found] tail] eqn:Hpart.
  destruct found.
  - apply partition_found in Hpart as [-> Hhead].
    rewrite partition_app_found by done.
    destruct head as [|c head].
    + by intros [= <- <-].
    + destruct (is_ascii_alpha c && forallb _ (c :: head)).
      * intros [= <- <-]. split; [done|].
        apply Forall_app in Hurl as [_ Ht]. by apply Forall_cons in Ht as [_ Ht].
      * by intros [= <- <-].
  - intros Hs.
    assert (Hres : (s, rest) = ([], url)) by (by destruct head).
    injection Hres as -> ->. split; [|done].
    apply partition_not_found in Hpart.
    rewrite partition_app_absent by done.
    cbn [partition]. rewrite decide_False by discriminate.
    destruct (partition (ord ":") q) as [[x found] y].
    destruct found; [|by destruct (url ++ ord "?" :: x)].
    destruct (url ++ ord "?" :: x) as [|c longer] eqn:Hhead; [done|].
    assert (Hno : forallb (fun c => contains c scheme_chars) (c :: longer) = false).
    { rewrite <- Hhead. rewrite forallb_app. cbn [forallb].
      replace (contains (ord "?") scheme_chars) with false by (vm_compute; reflexivity).
      by rewrite andb_false_r. }
    by rewrite Hno, andb_false_r.
Qed.

Lemma take2_query (url q : str) :
  bool_decide (take 2 (url ++ ord "?" :: q) = U "//")
  = bool_decide (take 2 url = U "//").
Proof.
  destruct url as [|a [|c url]]; [| |done].
  - apply bool_decide_ext. split; [|done]. destruct q; discriminate.
  - apply bool_decide_ext. split; [|done]. cbn. by intros [= -> ?].
Qed.

Lemma urlsplit_netloc_query url q :
  Forall no_delimiter url ->
  match urlsplit_netloc url with
  | Ok (n, rest) =>
      urlsplit_netloc (url ++ ord "?" :: q) = Ok (n, rest ++ ord "?" :: q)
      /\ Forall no_delimiter rest
  | Raise e => urlsplit_netloc (url ++ ord "?" :: q) = Raise e
  end.
Proof.
  intros Hurl. unfold urlsplit_netloc. rewrite take2_query.
  destruct (bool_decide (take 2 url = U "//")) eqn:Hslashes; [|done].
  unfold _splitnetloc.
  assert (Hdrop : drop 2 (url ++ ord "?" :: q) = drop 2 url ++ ord "?" :: q).
  { apply bool_decide_eq_true in Hslashes. by destruct url as [|a [|c url]]. }
  rewrite Hdrop.
  destruct (span _ (drop 2 url)) as [n rest] eqn:Hspan.
  assert (Hstop : negb (contains (ord "?") (U "/?#")) = false)
    by (vm_compute; reflexivity).
  rewrite (span_app_stop (fun c => negb (contains c (U "/?#"))) (drop 2 url)
             (ord "?") q n rest Hstop Hspan).
  assert (Hrest : Forall no_delimiter rest).
  { eapply span_Forall; [|exact Hspan]. by apply Forall_drop. }
  destruct ((contains (ord "[") n && negb (contains (ord "]") n))
            || (contains (ord "]") n && negb (contains (ord "[") n))); [done|].
  destruct (contains (ord "[") n && contains (ord "]") n); [|done].
  unfold mbind, result_bind. by destruct (_check_bracketed_netloc n).
Qed.

(** Appending a query to a URL that parses and has neither query nor
    fragment gives a URL that parses, with that query. *)
Lemma urlsplit_query_appended base q r :
  urlsplit base = Ok r ->
  Forall no_delimiter base ->
  plain_query q ->
  urlsplit (base ++ U "?" ++ q)
  = Ok {| split_scheme := split_scheme r; split_netloc := split_netloc r;
          split_path := split_path r; split_query := q; split_fragment := [] |}.
Proof.
  intros Hbase Hdelim Hq. change (U "?" ++ q) with (ord "?" :: q).
  unfold urlsplit in *. rewrite (urlsplit_clean_query _ _ Hq).
  pose proof (urlsplit_clean_Forall _ _ Hdelim) as Hclean.
  destruct (urlsplit_scheme (urlsplit_clean base)) as [s url] eqn:Hscheme.
  destruct (urlsplit_scheme_query _ q _ _ Hclean Hscheme) as [-> Hurl].
  pose proof (urlsplit_netloc_query url q Hurl) as Hnetloc.
  unfold mbind at 1, result_bind at 1 in Hbase.
  unfold mbind at 1, result_bind at 1.
  destruct (urlsplit_netloc url) as [[n rest]|e]; [|done].
  destruct Hnetloc as [-> Hrest].
  unfold urlsplit_fragment, urlsplit_query in *.
  rewrite (partition_absent (ord "#") rest) in Hbase
    by (by apply no_delimiter_fragment).
  rewrite (partition_absent (ord "?") rest) in Hbase
    by (by apply no_delimiter_query).
  rewrite (partition_absent (ord "#") (rest ++ ord "?" :: q)).
  2:{ intros [Hin|[Hin|Hin]%elem_of_cons]%elem_of_app.
      - by apply no_delimiter_fragment in Hin.
      - discriminate.
      - unfold plain_query in Hq. rewrite Forall_forall in Hq.
        by destruct (Hq _ Hin). }
  rewrite partition_app_sep by (by apply no_delimiter_query).
  unfold mbind, result_bind in *.
  destruct (_checknetloc n); [|done]. by injection Hbase as <-.
Qed.

Lemma urlparse_query_appended base q r :
  urlparse base = Ok r ->
  Forall no_delimiter base ->
  plain_query q ->
  exists r', urlparse (base ++ U "?" ++ q) = Ok r' /\ query r' = q.
Proof.
  unfold urlparse. intros Hbase Hdelim Hq.
  unfold mbind, result_bind in *.
  destruct (urlsplit base) as [sr|e] eqn:Hsplit; [|done].
  rewrite (urlsplit_query_appended _ _ _ Hsplit Hdelim Hq). cbn [split_scheme split_path split_query split_netloc split_fragment].
  destruct (bool_decide _ && contains _ _); [destruct (_splitparams _)|];
    by eexists.
Qed.

End UrlsplitFacts.

(** ** The authorization URL *)

Lemma urlencode_fields pairs quoted :
  Forall2 (fun p qp => quote_plus (VStr p.1) [] = Ok qp.1
                       /\ quote_plus p.2 [] = Ok qp.2) pairs quoted ->
  urlencode pairs = Ok (query_of quoted).
Proof.
  intros Hall. unfold urlencode, query_of.
  assert (Hitems : urlencode_items pairs = Ok (map field quoted)).
  { induction Hall as [|[k v] [k' v'] pairs quoted [Hk Hv] _ IH]; [done|].
    cbn [urlencode_items fst snd] in *. rewrite Hk, Hv, IH. reflexivity. }
  by rewrite Hitems.
Qed.

Lemma is_quoted_plain c :
  is_quoted c = true ->
  c <> ord "&" /\ c <> ord "=" /\ c <> ord "#"
  /\ c <> 0x09 /\ c <> 0x0A /\ c <> 0x0D /\ c <> ord "?".
Proof.
  unfold is_quoted, contains. intros Hc%bool_decide_eq_true.
  vm_compute in Hc.
  assert (Hne : forall x, x ∈ [ord "&"; ord "="; ord "#"; 0x09; 0x0A; 0x0D; ord "?"] -> c <> x).
  { intros x Hx ->.
    repeat (apply elem_of_cons in Hx as [->|Hx];
            [repeat (apply elem_of_cons in Hc as [Hc|Hc]; [discriminate|]);
             by apply elem_of_nil in Hc|]).
    by apply elem_of_nil in Hx. }
  repeat split; apply Hne, list_elem_of_In; cbn; auto 10.
Qed.

Lemma forallb_is_quoted_absent s x :
  forallb is_quoted s = true ->
  x ∈ [ord "&"; ord "="; ord "#"; 0x09; 0x0A; 0x0D; ord "?"] -> x ∉ s.
Proof.
  intros Hs Hx Hin. rewrite forallb_forall in Hs.
  apply list_elem_of_In, Hs, is_quoted_plain in Hin as (? & ? & ? & ? & ? & ? & ?).
  repeat (apply elem_of_cons in Hx as [->|Hx]; [done|]).
  by apply elem_of_nil in Hx.
Qed.

Lemma query_of_chars fields :
  Forall (fun nv => forallb is_quoted nv.1 = true /\ forallb is_quoted nv.2 = true) fields ->
  Forall is_query_char (query_of fields).
Proof.
  intros Hfields. unfold query_of.
  assert (Hfield : forall nv,
    forallb is_quoted nv.1 = true /\ forallb is_quoted nv.2 = true ->
    Forall is_query_char (field nv)).
  { intros [name value] [Hn Hv]. cbn [fst snd] in *. unfold field. cbn [fst snd].
    rewrite forallb_forall in Hn, Hv.
    apply Forall_app. split; [|apply Forall_app; split].
    - apply Forall_forall. intros c Hc%list_elem_of_In. left. by apply Hn.
    - apply Forall_cons. split; [|done]. right. by right.
    - apply Forall_forall. intros c Hc%list_elem_of_In. left. by apply Hv. }
  induction Hfields as [|nv fields Hnv Hrest IH]; [done|].
  cbn [map]. destruct fields as [|nv' fields].
  - cbn [map join]. by apply Hfield.
  - change (join (U "&") (field nv :: map field (nv' :: fields)))
      with (field nv ++ U "&" ++ join (U "&") (map field (nv' :: fields))).
    apply Forall_app. split; [by apply Hfield|].
    apply Forall_app. split; [|exact IH].
    apply Forall_cons. split; [|done]. right. by left.
Qed.

Lemma query_chars_plain q : Forall is_query_char q -> plain_query q.
Proof.
  intros Hq. eapply Forall_impl; [exact Hq|].
  intros c [Hc|[->| ->]]; [|by repeat split..].
  apply is_quoted_plain in Hc as (? & ? & ? & ? & ? & ? & ?). by repeat split.
Qed.

(** The digest is 32 bytes long, so the challenge is not empty. *)
Lemma hash_length m : length (SHA256.hash m) = 32%nat.
Proof. reflexivity. Qed.

Lemma translated_symbol_not_pad c :
  is_symbol c = true ->
  (if Ascii.eqb c "+" then "-" else if Ascii.eqb c "/" then "_" else c)%char
  <> BASE64_PAD.
Proof. revert c. each_char. Qed.

Lemma derive_challenge_sendable verifier : sendable (derive_challenge verifier).
Proof.
  unfold sendable, derive_challenge. split.
  - pose proof (hash_length verifier) as Hlen.
    destruct (SHA256.hash verifier) as [|[a0 a1 a2 a3 a4 a5 a6 a7] rest]; [done|].
    assert (Hfirst : exists b5 b4 b3 b2 b1 b0 tail,
      b2a_base64 (Ascii a0 a1 a2 a3 a4 a5 a6 a7 :: rest)
      = b2a (six b5 b4 b3 b2 b1 b0) :: tail).
    { destruct rest as [|[] [|[] rest]]; cbn [b2a_base64]; by do 7 eexists. }
    destruct Hfirst as (b5 & b4 & b3 & b2 & b1 & b0 & tail & Hfirst).
    unfold urlsafe_b64encode, b64encode, translate2. rewrite Hfirst.
    cbn [map]. rewrite filter_cons.
    pose proof (b2a_symbol b5 b4 b3 b2 b1 b0) as Hsym.
    rewrite decide_True; [done|].
    by apply translated_symbol_not_pad.
  - rewrite forallb_forall. intros n (c & <- & Hc)%in_map_iff.
    apply list_elem_of_In, list_elem_of_filter in Hc as [_ Hc].
    pose proof (urlsafe_b64encode_chars (SHA256.hash verifier)) as Hall.
    rewrite Forall_forall in Hall.
    destruct (urlsafe_char_7bit c (Hall c Hc)) as (Hlt%N.ltb_lt & _).
    apply encodable_spec. lia.
Qed.

Lemma kept_fields_cons name value fields :
  value <> [] ->
  kept_fields ((name, value) :: fields)
  = (unquote_plus name, unquote_plus value) :: kept_fields fields.
Proof. intros Hvalue. unfold kept_fields. cbn [flat_map snd fst]. by destruct value. Qed.

Lemma parse_qs_add_fresh (m : gmap (list N) (list (list N))) name value :
  m !! name = None -> parse_qs_add m (name, value) = <[name := [value]]> m.
Proof. intros Hm. unfold parse_qs_add. by rewrite Hm. Qed.

(** Two literal names differ. *)
Ltac distinct := let Heq := fresh in intros Heq; vm_compute in Heq; discriminate Heq.

Section AuthorizationUrl.
Context `{Library} `{Const}.

(** C4, amended. For an authorization endpoint [AUTH_URL] that parses and
    has neither query nor fragment, and for a client id, scope, redirect
    URI and state that are not empty and that UTF-8 encodes,
    [build_auth_url] returns [AUTH_URL], ["?"] and a query of unreserved
    characters, ["%"], ["+"], ["&"] and ["="]; parsing that URL gives
    exactly seven parameters: the four inputs as they were, the challenge
    of the verifier, [code_challenge_method=S256] and
    [response_type=code]. *)
Theorem build_auth_url_roundtrip client_id scope callback_url code_verifier w st base :
  urlparse AUTH_URL = Ok base ->
  Forall no_delimiter AUTH_URL ->
  global_STATE w = Some st ->
  sendable client_id -> sendable scope -> sendable callback_url -> sendable st ->
  exists q,
    build_auth_url client_id scope callback_url code_verifier w
      = (Ok (AUTH_URL ++ U "?" ++ q), w)
    /\ Forall is_query_char q
    /\ generate_challenge code_verifier = Ok (derive_challenge code_verifier)
    /\ parse_callback_url (AUTH_URL ++ U "?" ++ q)
       = Ok (<[U "state" := [st]]>
            (<[U "code_challenge_method" := [U "S256"]]>
            (<[U "code_challenge" := [derive_challenge code_verifier]]>
            (<[U "scope" := [scope]]>
            (<[U "client_id" := [client_id]]>
            (<[U "redirect_uri" := [callback_url]]>
            (<[U "response_type" := [U "code"]]> ∅))))))).
Proof.
  intros Hbase Hdelim Hst [Hid_ne Hid] [Hscope_ne Hscope] [Hcb_ne Hcb] [Hst_ne Hstate].
  destruct (derive_challenge_sendable code_verifier) as [Hch_ne Hch].
  destruct (quote_plus_unquote _ Hcb) as (t1 & Hq1 & Hu1 & Hc1 & Hn1).
  destruct (quote_plus_unquote _ Hid) as (t2 & Hq2 & Hu2 & Hc2 & Hn2).
  destruct (quote_plus_unquote _ Hscope) as (t3 & Hq3 & Hu3 & Hc3 & Hn3).
  destruct (quote_plus_unquote _ Hch) as (t4 & Hq4 & Hu4 & Hc4 & Hn4).
  destruct (quote_plus_unquote _ Hstate) as (t5 & Hq5 & Hu5 & Hc5 & Hn5).
  specialize (Hn1 Hcb_ne). specialize (Hn2 Hid_ne). specialize (Hn3 Hscope_ne).
  specialize (Hn4 Hch_ne). specialize (Hn5 Hst_ne).
  set (quoted := [(U "response_type", U "code"); (U "redirect_uri", t1);
                  (U "client_id", t2); (U "scope", t3); (U "code_challenge", t4);
                  (U "code_challenge_method", U "S256"); (U "state", t5)]).
  assert (Hencode : urlencode (authorization_request client_id scope callback_url
                                 (derive_challenge code_verifier) st)
                    = Ok (query_of quoted)).
  { apply urlencode_fields. unfold authorization_request, quoted.
    repeat (apply Forall2_cons; split;
              [cbn [fst snd]; split;
                 [vm_compute; reflexivity
                 |first [assumption|vm_compute; reflexivity]]|]).
    constructor. }
  assert (Hquoted : Forall (fun nv => forallb is_quoted nv.1 = true
                                      /\ forallb is_quoted nv.2 = true) quoted).
  { unfold quoted.
    repeat (apply Forall_cons; split;
              [cbn [fst snd]; split;
                 first [assumption|vm_compute; reflexivity]|]).
    constructor. }
  assert (Hwritten : written quoted).
  { eapply Forall_impl; [exact Hquoted|]. intros [name value] [Hn Hv].
    cbn [fst snd] in *.
    repeat split; apply forallb_is_quoted_absent; try done;
      apply list_elem_of_In; cbn; auto 10. }
  pose proof (query_of_chars _ Hquoted) as Hchars.
  exists (query_of quoted). split; [|split; [done|split]].
  - unfold build_auth_url, mbind, M_bind, lift, mret, M_ret.
    rewrite generate_challenge_ok. unfold STATE. rewrite Hst.
    change (urlencode _) with
      (urlencode (authorization_request client_id scope callback_url
                    (derive_challenge code_verifier) st)).
    by rewrite Hencode.
  - apply generate_challenge_ok.
  - destruct (urlparse_query_appended _ (query_of quoted) _ Hbase Hdelim
                (query_chars_plain _ Hchars)) as (parsed & Hparse & Hquery).
    unfold parse_callback_url. rewrite Hparse. unfold mbind, result_bind.
    rewrite Hquery. f_equal. unfold parse_qs.
    rewrite (parse_qsl_query_of _ Hwritten). unfold quoted.
    rewrite !kept_fields_cons by (done || (vm_compute; discriminate)).
    unfold unquote_plus at 2 4 6 8 10 12 14. rewrite Hu1, Hu2, Hu3, Hu4, Hu5.
    replace (unquote_plus (U "response_type")) with (U "response_type")
      by (vm_compute; reflexivity).
    replace (unquote_plus (U "redirect_uri")) with (U "redirect_uri")
      by (vm_compute; reflexivity).
    replace (unquote_plus (U "client_id")) with (U "client_id")
      by (vm_compute; reflexivity).
    replace (unquote_plus (U "scope")) with (U "scope")
      by (vm_compute; reflexivity).
    replace (unquote_plus (U "code_challenge")) with (U "code_challenge")
      by (vm_compute; reflexivity).
    replace (unquote_plus (U "code_challenge_method")) with (U "code_challenge_method")
      by (vm_compute; reflexivity).
    replace (unquote_plus (U "state")) with (U "state")
      by (vm_compute; reflexivity).
    replace (unquote (replace (ord "+") (U " ") (U "code"))) with (U "code")
      by (vm_compute; reflexivity).
    replace (unquote (replace (ord "+") (U " ") (U "S256"))) with (U "S256")
      by (vm_compute; reflexivity).
    cbn [fold_left kept_fields flat_map].
    repeat (rewrite parse_qs_add_fresh;
            [|rewrite ?lookup_insert_ne by distinct; apply lookup_empty]).
    reflexivity.
Qed.

End AuthorizationUrl.

(** Closed facts about literal text are decided by evaluation. *)
Ltac evaluated := apply (bool_decide_unpack _); vm_compute; exact I.

Lemma build_auth_url_roundtrip_witness :
  let w := example_process [] (example_response 200 "OK" "{}") in
  exists q query_string,
    example_build_auth_url (U "my id") (U "esi-a.b esi-c.d")
      (U "https://localhost/callback/") (B "abc") w
      = (Ok (U "https://login.eveonline.com/v2/oauth/authorize/" ++ U "?" ++ q), w)
    /\ example_parse_callback_url
         (U "https://login.eveonline.com/v2/oauth/authorize/" ++ U "?" ++ q)
       = Ok query_string
    /\ query_string !! U "scope" = Some [U "esi-a.b esi-c.d"]
    /\ query_string !! U "redirect_uri" = Some [U "https://localhost/callback/"].
Proof.
  intros w.
  destruct (@build_auth_url_roundtrip example_library example_const
              (U "my id") (U "esi-a.b esi-c.d") (U "https://localhost/callback/")
              (B "abc") w (U "AwoRGB8mLTQ7QklQV15lbHN6gYiPlp2kq7K5wMfO1dw")
              {| scheme := U "https"; netloc := U "login.eveonline.com";
                 path := U "/v2/oauth/authorize/"; params := []; query := [];
                 fragment := [] |})
    as (q & Hbuild & _ & _ & Hparse).
  - vm_compute. reflexivity.
  - unfold no_delimiter. evaluated.
  - vm_compute. reflexivity.
  - split; [discriminate|vm_compute; reflexivity].
  - split; [discriminate|vm_compute; reflexivity].
  - split; [discriminate|vm_compute; reflexivity].
  - split; [discriminate|vm_compute; reflexivity].
  - exists q. eexists. split; [exact Hbuild|]. split; [exact Hparse|].
    split; [|rewrite !lookup_insert_ne by distinct]; by rewrite ?lookup_insert_ne by distinct;
      rewrite lookup_insert_eq.
Defined.

(** The claim as the specification words it fails on an empty scope:
    [urlencode] writes ["scope="], and [parse_qs] drops a blank value, so
    the parsed query has no [scope]. *)
Lemma authorization_url_claim_fails : ~ authorization_url_claim.
Proof.
  intros Hclaim.
  pose (w := example_process [] (example_response 200 "OK" "{}")).
  pose (auth_url := U "https://login.eveonline.com/v2/oauth/authorize/?response_type=code&redirect_uri=https%3A%2F%2Flocalhost%2Fcallback%2F&client_id=id&scope=&code_challenge=ungWv48Bz-pBQUDeXa4iI7ADYaOWF3qctBD_YfIAFa0&code_challenge_method=S256&state=AwoRGB8mLTQ7QklQV15lbHN6gYiPlp2kq7K5wMfO1dw").
  destruct (Hclaim example_library example_const (U "id") []
              (U "https://localhost/callback/") (B "abc") w w
              (U "AwoRGB8mLTQ7QklQV15lbHN6gYiPlp2kq7K5wMfO1dw") auth_url)
    as (query_string & Hparse & _ & _ & _ & Hscope & _).
  - vm_compute. reflexivity.
  - vm_compute. reflexivity.
  - assert (Hnone : match @parse_callback_url example_library auth_url with
                    | Ok m => m !! U "scope"
                    | Raise _ => Some []
                    end = None) by (vm_compute; reflexivity).
    rewrite Hparse, Hscope in Hnone. discriminate.
Qed.

Section TokenRequest.
Context `{Library} `{Const}.

Lemma received_prelude_intro cli auth_url callback tail :
  received callback (prelude cli auth_url callback ++ tail).
Proof.
  destruct cli; cbn [prelude].
  - left. eexists. apply elem_of_app. left. apply elem_of_cons. right.
    apply elem_of_cons. by left.
  - right. apply elem_of_app. left. apply elem_of_cons. right.
    apply elem_of_cons. by left.
Qed.

Lemma shown_prelude_intro cli auth_url callback tail :
  shown auth_url (prelude cli auth_url callback ++ tail).
Proof.
  destruct cli; cbn [prelude].
  - left. apply elem_of_app. left. apply elem_of_cons. by left.
  - right. apply elem_of_app. left. apply elem_of_cons. by left.
Qed.

(** The verifier ends with the padding that the challenge does not have. *)
Lemma verifier_not_challenge w :
  map ord (verifier_of w) <> derive_challenge (verifier_of w).
Proof.
  intros Heq.
  assert (Hlast : last (verifier_of w) = Some BASE64_PAD).
  { unfold verifier_of, urlsafe_b64encode, b64encode, translate2.
    rewrite last_map, last_b2a_base64_pad; [done|].
    by rewrite length_map, length_seq. }
  apply last_Some in Hlast as [front Hfront].
  assert (Hin : ord "=" ∈ map ord (verifier_of w)).
  { rewrite Hfront, map_app. apply elem_of_app. right. by apply elem_of_cons; left. }
  rewrite Heq in Hin. by apply derive_challenge_chars in Hin as [? _].
Qed.

(** C5. A request that the flow sends to the token endpoint goes to
    [TOKEN_URL] with [HEADERS], and its form holds exactly
    [grant_type=authorization_code], the client id, the first [code] of the
    redirect URL that the flow read, and as [code_verifier] the verifier of
    this attempt: the padded URL-safe Base64 text of the 32 bytes it drew,
    whose challenge is in the authorization URL that was shown, and which
    is not that challenge. It is the only request of the run. *)
Theorem token_request_sent client_id scope callback_url cli w st r w'
    target data headers :
  global_STATE w = Some st ->
  get_auth_jwt client_id scope callback_url cli w = (r, w') ->
  Post target data headers ∈ log w w' ->
  exists q callback query_string code codes,
    target = TOKEN_URL /\ headers = HEADERS
    /\ data = [(U "grant_type", VStr (U "authorization_code"));
               (U "client_id", VStr client_id);
               (U "code", VStr code);
               (U "code_verifier", VBytes (verifier_of w))]
    /\ received callback (log w w')
    /\ parse_callback_url callback = Ok query_string
    /\ query_string !! U "code" = Some (code :: codes)
    /\ verifier_of w = urlsafe_b64encode (map (urandom w) (seq (drawn w) 32))
    /\ generate_challenge (verifier_of w) = Ok (derive_challenge (verifier_of w))
    /\ map ord (verifier_of w) <> derive_challenge (verifier_of w)
    /\ urlencode [(U "response_type", VStr (U "code"));
                  (U "redirect_uri", VStr callback_url);
                  (U "client_id", VStr client_id);
                  (U "scope", VStr scope);
                  (U "code_challenge", VStr (derive_challenge (verifier_of w)));
                  (U "code_challenge_method", VStr (U "S256"));
                  (U "state", VStr st)] = Ok q
    /\ shown (AUTH_URL ++ U "?" ++ q) (log w w')
    /\ (forall target' data' headers', Post target' data' headers' ∈ log w w' ->
          target' = target /\ data' = data /\ headers' = headers)
    /\ length (List.filter is_post (log w w')) = 1%nat.
Proof.
  intros Hst Hrun Hpost.
  destruct (get_auth_jwt_posted _ _ _ _ _ _ _ _ _ _ _ Hst Hrun Hpost)
    as (q & callback & query_string & code & codes & states & Hq & Hparse
        & Hcode & _ & -> & -> & -> & Hlog & _).
  exists q, callback, query_string, code, codes.
  rewrite Hlog. repeat (split; [done|]).
  split; [apply received_prelude_intro|]. repeat (split; [done|]).
  split; [apply generate_challenge_ok|].
  split; [apply verifier_not_challenge|]. split; [exact Hq|].
  split; [apply shown_prelude_intro|]. split.
  - intros target' data' headers' [Hin|Hin]%elem_of_app.
    + by apply no_post_prelude in Hin.
    + apply list_elem_of_singleton in Hin. by injection Hin as -> -> ->.
  - rewrite List.filter_app. by destruct cli.
Qed.

End TokenRequest.

(** ** The state token *)

Section StripFacts.
Context {A : Type} `{EqDecision A}.

Lemma lstrip_all (chars l : list A) :
  forallb (fun c => contains c chars) l = true -> lstrip chars l = [].
Proof.
  induction l as [|c l IH]; [done|]. cbn [forallb lstrip].
  intros [Hc Hl]%andb_true_iff. rewrite Hc. by apply IH.
Qed.

Lemma lstrip_app_all (chars a rest : list A) :
  forallb (fun c => contains c chars) a = true ->
  lstrip chars (a ++ rest) = lstrip chars rest.
Proof.
  induction a as [|c a IH]; [done|]. cbn [forallb app lstrip].
  intros [Hc Ha]%andb_true_iff. rewrite Hc. by apply IH.
Qed.

Lemma lstrip_none (chars l : list A) :
  forallb (fun c => negb (contains c chars)) l = true -> lstrip chars l = l.
Proof.
  destruct l as [|c l]; [done|]. cbn [forallb lstrip].
  intros [Hc _]%andb_true_iff. by destruct (contains c chars).
Qed.

Lemma rstrip_app_all (chars body pads : list A) :
  forallb (fun c => negb (contains c chars)) body = true ->
  forallb (fun c => contains c chars) pads = true ->
  rstrip chars (body ++ pads) = body.
Proof.
  intros Hbody Hpads. unfold rstrip. rewrite rev_app_distr.
  rewrite lstrip_app_all.
  - rewrite lstrip_none; [apply rev_involutive|].
    rewrite forallb_forall in Hbody |- *. intros x Hx%in_rev. by apply Hbody.
  - rewrite forallb_forall in Hpads |- *. intros x Hx%in_rev. by apply Hpads.
Qed.

End StripFacts.

(** The encoder writes symbols and then at most two padding characters. *)
Lemma b2a_base64_shape s :
  exists body pads,
    b2a_base64 s = body ++ pads
    /\ forallb is_symbol body = true
    /\ forallb (fun c => contains c (B "=")) pads = true.
Proof.
  induction s as [|a|a c|a c d rest IH] using bytes_ind3.
  - by exists [], [].
  - destruct a as [a0 a1 a2 a3 a4 a5 a6 a7]. cbn [b2a_base64].
    eexists [_; _], [_; _]. split; [reflexivity|]. split; [|done].
    cbn [forallb]. by rewrite !b2a_symbol.
  - destruct a as [a0 a1 a2 a3 a4 a5 a6 a7], c as [c0 c1 c2 c3 c4 c5 c6 c7].
    cbn [b2a_base64].
    eexists [_; _; _], [_]. split; [reflexivity|]. split; [|done].
    cbn [forallb]. by rewrite !b2a_symbol.
  - destruct a as [a0 a1 a2 a3 a4 a5 a6 a7], c as [c0 c1 c2 c3 c4 c5 c6 c7],
      d as [d0 d1 d2 d3 d4 d5 d6 d7].
    destruct IH as (body & pads & Hrest & Hbody & Hpads).
    cbn [b2a_base64]. rewrite Hrest.
    eexists (_ :: _ :: _ :: _ :: body), pads. split; [reflexivity|].
    split; [|done]. cbn [forallb]. by rewrite !b2a_symbol.
Qed.

Lemma translated_symbol c :
  is_symbol c = true ->
  let c' := (if Ascii.eqb c "+" then "-" else if Ascii.eqb c "/" then "_" else c)%char in
  negb (contains c' (B "=")) = true
  /\ contains (ord c') (map ord _ALWAYS_SAFE_BYTES) = true.
Proof. revert c. each_char. Qed.

Lemma translated_pad c :
  contains c (B "=") = true ->
  (if Ascii.eqb c "+" then "-" else if Ascii.eqb c "/" then "_" else c)%char = c.
Proof. revert c. each_char. Qed.

(** The token: the symbols of the encoding, all of them unreserved. *)
Lemma token_of_safe w :
  forallb (fun c => contains c (map ord _ALWAYS_SAFE_BYTES)) (token_of w) = true
  /\ decode_ascii (rstrip (B "=") (urlsafe_b64encode
                     (map (urandom w) (seq (drawn w) 32)))) = Ok (token_of w).
Proof.
  unfold token_of, urlsafe_b64encode, b64encode, translate2.
  set (tok := map (urandom w) (seq (drawn w) 32)).
  destruct (b2a_base64_shape tok) as (body & pads & -> & Hbody & Hpads).
  rewrite map_app.
  rewrite (map_ext_in _ id pads), map_id.
  2:{ intros c Hc. rewrite forallb_forall in Hpads. by apply translated_pad, Hpads. }
  rewrite rstrip_app_all; [| |done].
  2:{ rewrite forallb_forall. intros x (c & <- & Hc)%in_map_iff.
      rewrite forallb_forall in Hbody. by apply translated_symbol, Hbody. }
  assert (Hsafe : forallb (fun c => contains c (map ord _ALWAYS_SAFE_BYTES))
            (map ord (map (fun c => if Ascii.eqb c "+" then "-"%char
                                    else if Ascii.eqb c "/" then "_"%char else c) body))
          = true).
  { rewrite forallb_forall. intros n (x & <- & (c & <- & Hc)%in_map_iff)%in_map_iff.
    rewrite forallb_forall in Hbody. by apply translated_symbol, Hbody. }
  split; [exact Hsafe|].
  unfold decode_ascii.
  replace (forallb _ _) with true; [done|]. symmetry.
  rewrite forallb_forall. intros x (c & <- & Hc)%in_map_iff.
  rewrite forallb_forall in Hbody.
  destruct (translated_symbol c (Hbody c Hc)) as [_ Hin].
  cbn zeta in Hin. revert Hin. generalize (if Ascii.eqb c "+" then "-"%char
    else if Ascii.eqb c "/" then "_"%char else c). clear. intros c. revert c. each_char.
Qed.

Section ImportFacts.
Context `{Library} `{Const}.

(** Importing the module draws 32 bytes and sets [STATE] once. *)
Lemma import_authorize_run w0 :
  exists w1,
    import_authorize w0 = (Ok tt, w1)
    /\ global_STATE w1 = Some (token_of w0)
    /\ drawn w1 = (drawn w0 + 32)%nat
    /\ trace w1 = trace w0.
Proof.
  destruct (os_urandom_draws 32 w0) as (w & Hdraw & Hdrawn & Htrace & _); [lia|].
  change (Z.to_nat 32) with 32%nat in Hdraw.
  unfold import_authorize, token_urlsafe, token_bytes, mbind, M_bind, lift.
  rewrite Hdraw. rewrite (proj2 (token_of_safe w0)).
  eexists. split; [reflexivity|]. by cbn.
Qed.

End ImportFacts.

(** Unreserved text is quoted as it is. *)
Lemma quoter_safe_char c :
  contains (ord c) (map ord _ALWAYS_SAFE_BYTES) = true ->
  flat_map (quoter []) (utf8_encode_char (ord c)) = [ord c]
  /\ encodable (ord c) = true
  /\ ord c <> ord " ".
Proof. revert c. each_char. Qed.

Lemma safe_code_point n :
  contains n (map ord _ALWAYS_SAFE_BYTES) = true -> exists c, n = ord c.
Proof.
  unfold contains. intros Hn%bool_decide_eq_true.
  apply list_elem_of_In, in_map_iff in Hn as (c & <- & _). by exists c.
Qed.

Lemma quote_plus_safe s :
  forallb (fun c => contains c (map ord _ALWAYS_SAFE_BYTES)) s = true ->
  quote_plus (VStr s) [] = Ok s.
Proof.
  intros Hs. rewrite forallb_forall in Hs.
  assert (Hchars : forall n, In n s ->
            flat_map (quoter []) (utf8_encode_char n) = [n]
            /\ encodable n = true /\ n <> ord " ").
  { intros n Hn. destruct (safe_code_point n (Hs n Hn)) as [c ->].
    by apply quoter_safe_char, Hs. }
  unfold quote_plus.
  assert (Hspace : has_space (VStr s) = false).
  { cbn [has_space]. apply bool_decide_eq_false.
    intros Hin%list_elem_of_In. by apply Hchars in Hin as (_ & _ & ?). }
  rewrite Hspace. cbn [negb]. rewrite quote_VStr.
  - f_equal. clear Hs Hspace. induction s as [|n s IH]; [done|].
    cbn [flat_map]. rewrite flat_map_app.
    rewrite (proj1 (Hchars n (or_introl eq_refl))).
    cbn [app]. f_equal. apply IH. intros m Hm. apply Hchars. by right.
  - rewrite forallb_forall. intros n Hn. by apply Hchars.
Qed.

(** The last parameter of an encoded query. *)
Lemma urlencode_items_last pairs k v l :
  urlencode_items (pairs ++ [(k, v)]) = Ok l ->
  exists l0 k' v',
    l = l0 ++ [k' ++ U "=" ++ v'] /\ length l0 = length pairs
    /\ quote_plus (VStr k) [] = Ok k' /\ quote_plus v [] = Ok v'.
Proof.
  revert l. induction pairs as [|[k0 v0] pairs IH]; intros l.
  - cbn [app urlencode_items]. unfold mbind, result_bind.
    destruct (quote_plus (VStr k) []) as [k'|]; [|done].
    destruct (quote_plus v []) as [v'|]; [|done].
    intros [= <-]. by exists [], k', v'.
  - cbn [app urlencode_items]. unfold mbind, result_bind.
    destruct (quote_plus (VStr k0) []) as [k0'|]; [|done].
    destruct (quote_plus v0 []) as [v0'|]; [|done].
    destruct (urlencode_items (pairs ++ [(k, v)])) as [l'|] eqn:Hrest; [|done].
    intros [= <-].
    destruct (IH l' eq_refl) as (l0 & k' & v' & -> & Hlen & Hk & Hv).
    exists ((k0' ++ U "=" ++ v0') :: l0), k', v'. cbn [length]. by rewrite Hlen.
Qed.

Lemma join_last {A} (sep : list A) l0 x :
  l0 <> [] -> join sep (l0 ++ [x]) = join sep l0 ++ sep ++ x.
Proof.
  induction l0 as [|y l0 IH]; [done|]. intros _.
  destruct l0 as [|z l0]; [done|].
  change (join sep ((y :: z :: l0) ++ [x]))
    with (y ++ sep ++ join sep ((z :: l0) ++ [x])).
  rewrite IH by done.
  change (join sep (y :: z :: l0)) with (y ++ sep ++ join sep (z :: l0)).
  by rewrite <- !(List.app_assoc).
Qed.

Lemma urlencode_request_state client_id scope callback_url code_challenge st q :
  forallb (fun c => contains c (map ord _ALWAYS_SAFE_BYTES)) st = true ->
  urlencode (authorization_request client_id scope callback_url code_challenge st)
    = Ok q ->
  exists front, q = front ++ U "&state=" ++ st.
Proof.
  intros Hst%quote_plus_safe. unfold urlencode, mbind, result_bind.
  destruct (urlencode_items _) as [l|] eqn:Hitems; [|done]. intros [= <-].
  change (authorization_request client_id scope callback_url code_challenge st)
    with ([(U "response_type", VStr (U "code"));
           (U "redirect_uri", VStr callback_url);
           (U "client_id", VStr client_id);
           (U "scope", VStr scope);
           (U "code_challenge", VStr code_challenge);
           (U "code_challenge_method", VStr (U "S256"))]
          ++ [(U "state", VStr st)]) in Hitems.
  apply urlencode_items_last in Hitems as (l0 & k' & v' & -> & Hlen & Hk & Hv).
  rewrite Hst in Hv. injection Hv as <-.
  assert (Hname : quote_plus (VStr (U "state")) [] = Ok (U "state"))
    by (vm_compute; reflexivity).
  rewrite Hname in Hk. injection Hk as <-.
  rewrite join_last by (by destruct l0).
  by exists (join (U "&") l0).
Qed.

Section StateToken.
Context `{Library} `{Const}.

Lemma print_url_inj (url url' : str) :
  Print (U "Open this url in a web browser:" ++ [0x0A; 0x0A] ++ url' ++ [0x0A; 0x0A])
  = Print (U "Open this url in a web browser:" ++ [0x0A; 0x0A] ++ url ++ [0x0A; 0x0A]) ->
  url' = url.
Proof.
  intros [= Heq]. by apply app_inv_tail in Heq.
Qed.

(** An attempt leaves [STATE] and the surroundings as they were. *)
Lemma get_auth_jwt_same client_id scope callback_url cli w st r w' :
  global_STATE w = Some st ->
  get_auth_jwt client_id scope callback_url cli w = (r, w') ->
  same_surroundings w w'.
Proof.
  intros Hst Hrun.
  destruct (get_auth_jwt_cases _ _ _ _ _ _ _ _ Hst Hrun)
    as [(e & _ & _ & _ & Hsame)|(q & Hq & [(_ & _ & _ & Hsame & _)
        |(callback & w2 & Htrace & _ & Hsame & Hex)])]; [done|done|].
  assert (Hst2 : global_STATE w2 = Some st) by (by rewrite (proj1 Hsame)).
  destruct (exchange_trace _ _ _ _ _ _ _ Hst2 Hex) as [Hsame2 _].
  by eapply same_surroundings_trans.
Qed.

(** The URL an attempt shows is the one built with the expected state. *)
Lemma get_auth_jwt_shown client_id scope callback_url cli w st r w' auth_url :
  global_STATE w = Some st ->
  get_auth_jwt client_id scope callback_url cli w = (r, w') ->
  shown auth_url (log w w') ->
  exists q,
    urlencode (authorization_request client_id scope callback_url
                 (derive_challenge (verifier_of w)) st) = Ok q
    /\ auth_url = AUTH_URL ++ U "?" ++ q.
Proof.
  intros Hst Hrun Hshown.
  destruct (get_auth_jwt_cases _ _ _ _ _ _ _ _ Hst Hrun)
    as [(e & _ & _ & Hlog & _)|(q & Hq & [(_ & _ & _ & _ & prompt & Hlog)
        |(callback & w2 & Htrace & _ & Hsame & Hex)])].
  - rewrite Hlog in Hshown. destruct Hshown as [Hin|Hin]; by apply elem_of_nil in Hin.
  - exists q. split; [done|]. rewrite Hlog in Hshown.
    destruct Hshown as [Hin|Hin];
      repeat (apply elem_of_cons in Hin as [Hin|Hin]; [try discriminate|]);
      try (by apply elem_of_nil in Hin).
    by apply print_url_inj in Hin.
  - exists q. split; [done|].
    assert (Hst2 : global_STATE w2 = Some st) by (by rewrite (proj1 Hsame)).
    destruct (exchange_trace _ _ _ _ _ _ _ Hst2 Hex) as [_ Hcases].
    assert (Hlog : exists tail, log w w' = prelude cli (AUTH_URL ++ U "?" ++ q) callback ++ tail
                   /\ no_post (prelude cli (AUTH_URL ++ U "?" ++ q) callback)
                   /\ forall e, e ∈ tail -> is_post e = true).
    { destruct Hcases as [[-> _]|[code Hpost]].
      - exists []. split; [apply log_app; by rewrite Htrace, app_nil_r|].
        split; [apply no_post_prelude|]. by intros e Hin%elem_of_nil.
      - eexists [_]. split; [apply log_app; by rewrite Hpost, Htrace, <- app_assoc|].
        split; [apply no_post_prelude|]. by intros e ->%list_elem_of_singleton. }
    destruct Hlog as (tail & Hlog & _ & Htail). rewrite Hlog in Hshown.
    destruct Hshown as [Hin|Hin]; apply elem_of_app in Hin as [Hin|Hin];
      try (by apply Htail in Hin).
    + destruct cli; cbn [prelude] in Hin;
        repeat (apply elem_of_cons in Hin as [Hin|Hin]; [try discriminate|]);
        try (by apply elem_of_nil in Hin).
      by apply print_url_inj in Hin.
    + destruct cli; cbn [prelude] in Hin;
        repeat (apply elem_of_cons in Hin as [Hin|Hin]; [try discriminate|]);
        try (by apply elem_of_nil in Hin).
      by injection Hin.
Qed.

End StateToken.

Section StateTokenClaim.
Context `{Library} `{Const}.

Lemma run_attempts_uses attempts w st :
  global_STATE w = Some st ->
  forallb (fun c => contains c (map ord _ALWAYS_SAFE_BYTES)) st = true ->
  Forall (attempt_uses st) (run_attempts attempts w).
Proof.
  intros Hst Hsafe. revert w Hst.
  induction attempts as [|a attempts IH]; intros w Hst; [constructor|].
  cbn [run_attempts].
  destruct (get_auth_jwt _ _ _ _ w) as [r w'] eqn:Hrun.
  pose proof (get_auth_jwt_same _ _ _ _ _ _ _ _ Hst Hrun) as Hsame.
  assert (Hst' : global_STATE w' = Some st) by (by rewrite (proj1 Hsame)).
  apply Forall_cons. split; [|by apply IH].
  cbn. split; [done|]. split; [done|]. split; [|split].
  - intros auth_url Hshown.
    destruct (get_auth_jwt_shown _ _ _ _ _ _ _ _ _ Hst Hrun Hshown) as (q & Hq & ->).
    destruct (urlencode_request_state _ _ _ _ _ _ Hsafe Hq) as [front ->].
    by exists front.
  - intros callback query_string state others Hrec Hparse Hstate Hne.
    destruct (mismatch_stops _ _ _ _ _ _ _ _ _ _ _ _ Hst Hrun Hrec Hparse Hstate Hne)
      as (Hno & Hraise & _).
    done.
  - intros target data headers Hpost.
    destruct (get_auth_jwt_posted _ _ _ _ _ _ _ _ _ _ _ Hst Hrun Hpost)
      as (q & callback & query_string & code & codes & states & _ & Hparse
          & _ & Hstate & _ & _ & _ & Hlog & _).
    exists callback, query_string, states. rewrite Hlog.
    split; [apply received_prelude_intro|done].
Qed.

(** C6. Importing the module sets [STATE] once, to the token made of the
    first 32 random bytes; every authorization attempt of the process,
    whatever its arguments and its outcome, finds that value and leaves it:
    the authorization URL it shows ends with [&state=] and that value, a
    redirect URL whose first [state] differs from it is rejected without a
    request, and a request is sent only after a redirect URL whose first
    [state] is that value. *)
Theorem state_token_fixed (attempts : list attempt) (w0 : world) :
  exists w1,
    import_authorize w0 = (Ok tt, w1)
    /\ global_STATE w1 = Some (token_of w0)
    /\ Forall (attempt_uses (token_of w0)) (process attempts w0).
Proof.
  destruct (import_authorize_run w0) as (w1 & Himport & Hstate & _).
  exists w1. split; [done|]. split; [done|].
  unfold process. rewrite Himport. cbn [snd].
  apply run_attempts_uses; [done|]. apply token_of_safe.
Qed.

End StateTokenClaim.

(** ** The flow on the examples *)

(** Membership in a list that evaluation has made explicit. *)
Ltac in_list := vm_compute; repeat first [by apply elem_of_cons; left | apply elem_of_cons; right].

Lemma state_mismatch_rejected_witness :
  let callback := U "https://localhost/callback/?code=XYZ&state=other" in
  let w := example_process callback (example_response 200 "OK" "{}") in
  let run := @get_auth_jwt example_library example_const (U "my id") (U "esi-a.b") (U "https://localhost/callback/")
               false w in
  no_post (log w (snd run))
  /\ fst run = Raise (ValueError (U "Did not receive expected state")).
Proof.
  intros callback w run.
  destruct (@state_mismatch_rejected example_library example_const
              (U "my id") (U "esi-a.b") (U "https://localhost/callback/") false w
              (U "AwoRGB8mLTQ7QklQV15lbHN6gYiPlp2kq7K5wMfO1dw") (fst run) (snd run)
              callback
              (<[U "state" := [U "other"]]> {[ U "code" := [U "XYZ"] ]})
              (U "other") [])
    as (Hno & _ & Hraise).
  - vm_compute. reflexivity.
  - exact (surjective_pairing run).
  - right. in_list.
  - vm_compute. reflexivity.
  - vm_compute. reflexivity.
  - distinct.
  - split; [exact Hno|]. apply (Hraise (U "XYZ") []). vm_compute. reflexivity.
Defined.

(** The claim as the specification words it fails on a redirect URL
    without [code]: the flow subscripts the missing value before it looks
    at the state, and raises [TypeError]. *)
Lemma state_mismatch_claim_fails : ~ state_mismatch_claim.
Proof.
  intros Hclaim.
  pose (callback := U "https://localhost/callback/?state=other").
  pose (w := example_process callback (example_response 200 "OK" "{}")).
  pose (run := @get_auth_jwt example_library example_const (U "my id") (U "esi-a.b")
                 (U "https://localhost/callback/") false w).
  destruct (Hclaim example_library example_const
              (U "my id") (U "esi-a.b") (U "https://localhost/callback/") false w
              (snd run) (fst run) (U "AwoRGB8mLTQ7QklQV15lbHN6gYiPlp2kq7K5wMfO1dw")
              callback {[ U "state" := [U "other"] ]} (U "other") [])
    as [Hraise _].
  - vm_compute. reflexivity.
  - exact (surjective_pairing run).
  - right. in_list.
  - vm_compute. reflexivity.
  - vm_compute. reflexivity.
  - distinct.
  - assert (Hreal : fst run = Raise (TypeError (U "'NoneType' object is not subscriptable")))
      by (vm_compute; reflexivity).
    pose proof (eq_trans (eq_sym Hreal) Hraise) as Hbad. discriminate Hbad.
Qed.

Lemma malformed_callback_fails_witness :
  let missing := U "https://localhost/callback/?state=AwoRGB8mLTQ7QklQV15lbHN6gYiPlp2kq7K5wMfO1dw" in
  let broken := U "https://[::1/callback/?code=XYZ" in
  let w1 := example_process missing (example_response 200 "OK" "{}") in
  let w2 := example_process broken (example_response 200 "OK" "{}") in
  let run1 := @get_auth_jwt example_library example_const (U "my id") (U "esi-a.b")
                (U "https://localhost/callback/") false w1 in
  let run2 := @get_auth_jwt example_library example_const (U "my id") (U "esi-a.b")
                (U "https://localhost/callback/") true w2 in
  (fst run1 = Raise (TypeError (U "'NoneType' object is not subscriptable"))
   /\ no_post (log w1 (snd run1)))
  /\ (fst run2 = Raise (ValueError (U "Invalid IPv6 URL"))
      /\ no_post (log w2 (snd run2))).
Proof.
  intros missing broken w1 w2 run1 run2. split.
  - destruct (@malformed_callback_fails example_library example_const
                (U "my id") (U "esi-a.b") (U "https://localhost/callback/") false w1
                (U "AwoRGB8mLTQ7QklQV15lbHN6gYiPlp2kq7K5wMfO1dw") (fst run1) (snd run1)
                missing) as [_ Hmissing].
    + vm_compute. reflexivity.
    + exact (surjective_pairing run1).
    + right. in_list.
    + apply (Hmissing {[ U "state" := [U "AwoRGB8mLTQ7QklQV15lbHN6gYiPlp2kq7K5wMfO1dw"] ]}).
      * vm_compute. reflexivity.
      * left. vm_compute. reflexivity.
  - destruct (@malformed_callback_fails example_library example_const
                (U "my id") (U "esi-a.b") (U "https://localhost/callback/") true w2
                (U "AwoRGB8mLTQ7QklQV15lbHN6gYiPlp2kq7K5wMfO1dw") (fst run2) (snd run2)
                broken) as [Hbroken _].
    + vm_compute. reflexivity.
    + exact (surjective_pairing run2).
    + left. eexists. in_list.
    + apply Hbroken. vm_compute. reflexivity.
Defined.

Lemma token_exchange_failure_witness :
  let callback := U "https://localhost/callback/?code=XYZ&state=AwoRGB8mLTQ7QklQV15lbHN6gYiPlp2kq7K5wMfO1dw" in
  let w := example_process callback bad_request in
  let run := @get_auth_jwt example_library example_const (U "my id") (U "esi-a.b")
               (U "https://localhost/callback/") false w in
  exists msg, fst run = Raise (HTTPError msg bad_request)
    /\ status_code bad_request = 400%Z
    /\ content bad_request = invalid_grant.
Proof.
  intros callback w run.
  destruct (@token_exchange_failure example_library example_const
              (U "my id") (U "esi-a.b") (U "https://localhost/callback/") false w
              (U "AwoRGB8mLTQ7QklQV15lbHN6gYiPlp2kq7K5wMfO1dw") (fst run) (snd run)
              (U "https://login.eveonline.com/v2/oauth/token")
              (token_request (U "my id") (U "XYZ") (verifier_of w))
              [(U "Content-Type", U "application/x-www-form-urlencoded");
               (U "Host", U "login.eveonline.com")]
              bad_request) as (msg & Hraise & _).
  - vm_compute. reflexivity.
  - exact (surjective_pairing run).
  - in_list.
  - vm_compute. reflexivity.
  - cbn [status_code bad_request]. lia.
  - exists msg. by repeat split.
Defined.

Lemma first_values_only_witness :
  let callback := U "https://localhost/callback/?code=first&code=second&state=AwoRGB8mLTQ7QklQV15lbHN6gYiPlp2kq7K5wMfO1dw&state=other" in
  let w := example_process callback (example_response 200 "OK" "{}") in
  let run := @get_auth_jwt example_library example_const (U "my id") (U "esi-a.b")
               (U "https://localhost/callback/") true w in
  Post (U "https://login.eveonline.com/v2/oauth/token")
       (token_request (U "my id") (U "first") (verifier_of w))
       [(U "Content-Type", U "application/x-www-form-urlencoded");
        (U "Host", U "login.eveonline.com")] ∈ log w (snd run).
Proof.
  intros callback w run.
  destruct (@first_values_only example_library example_const
              (U "my id") (U "esi-a.b") (U "https://localhost/callback/") true w
              (U "AwoRGB8mLTQ7QklQV15lbHN6gYiPlp2kq7K5wMfO1dw") (fst run) (snd run)
              callback
              (<[U "state" := [U "AwoRGB8mLTQ7QklQV15lbHN6gYiPlp2kq7K5wMfO1dw"; U "other"]]>
                 {[ U "code" := [U "first"; U "second"] ]})
              (U "first") [U "second"]
              (U "AwoRGB8mLTQ7QklQV15lbHN6gYiPlp2kq7K5wMfO1dw") [U "other"])
    as [Hsame _].
  - vm_compute. reflexivity.
  - exact (surjective_pairing run).
  - left. eexists. in_list.
  - vm_compute. reflexivity.
  - vm_compute. reflexivity.
  - vm_compute. reflexivity.
  - exact (proj1 (Hsame eq_refl)).
Defined.

Lemma token_request_sent_witness :
  let callback := U "https://localhost/callback/?code=XYZ&state=AwoRGB8mLTQ7QklQV15lbHN6gYiPlp2kq7K5wMfO1dw" in
  let w := example_process callback (example_response 200 "OK" "{}") in
  let run := @get_auth_jwt example_library example_const (U "my id") (U "esi-a.b")
               (U "https://localhost/callback/") false w in
  exists data,
    Post (U "https://login.eveonline.com/v2/oauth/token") data
      [(U "Content-Type", U "application/x-www-form-urlencoded");
       (U "Host", U "login.eveonline.com")] ∈ log w (snd run)
    /\ data = [(U "grant_type", VStr (U "authorization_code"));
               (U "client_id", VStr (U "my id"));
               (U "code", VStr (U "XYZ"));
               (U "code_verifier",
                VBytes (B "4-rx-P8GDRQbIikwNz5FTFNaYWhvdn2Ei5KZoKeutbw="))]
    /\ length (List.filter is_post (log w (snd run))) = 1%nat.
Proof.
  intros callback w run.
  assert (Hpost : Post (U "https://login.eveonline.com/v2/oauth/token")
            [(U "grant_type", VStr (U "authorization_code"));
             (U "client_id", VStr (U "my id"));
             (U "code", VStr (U "XYZ"));
             (U "code_verifier",
              VBytes (B "4-rx-P8GDRQbIikwNz5FTFNaYWhvdn2Ei5KZoKeutbw="))]
            [(U "Content-Type", U "application/x-www-form-urlencoded");
             (U "Host", U "login.eveonline.com")] ∈ log w (snd run)) by in_list.
  destruct (@token_request_sent example_library example_const
              (U "my id") (U "esi-a.b") (U "https://localhost/callback/") false w
              (U "AwoRGB8mLTQ7QklQV15lbHN6gYiPlp2kq7K5wMfO1dw") (fst run) (snd run)
              _ _ _ ltac:(vm_compute; reflexivity) (surjective_pairing run) Hpost)
    as (q & cb & query_string & code & codes & _ & _ & _ & _ & _ & _ & _ & _ & _
        & _ & _ & _ & Hone).
  eexists. split; [exact Hpost|]. split; [reflexivity|exact Hone].
Defined.

(** ** The shape of the verifier, the challenge and the state token *)

(** The encoder writes [ceil(8n/6)] symbols for [n] bytes and pads them to
    a multiple of four. *)
Lemma b2a_base64_body s :
  exists body pads,
    b2a_base64 s = body ++ pads
    /\ forallb is_symbol body = true
    /\ Forall (fun c => c = BASE64_PAD) pads
    /\ length body = ((4 * length s + 2) / 3)%nat
    /\ length pads = ((3 - length s mod 3) mod 3)%nat.
Proof.
  induction s as [|a|a c|a c d rest IH] using bytes_ind3.
  - exists [], []. by repeat split.
  - destruct a as [a0 a1 a2 a3 a4 a5 a6 a7]. cbn [b2a_base64].
    eexists [_; _], [_; _]. split; [reflexivity|].
    split; [cbn [forallb]; by rewrite !b2a_symbol|].
    split; [by repeat constructor|]. by split.
  - destruct a as [a0 a1 a2 a3 a4 a5 a6 a7], c as [c0 c1 c2 c3 c4 c5 c6 c7].
    cbn [b2a_base64].
    eexists [_; _; _], [_]. split; [reflexivity|].
    split; [cbn [forallb]; by rewrite !b2a_symbol|].
    split; [by repeat constructor|]. by split.
  - destruct a as [a0 a1 a2 a3 a4 a5 a6 a7], c as [c0 c1 c2 c3 c4 c5 c6 c7],
      d as [d0 d1 d2 d3 d4 d5 d6 d7].
    destruct IH as (body & pads & Hrest & Hbody & Hpads & Hlen & Hplen).
    cbn [b2a_base64]. rewrite Hrest.
    eexists (_ :: _ :: _ :: _ :: body), pads. split; [reflexivity|].
    split; [cbn [forallb]; by rewrite !b2a_symbol|].
    split; [done|]. cbn [length]. rewrite Hlen, Hplen. split.
    + replace (4 * S (S (S (length rest))) + 2)%nat
        with (4 * length rest + 2 + 4 * 3)%nat by lia.
      rewrite Nat.div_add by lia. lia.
    + replace (S (S (S (length rest)))) with (length rest + 1 * 3)%nat by lia.
      by rewrite Nat.Div0.mod_add.
Qed.

Lemma translated_symbol_urlsafe c :
  is_symbol c = true ->
  is_urlsafe (if Ascii.eqb c "+" then "-" else if Ascii.eqb c "/" then "_" else c)%char
  = true.
Proof. revert c. each_char. Qed.

Lemma urlsafe_not_pad c : is_urlsafe c = true -> c <> BASE64_PAD.
Proof. revert c. each_char. Qed.

Lemma urlsafe_unreserved c :
  is_urlsafe c = true ->
  contains (ord c) (map ord urlsafe_alphabet) = true
  /\ contains (ord c) (map ord _ALWAYS_SAFE_BYTES) = true
  /\ (ord c <? 0x80) = true.
Proof. revert c. each_char. Qed.

(** The URL-safe encoding: symbols of the URL-safe alphabet, then the
    padding. *)
Lemma urlsafe_b64encode_body s :
  exists body pads,
    urlsafe_b64encode s = body ++ pads
    /\ forallb is_urlsafe body = true
    /\ Forall (fun c => c = BASE64_PAD) pads
    /\ length body = ((4 * length s + 2) / 3)%nat
    /\ length pads = ((3 - length s mod 3) mod 3)%nat.
Proof.
  destruct (b2a_base64_body s) as (body & pads & Heq & Hbody & Hpads & Hlen & Hplen).
  unfold urlsafe_b64encode, b64encode, translate2. rewrite Heq, map_app.
  eexists _, pads. split; [f_equal|].
  - rewrite <- (map_id pads) at 2. apply map_ext_in. intros c Hc.
    rewrite Forall_forall in Hpads. rewrite (Hpads c) by (by apply list_elem_of_In).
    reflexivity.
  - split; [|by rewrite length_map].
    rewrite forallb_forall. intros x (c & <- & Hc)%in_map_iff.
    rewrite forallb_forall in Hbody. by apply translated_symbol_urlsafe, Hbody.
Qed.

Lemma filter_not_pad body pads :
  forallb is_urlsafe body = true ->
  Forall (fun c => c = BASE64_PAD) pads ->
  filter (fun c => c <> BASE64_PAD) (body ++ pads) = body.
Proof.
  intros Hbody Hpads. rewrite filter_app.
  replace (filter _ pads) with (@nil ascii).
  - rewrite app_nil_r. induction body as [|c body IH]; [done|].
    cbn [forallb] in Hbody. apply andb_true_iff in Hbody as [Hc Hbody].
    rewrite filter_cons_True by (by apply urlsafe_not_pad).
    by rewrite IH.
  - symmetry. induction Hpads as [|c pads -> _ IH]; [done|].
    by rewrite filter_cons_False by (by intros []).
Qed.

Lemma rstrip_pad body pads :
  forallb is_urlsafe body = true ->
  Forall (fun c => c = BASE64_PAD) pads ->
  rstrip (B "=") (body ++ pads) = body.
Proof.
  intros Hbody Hpads. apply rstrip_app_all.
  - rewrite forallb_forall. intros c Hc. rewrite forallb_forall in Hbody.
    specialize (Hbody c Hc). clear Hc. revert c Hbody. each_char.
  - rewrite forallb_forall. intros c Hc. rewrite Forall_forall in Hpads.
    by rewrite (Hpads c) by (by apply list_elem_of_In).
Qed.

Lemma map_chr_ord (s : bytes) : map chr (map ord s) = s.
Proof. rewrite map_map. rewrite <- (map_id s) at 2. apply map_ext. apply chr_ord. Qed.

Lemma urlsafe_text body :
  forallb is_urlsafe body = true ->
  forallb (fun c => contains c (map ord urlsafe_alphabet)) (map ord body) = true
  /\ forallb (fun c => contains c (map ord _ALWAYS_SAFE_BYTES)) (map ord body) = true.
Proof.
  intros Hbody. rewrite forallb_forall in Hbody.
  split; rewrite forallb_forall; intros n (c & <- & Hc)%in_map_iff;
    by apply urlsafe_unreserved, Hbody.
Qed.

(** The challenge: 43 characters of the URL-safe alphabet, which
    [quote_plus] leaves as they are. *)
Lemma derive_challenge_text verifier :
  length (derive_challenge verifier) = 43%nat
  /\ forallb (fun c => contains c (map ord urlsafe_alphabet)) (derive_challenge verifier)
     = true
  /\ quote_plus (VStr (derive_challenge verifier)) [] = Ok (derive_challenge verifier).
Proof.
  unfold derive_challenge.
  destruct (urlsafe_b64encode_body (SHA256.hash verifier))
    as (body & pads & -> & Hbody & Hpads & Hblen & _).
  rewrite filter_not_pad by done. rewrite hash_length in Hblen.
  split; [by rewrite length_map|].
  split; [by apply urlsafe_text|by apply quote_plus_safe, urlsafe_text].
Qed.

(** ** Extra properties: the verifier *)

(** X2. For a length [n] that is a size of a byte string, from 0 to
    [PY_SSIZE_T_MAX - PyBytesObject_SIZE], the verifier is text of the
    URL-safe alphabet followed by padding: [ceil(8n/6)] characters among
    [A-Z a-z 0-9 - _], then ["="] up to a multiple of four, all of them
    7-bit; with the length 32 that [get_auth_jwt] asks for, 43 characters
    and one ["="]. *)
Theorem generate_byte_string_alphabet (length : Z) (w : world) :
  (0 <= length <= PY_SSIZE_T_MAX - PyBytesObject_SIZE)%Z ->
  exists body pads w',
    generate_byte_string length w = (Ok (body ++ pads), w')
    /\ forallb is_urlsafe body = true
    /\ Forall (fun c => c = BASE64_PAD) pads
    /\ Datatypes.length body = ((4 * Z.to_nat length + 2) / 3)%nat
    /\ Datatypes.length pads = ((3 - Z.to_nat length mod 3) mod 3)%nat
    /\ forallb (fun c => ord c <? 0x80) (body ++ pads) = true
    /\ (length = 32%Z -> Datatypes.length body = 43%nat /\ pads = [BASE64_PAD]).
Proof.
  intros Hlen. unfold PY_SSIZE_T_MAX, PyBytesObject_SIZE in Hlen.
  destruct (os_urandom_draws length w) as (w' & Hrun & _); [lia|].
  set (random := map (urandom w) (seq (drawn w) (Z.to_nat length))) in *.
  assert (Hsize : Datatypes.length random = Z.to_nat length)
    by (unfold random; by rewrite length_map, length_seq).
  destruct (urlsafe_b64encode_body random)
    as (body & pads & Heq & Hbody & Hpads & Hblen & Hplen).
  rewrite Hsize in Hblen, Hplen.
  exists body, pads, w'. split; [|split; [done|split; [done|split; [done|split; [done|split]]]]].
  - unfold generate_byte_string, token_bytes, mbind, M_bind.
    rewrite Hrun. cbn [mret M_ret]. by rewrite Heq.
  - rewrite <- Heq. apply urlsafe_b64encode_7bit.
  - intros ->. rewrite Hblen. split; [reflexivity|].
    change (Z.to_nat 32) with 32%nat in Hplen.
    destruct pads as [|c [|? ?]]; try discriminate Hplen.
    by apply Forall_inv in Hpads as ->.
Qed.

Lemma generate_byte_string_alphabet_witness :
  exists body pads w',
    generate_byte_string 32 (example_world [] (example_response 200 "OK" "{}"))
      = (Ok (body ++ pads), w')
    /\ forallb is_urlsafe body = true
    /\ Datatypes.length body = 43%nat /\ pads = [BASE64_PAD].
Proof.
  destruct (generate_byte_string_alphabet 32
              (example_world [] (example_response 200 "OK" "{}")))
    as (body & pads & w' & Hrun & Hbody & _ & _ & _ & _ & Hdefault);
    [unfold PY_SSIZE_T_MAX, PyBytesObject_SIZE; lia|].
  exists body, pads, w'. destruct (Hdefault eq_refl). auto.
Defined.

(** X3. The verifier determines the random bytes it was made of: two calls
    that return the same verifier, in whatever worlds and for whatever
    lengths, drew the same bytes (and so the same number of them). *)
Theorem generate_byte_string_injective (length1 length2 : Z) (w1 w1' w2 w2' : world)
    (verifier : bytes) :
  generate_byte_string length1 w1 = (Ok verifier, w1') ->
  generate_byte_string length2 w2 = (Ok verifier, w2') ->
  map (urandom w1) (seq (drawn w1) (Z.to_nat length1))
  = map (urandom w2) (seq (drawn w2) (Z.to_nat length2))
  /\ length1 = length2.
Proof.
  unfold generate_byte_string, token_bytes, mbind, M_bind, os_urandom.
  destruct ((length1 <? PY_SSIZE_T_MIN) || (PY_SSIZE_T_MAX <? length1))%Z;
    [discriminate|].
  destruct (Z.ltb_spec length1 0) as [|Hpos1]; [discriminate|].
  destruct (PY_SSIZE_T_MAX - PyBytesObject_SIZE <? length1)%Z; [discriminate|].
  destruct ((length2 <? PY_SSIZE_T_MIN) || (PY_SSIZE_T_MAX <? length2))%Z;
    [discriminate|].
  destruct (Z.ltb_spec length2 0) as [|Hpos2]; [discriminate|].
  destruct (PY_SSIZE_T_MAX - PyBytesObject_SIZE <? length2)%Z; [discriminate|].
  cbn [mret M_ret]. intros [= <- _] [= Heq _].
  assert (Hbytes : map (urandom w1) (seq (drawn w1) (Z.to_nat length1))
                   = map (urandom w2) (seq (drawn w2) (Z.to_nat length2))).
  { assert (Hdec := urlsafe_b64decode_b64encode
                      (map (urandom w2) (seq (drawn w2) (Z.to_nat length2)))).
    rewrite Heq, urlsafe_b64decode_b64encode in Hdec. by injection Hdec. }
  split; [exact Hbytes|].
  apply (f_equal Datatypes.length) in Hbytes.
  rewrite !length_map, !length_seq in Hbytes. lia.
Qed.

Lemma generate_byte_string_injective_witness :
  let w := example_world [] (example_response 200 "OK" "{}") in
  map (urandom w) (seq (drawn w) (Z.to_nat 32))
  = map (urandom w) (seq (drawn w) (Z.to_nat 32))
  /\ 32%Z = 32%Z.
Proof.
  intros w.
  exact (generate_byte_string_injective 32 32 w (snd (generate_byte_string 32 w))
           w (snd (generate_byte_string 32 w))
           (urlsafe_b64encode (map (urandom w) (seq (drawn w) 32)))
           eq_refl eq_refl).
Defined.

(** ** Extra properties: the challenge *)

(** X4. The challenge of any verifier is exactly 43 characters of the
    URL-safe alphabet, and [quote_plus] leaves it as it is: it appears in
    the authorization URL letter for letter. *)
Theorem generate_challenge_shape (verifier : bytes) :
  exists challenge,
    generate_challenge verifier = Ok challenge
    /\ length challenge = 43%nat
    /\ forallb (fun c => contains c (map ord urlsafe_alphabet)) challenge = true
    /\ quote_plus (VStr challenge) [] = Ok challenge.
Proof.
  exists (derive_challenge verifier). split; [apply generate_challenge_ok|].
  apply derive_challenge_text.
Qed.

(** ** Extra properties: the state token *)

(** X5. Importing the module always succeeds and sets [STATE] to 43
    characters of the URL-safe alphabet, without padding, which
    [quote_plus] leaves as they are; it draws 32 random bytes, writes no
    event, and the token with its ["="] back decodes to those bytes. *)
Theorem import_authorize_token (w0 : world) :
  exists st w1,
    import_authorize w0 = (Ok tt, w1)
    /\ global_STATE w1 = Some st
    /\ length st = 43%nat
    /\ forallb (fun c => contains c (map ord urlsafe_alphabet)) st = true
    /\ quote_plus (VStr st) [] = Ok st
    /\ urlsafe_b64decode (map chr st ++ B "=")
       = Ok (map (urandom w0) (seq (drawn w0) 32))
    /\ drawn w1 = (drawn w0 + 32)%nat
    /\ trace w1 = trace w0.
Proof.
  destruct (import_authorize_run w0) as (w1 & Hrun & Hst & Hdrawn & Htrace).
  exists (token_of w0), w1. split; [done|]. split; [done|].
  assert (Hdec := urlsafe_b64decode_b64encode (map (urandom w0) (seq (drawn w0) 32))).
  unfold token_of.
  destruct (urlsafe_b64encode_body (map (urandom w0) (seq (drawn w0) 32)))
    as (body & pads & Heq & Hbody & Hpads & Hblen & Hplen).
  rewrite length_map, length_seq in Hblen, Hplen.
  rewrite Heq in Hdec |- *. rewrite rstrip_pad by done.
  assert (Hone : pads = B "=").
  { destruct pads as [|c [|? ?]]; try discriminate Hplen.
    by apply Forall_inv in Hpads as ->. }
  rewrite Hone in Hdec.
  split; [by rewrite length_map|].
  split; [by apply urlsafe_text|].
  split; [by apply quote_plus_safe, urlsafe_text|].
  by rewrite map_chr_ord.
Qed.

(** ** Encoding the authorization request *)

Lemma utf8_encode_raises s :
  forallb encodable s = false ->
  utf8_encode s = Raise (UnicodeEncodeError (U "surrogates not allowed")).
Proof.
  induction s as [|c s IH]; [discriminate|]. cbn [forallb utf8_encode].
  destruct (encodable c); [|done]. cbn [andb]. intros Hs. by rewrite IH.
Qed.

Lemma quote_plus_raises s :
  forallb encodable s = false ->
  quote_plus (VStr s) [] = Raise (UnicodeEncodeError (U "surrogates not allowed")).
Proof.
  intros Hs. unfold quote_plus, quote.
  destruct s as [|c s]; [discriminate|].
  rewrite (utf8_encode_raises _ Hs). by destruct (negb _).
Qed.

(** [quote_plus] on text: the quoted text, from which [parse_qsl] gets the
    text back, or the error of the encoder. *)
Lemma quote_plus_outcome s :
  match quote_plus (VStr s) [] with
  | Ok t => forallb encodable s = true /\ unquote_plus t = s
            /\ forallb is_quoted t = true /\ (s <> [] -> t <> [])
  | Raise e => forallb encodable s = false
               /\ e = UnicodeEncodeError (U "surrogates not allowed")
  end.
Proof.
  destruct (forallb encodable s) eqn:Hs.
  - destruct (quote_plus_unquote s Hs) as (t & -> & Hback & Hchars & Hne). done.
  - by rewrite quote_plus_raises.
Qed.

(** The items [urlencode] writes for text values. *)
Lemma urlencode_items_text (pairs : list (str * str)) :
  match urlencode_items (map (fun p => (p.1, VStr p.2)) pairs) with
  | Ok l =>
      Forall2 (fun p f => exists k v,
                 f = k ++ U "=" ++ v
                 /\ quote_plus (VStr p.1) [] = Ok k
                 /\ quote_plus (VStr p.2) [] = Ok v) pairs l
  | Raise e =>
      forallb (fun p => forallb encodable p.1 && forallb encodable p.2) pairs = false
      /\ e = UnicodeEncodeError (U "surrogates not allowed")
  end.
Proof.
  induction pairs as [|[k v] pairs IH]; [constructor|].
  cbn [map urlencode_items fst snd forallb].
  pose proof (quote_plus_outcome k) as Hk. pose proof (quote_plus_outcome v) as Hv.
  destruct (quote_plus (VStr k) []) as [k'|e] eqn:Hqk; cbn [mbind result_bind].
  2:{ destruct Hk as [-> ->]. done. }
  unfold mbind at 1, result_bind at 1.
  destruct (quote_plus (VStr v) []) as [v'|e] eqn:Hqv.
  2:{ destruct Hv as [-> ->]. by rewrite andb_false_r. }
  unfold mbind at 1, result_bind at 1.
  destruct (urlencode_items _) as [l|e].
  - constructor; [|exact IH]. by exists k', v'.
  - destruct IH as [-> ->]. by rewrite andb_false_r.
Qed.

Lemma separated_inj {A} `{EqDecision A} (sep : A) x a y c :
  sep ∉ x -> sep ∉ y -> x ++ sep :: a = y ++ sep :: c -> x = y /\ a = c.
Proof.
  intros Hx Hy Heq.
  assert (Hp := partition_app_sep sep x a Hx). rewrite Heq in Hp.
  rewrite (partition_app_sep sep y c Hy) in Hp. by injection Hp.
Qed.

Lemma is_quoted_no_amp t : forallb is_quoted t = true -> ord "&" ∉ t.
Proof.
  intros Ht. apply forallb_is_quoted_absent; [done|].
  apply list_elem_of_In; cbn; auto.
Qed.

Section AuthorizationUrlFacts.
Context `{Const}.

(** The URL [build_auth_url] returns, whenever it returns one. *)
Lemma build_auth_url_run client_id scope callback_url code_verifier w st :
  global_STATE w = Some st ->
  build_auth_url client_id scope callback_url code_verifier w
  = (q ← urlencode (authorization_request client_id scope callback_url
                      (derive_challenge code_verifier) st);
     Ok (AUTH_URL ++ U "?" ++ q), w).
Proof.
  intros Hst. unfold build_auth_url, mbind at 1, M_bind at 1, lift at 1.
  rewrite generate_challenge_ok.
  unfold mbind at 1, M_bind at 1, STATE at 1. rewrite Hst.
  unfold mbind at 1, M_bind at 1, lift at 1.
  change (urlencode _) with
    (urlencode (authorization_request client_id scope callback_url
                  (derive_challenge code_verifier) st)).
  by destruct (urlencode _).
Qed.

Lemma build_auth_url_unset client_id scope callback_url code_verifier w :
  global_STATE w = None ->
  build_auth_url client_id scope callback_url code_verifier w
  = (Raise (NameError (U "name 'STATE' is not defined")), w).
Proof.
  intros Hst. unfold build_auth_url, mbind at 1, M_bind at 1, lift at 1.
  rewrite generate_challenge_ok.
  unfold mbind at 1, M_bind at 1, STATE at 1. by rewrite Hst.
Qed.

End AuthorizationUrlFacts.

(** The query of the authorization request, field by field. *)
Lemma urlencode_request_outcome client_id scope callback_url code_verifier st :
  match urlencode (authorization_request client_id scope callback_url
                     (derive_challenge code_verifier) st) with
  | Ok q =>
      exists rd ci sc t,
        quote_plus (VStr callback_url) [] = Ok rd
        /\ quote_plus (VStr client_id) [] = Ok ci
        /\ quote_plus (VStr scope) [] = Ok sc
        /\ quote_plus (VStr st) [] = Ok t
        /\ q = query_of [(U "response_type", U "code"); (U "redirect_uri", rd);
                         (U "client_id", ci); (U "scope", sc);
                         (U "code_challenge", derive_challenge code_verifier);
                         (U "code_challenge_method", U "S256"); (U "state", t)]
  | Raise e =>
      forallb encodable callback_url && forallb encodable client_id
        && forallb encodable scope && forallb encodable st = false
      /\ e = UnicodeEncodeError (U "surrogates not allowed")
  end.
Proof.
  pose proof (urlencode_items_text
    [(U "response_type", U "code"); (U "redirect_uri", callback_url);
     (U "client_id", client_id); (U "scope", scope);
     (U "code_challenge", derive_challenge code_verifier);
     (U "code_challenge_method", U "S256"); (U "state", st)]) as Hitems.
  unfold urlencode, authorization_request.
  cbn [map fst snd] in Hitems.
  destruct (urlencode_items _) as [l|e]; cbn [mbind result_bind].
  - repeat match type of Hitems with
           | Forall2 _ (_ :: _) _ =>
               apply Forall2_cons_inv_l in Hitems
                 as (? & ? & (? & ? & -> & ? & ?) & Hitems & ->)
           end.
    apply Forall2_nil_inv_l in Hitems as ->.
    cbn [fst snd] in *.
    repeat match goal with
           | Hq : quote_plus (VStr (U _)) [] = Ok _ |- _ =>
               vm_compute in Hq; injection Hq as <-
           end.
    destruct (derive_challenge_text code_verifier) as (_ & _ & Hquote).
    match goal with
    | Hq : quote_plus (VStr (derive_challenge _)) [] = Ok _ |- _ =>
        rewrite Hquote in Hq; injection Hq as <-
    end.
    eauto 10.
  - destruct Hitems as [Hfalse ->]. split; [|done].
    cbn [forallb fst snd] in Hfalse.
    destruct (derive_challenge_sendable code_verifier) as [_ Hch]. rewrite Hch in Hfalse.
    change (forallb encodable (U "response_type")) with true in Hfalse.
    change (forallb encodable (U "code")) with true in Hfalse.
    change (forallb encodable (U "redirect_uri")) with true in Hfalse.
    change (forallb encodable (U "client_id")) with true in Hfalse.
    change (forallb encodable (U "scope")) with true in Hfalse.
    change (forallb encodable (U "code_challenge")) with true in Hfalse.
    change (forallb encodable (U "code_challenge_method")) with true in Hfalse.
    change (forallb encodable (U "S256")) with true in Hfalse.
    change (forallb encodable (U "state")) with true in Hfalse.
    cbn [andb] in Hfalse. rewrite !andb_true_r in Hfalse.
    destruct (forallb encodable callback_url); [|done].
    destruct (forallb encodable client_id); [|done].
    destruct (forallb encodable scope); [|done]. done.
Qed.

(** ** Extra properties: the authorization URL *)

Section AuthorizationUrlExtras.
Context `{Const}.

(** X6. Whatever the client id, the scope and the redirect URI hold (also
    ["&"], ["="], ["#"], blanks or nothing at all), a URL that
    [build_auth_url] returns is [AUTH_URL], ["?"] and exactly seven fields
    in the order of the source; each value is the [quote_plus] text of the
    input, made of unreserved characters, ["%"] and ["+"] only, from which
    unquoting gives the input back; the world is left as it was. *)
Theorem build_auth_url_layout client_id scope callback_url code_verifier w w' auth_url :
  build_auth_url client_id scope callback_url code_verifier w = (Ok auth_url, w') ->
  exists st rd ci sc t,
    w' = w /\ global_STATE w = Some st
    /\ auth_url = AUTH_URL ++ U "?"
         ++ query_of [(U "response_type", U "code"); (U "redirect_uri", rd);
                      (U "client_id", ci); (U "scope", sc);
                      (U "code_challenge", derive_challenge code_verifier);
                      (U "code_challenge_method", U "S256"); (U "state", t)]
    /\ Forall2 (fun input quoted =>
                  quote_plus (VStr input) [] = Ok quoted
                  /\ forallb is_quoted quoted = true
                  /\ unquote_plus quoted = input)
         [callback_url; client_id; scope; st] [rd; ci; sc; t]
    /\ length (split (ord "&") (drop (length AUTH_URL + 1) auth_url)) = 7%nat.
Proof.
  intros Hrun. destruct (global_STATE w) as [st|] eqn:Hst.
  2:{ rewrite build_auth_url_unset in Hrun by done. discriminate Hrun. }
  rewrite (build_auth_url_run _ _ _ _ _ _ Hst) in Hrun.
  pose proof (urlencode_request_outcome client_id scope callback_url code_verifier st)
    as Hq.
  destruct (urlencode _) as [q|e]; [|discriminate Hrun].
  cbn [mbind result_bind] in Hrun. injection Hrun as <- <-.
  destruct Hq as (rd & ci & sc & t & Hrd & Hci & Hsc & Ht & ->).
  pose proof (quote_plus_outcome callback_url) as Ord. rewrite Hrd in Ord.
  pose proof (quote_plus_outcome client_id) as Oci. rewrite Hci in Oci.
  pose proof (quote_plus_outcome scope) as Osc. rewrite Hsc in Osc.
  pose proof (quote_plus_outcome st) as Ot. rewrite Ht in Ot.
  destruct Ord as (_ & ? & Qrd & _), Oci as (_ & ? & Qci & _),
    Osc as (_ & ? & Qsc & _), Ot as (_ & ? & Qt & _).
  exists st, rd, ci, sc, t. split; [done|]. split; [done|]. split; [done|].
  split; [by repeat constructor|].
  rewrite cons_middle, app_assoc, drop_app_length'
    by (rewrite length_app; cbn [length]; lia).
  unfold query_of. change (U "&") with [ord "&"]. rewrite split_join.
  - reflexivity.
  - discriminate.
  - destruct (derive_challenge_text code_verifier) as (_ & _ & Hquote).
    pose proof (quote_plus_outcome (derive_challenge code_verifier)) as Och.
    rewrite Hquote in Och. destruct Och as (_ & _ & Qch & _).
    repeat (apply Forall_cons; split;
      [unfold field; cbn [fst snd];
       rewrite !not_elem_of_app; repeat split;
       first [by apply is_quoted_no_amp
             | vm_compute; intros Hin;
               repeat (apply elem_of_cons in Hin as [Hin|Hin]; [discriminate|]);
               by apply elem_of_nil in Hin]|]).
    constructor.
Qed.

(** X7. With [STATE] set, [build_auth_url] returns a URL exactly when the
    redirect URI, the client id, the scope and the state are text that
    UTF-8 encodes (no lone surrogate); otherwise it raises
    [UnicodeEncodeError]. In both cases it leaves the world as it was: it
    draws no random bytes and writes no event. *)
Theorem build_auth_url_succeeds_iff client_id scope callback_url code_verifier w st :
  global_STATE w = Some st ->
  let run := build_auth_url client_id scope callback_url code_verifier w in
  let encodes :=
    forallb encodable callback_url && forallb encodable client_id
      && forallb encodable scope && forallb encodable st in
  snd run = w
  /\ (encodes = true <-> exists auth_url, fst run = Ok auth_url)
  /\ (encodes = false <-> exists reason, fst run = Raise (UnicodeEncodeError reason)).
Proof.
  intros Hst run encodes. unfold run.
  rewrite (build_auth_url_run _ _ _ _ _ _ Hst). cbn [fst snd].
  pose proof (urlencode_request_outcome client_id scope callback_url code_verifier st)
    as Hq.
  destruct (urlencode _) as [q|e]; cbn [mbind result_bind].
  - destruct Hq as (rd & ci & sc & t & Hrd & Hci & Hsc & Ht & ->).
    pose proof (quote_plus_outcome callback_url) as Ord. rewrite Hrd in Ord.
    pose proof (quote_plus_outcome client_id) as Oci. rewrite Hci in Oci.
    pose proof (quote_plus_outcome scope) as Osc. rewrite Hsc in Osc.
    pose proof (quote_plus_outcome st) as Ot. rewrite Ht in Ot.
    assert (Henc : encodes = true).
    { unfold encodes. destruct Ord as [-> _], Oci as [-> _], Osc as [-> _], Ot as [-> _].
      reflexivity. }
    split; [done|]. rewrite Henc. split; split; try done; eauto.
    intros [reason Hbad]. discriminate Hbad.
  - destruct Hq as [Henc ->]. fold encodes in Henc. rewrite Henc.
    split; [done|]. split; split; try done; eauto.
    intros [auth_url Hbad]. discriminate Hbad.
Qed.

(** X8. The URL determines what it was built from: two calls of
    [build_auth_url] that return the same URL were given the same client
    id, scope and redirect URI, verifiers with the same challenge, and ran
    with the same [STATE]. *)
Theorem build_auth_url_injective
    client_id1 scope1 callback_url1 code_verifier1 w1 w1'
    client_id2 scope2 callback_url2 code_verifier2 w2 w2' auth_url :
  build_auth_url client_id1 scope1 callback_url1 code_verifier1 w1 = (Ok auth_url, w1') ->
  build_auth_url client_id2 scope2 callback_url2 code_verifier2 w2 = (Ok auth_url, w2') ->
  client_id1 = client_id2 /\ scope1 = scope2 /\ callback_url1 = callback_url2
  /\ derive_challenge code_verifier1 = derive_challenge code_verifier2
  /\ global_STATE w1 = global_STATE w2.
Proof.
  intros Hrun1 Hrun2.
  destruct (global_STATE w1) as [st1|] eqn:Hst1.
  2:{ rewrite build_auth_url_unset in Hrun1 by done. discriminate Hrun1. }
  destruct (global_STATE w2) as [st2|] eqn:Hst2.
  2:{ rewrite build_auth_url_unset in Hrun2 by done. discriminate Hrun2. }
  rewrite (build_auth_url_run _ _ _ _ _ _ Hst1) in Hrun1.
  rewrite (build_auth_url_run _ _ _ _ _ _ Hst2) in Hrun2.
  pose proof (urlencode_request_outcome client_id1 scope1 callback_url1
                code_verifier1 st1) as Hq1.
  pose proof (urlencode_request_outcome client_id2 scope2 callback_url2
                code_verifier2 st2) as Hq2.
  destruct (urlencode _) as [q1|e]; [|discriminate Hrun1].
  destruct (urlencode _) as [q2|e]; [|discriminate Hrun2].
  cbn [mbind result_bind] in Hrun1, Hrun2.
  injection Hrun1 as <- _. injection Hrun2 as Heq _.
  apply app_inv_head in Heq.
  destruct Hq1 as (rd1 & ci1 & sc1 & t1 & Hrd1 & Hci1 & Hsc1 & Ht1 & ->).
  destruct Hq2 as (rd2 & ci2 & sc2 & t2 & Hrd2 & Hci2 & Hsc2 & Ht2 & ->).
  pose proof (quote_plus_outcome callback_url1) as Ord1. rewrite Hrd1 in Ord1.
  pose proof (quote_plus_outcome client_id1) as Oci1. rewrite Hci1 in Oci1.
  pose proof (quote_plus_outcome scope1) as Osc1. rewrite Hsc1 in Osc1.
  pose proof (quote_plus_outcome st1) as Ot1. rewrite Ht1 in Ot1.
  pose proof (quote_plus_outcome callback_url2) as Ord2. rewrite Hrd2 in Ord2.
  pose proof (quote_plus_outcome client_id2) as Oci2. rewrite Hci2 in Oci2.
  pose proof (quote_plus_outcome scope2) as Osc2. rewrite Hsc2 in Osc2.
  pose proof (quote_plus_outcome st2) as Ot2. rewrite Ht2 in Ot2.
  destruct Ord1 as (_ & Urd1 & Qrd1 & _), Oci1 as (_ & Uci1 & Qci1 & _),
    Osc1 as (_ & Usc1 & Qsc1 & _), Ot1 as (_ & Ut1 & Qt1 & _).
  destruct Ord2 as (_ & Urd2 & Qrd2 & _), Oci2 as (_ & Uci2 & Qci2 & _),
    Osc2 as (_ & Usc2 & Qsc2 & _), Ot2 as (_ & Ut2 & Qt2 & _).
  assert (Hch : forall v, ord "&" ∉ derive_challenge v).
  { intros v. destruct (derive_challenge_text v) as (_ & _ & Hquote).
    pose proof (quote_plus_outcome (derive_challenge v)) as Och.
    rewrite Hquote in Och. destruct Och as (_ & _ & Qch & _).
    by apply is_quoted_no_amp. }
  unfold query_of, field in Heq. cbn [map join fst snd] in Heq.
  injection Heq as Heq.
  change (U "response_type" ++ U "=" ++ U "code" ++ U "&" ++ ?x)
    with (U "response_type=code&" ++ x) in Heq.
  repeat rewrite <- ?app_assoc, ?(app_assoc _ _ (U "=" ++ _)) in Heq.
  cbn [app U map list_ascii_of_string N_of_ascii N_of_digits] in Heq.
  repeat (injection Heq as Heq).
  apply separated_inj in Heq as [<- Heq]; [|by apply is_quoted_no_amp..].
  repeat (injection Heq as Heq).
  apply separated_inj in Heq as [<- Heq]; [|by apply is_quoted_no_amp..].
  repeat (injection Heq as Heq).
  apply separated_inj in Heq as [<- Heq]; [|by apply is_quoted_no_amp..].
  repeat (injection Heq as Heq).
  apply separated_inj in Heq as [Hchallenge Heq]; [|by apply Hch..].
  repeat (injection Heq as Heq). subst t2.
  split; [congruence|]. split; [congruence|]. split; [congruence|].
  split; [done|]. congruence.
Qed.

End AuthorizationUrlExtras.

(** ** Splitting the redirect URL *)

Lemma Forall_ne_not_elem_of {A} (x : A) (s : list A) :
  Forall (fun c => c <> x) s <-> x ∉ s.
Proof.
  rewrite Forall_forall. split.
  - intros Hs Hin. by apply (Hs x).
  - intros Hx c Hc ->. done.
Qed.

Section ReplaceFacts.
Context {A : Type} `{EqDecision A}.

Lemma replace_cons_eq (old : A) s : replace old [] (old :: s) = replace old [] s.
Proof. unfold replace. cbn [flat_map]. by rewrite decide_True. Qed.

Lemma replace_cons_ne (old c : A) s :
  c <> old -> replace old [] (c :: s) = c :: replace old [] s.
Proof. intros Hc. unfold replace. cbn [flat_map]. by rewrite decide_False. Qed.

End ReplaceFacts.

Section UrlsplitStages.
Context `{Library}.

(** What [urlsplit] cuts off in front keeps a property of all characters. *)
Lemma urlsplit_scheme_Forall (P : N -> Prop) url s rest :
  Forall P url -> urlsplit_scheme url = (s, rest) -> Forall P rest.
Proof.
  intros Hurl. unfold urlsplit_scheme.
  destruct (partition (ord ":") url) as [[head found] tail] eqn:Hpart.
  destruct found.
  - apply partition_found in Hpart as [Heq _]. destruct head as [|c head].
    + by intros [= <- <-].
    + destruct (is_ascii_alpha c && forallb _ (c :: head)).
      * intros [= <- <-]. rewrite Heq in Hurl.
        apply Forall_app in Hurl as [_ Ht]. by apply Forall_cons in Ht as [_ Ht].
      * by intros [= <- <-].
  - intros Hs. assert (Hres : (s, rest) = ([], url)) by (by destruct head).
    by injection Hres as -> ->.
Qed.

Lemma urlsplit_netloc_Forall (P : N -> Prop) url n rest :
  Forall P url -> urlsplit_netloc url = Ok (n, rest) -> Forall P rest.
Proof.
  intros Hurl. unfold urlsplit_netloc, _splitnetloc.
  destruct (bool_decide (take 2 url = U "//")); [|by intros [= <- <-]].
  destruct (span _ (drop 2 url)) as [n' rest'] eqn:Hspan.
  assert (Hrest : Forall P rest').
  { eapply span_Forall; [|exact Hspan]. by apply Forall_drop. }
  destruct ((contains (ord "[") n' && negb (contains (ord "]") n'))
            || (contains (ord "]") n' && negb (contains (ord "[") n'))); [done|].
  destruct (contains (ord "[") n' && contains (ord "]") n').
  - unfold mbind, result_bind. destruct (_check_bracketed_netloc n'); [|done].
    by intros [= <- <-].
  - by intros [= <- <-].
Qed.

(** A URL without ["?"] has no query. *)
Lemma urlsplit_no_query url r :
  ord "?" ∉ url -> urlsplit url = Ok r -> split_query r = [].
Proof.
  intros Hurl%Forall_ne_not_elem_of. unfold urlsplit.
  pose proof (urlsplit_clean_Forall _ _ Hurl) as Hclean.
  destruct (urlsplit_scheme (urlsplit_clean url)) as [s url1] eqn:Hscheme.
  pose proof (urlsplit_scheme_Forall _ _ _ _ Hclean Hscheme) as Hurl1.
  unfold mbind at 1, result_bind at 1.
  destruct (urlsplit_netloc url1) as [[n url2]|e] eqn:Hnetloc; [|done].
  pose proof (urlsplit_netloc_Forall _ _ _ _ Hurl1 Hnetloc) as Hurl2.
  unfold urlsplit_fragment.
  destruct (partition (ord "#") url2) as [[url3 found] frag] eqn:Hfrag.
  assert (Hurl3 : Forall (fun c => c <> ord "?") (if found then url3 else url2)).
  { destruct found; [|done]. apply partition_found in Hfrag as [-> _].
    by apply Forall_app in Hurl2 as [? _]. }
  assert (Hquery : forall u, Forall (fun c => c <> ord "?") u ->
            urlsplit_query u = (u, [])).
  { intros u Hu%Forall_ne_not_elem_of. unfold urlsplit_query.
    by rewrite partition_absent. }
  unfold mbind, result_bind.
  destruct found; rewrite (Hquery _ Hurl3); destruct (_checknetloc n);
    try done; by intros [= <-].
Qed.

(** The text after the first ["#"] only reaches the fragment. *)
Lemma urlsplit_clean_fragment url frag :
  exists frag',
    urlsplit_clean (url ++ ord "#" :: frag) = urlsplit_clean url ++ ord "#" :: frag'.
Proof.
  unfold urlsplit_clean.
  rewrite lstrip_app_stop by (vm_compute; reflexivity).
  cbn [fold_left _UNSAFE_URL_BYTES_TO_REMOVE].
  rewrite !replace_app. eexists. f_equal.
Qed.

Lemma urlsplit_scheme_fragment url q s rest :
  ord "#" ∉ url ->
  urlsplit_scheme url = (s, rest) ->
  urlsplit_scheme (url ++ ord "#" :: q) = (s, rest ++ ord "#" :: q)
  /\ ord "#" ∉ rest.
Proof.
  intros Hurl. unfold urlsplit_scheme.
  destruct (partition (ord ":") url) as [[head found] tail] eqn:Hpart.
  destruct found.
  - apply partition_found in Hpart as [-> Hhead].
    rewrite partition_app_found by done.
    destruct head as [|c head].
    + by intros [= <- <-].
    + destruct (is_ascii_alpha c && forallb _ (c :: head)).
      * intros [= <- <-]. split; [done|].
        apply not_elem_of_app in Hurl as [_ Ht]. by apply not_elem_of_cons in Ht as [_ Ht].
      * by intros [= <- <-].
  - intros Hs.
    assert (Hres : (s, rest) = ([], url)) by (by destruct head).
    injection Hres as -> ->. split; [|done].
    apply partition_not_found in Hpart.
    rewrite partition_app_absent by done.
    cbn [partition]. rewrite decide_False by discriminate.
    destruct (partition (ord ":") q) as [[x found] y].
    destruct found; [|by destruct (url ++ ord "#" :: x)].
    destruct (url ++ ord "#" :: x) as [|c longer] eqn:Hhead; [done|].
    assert (Hno : forallb (fun c => contains c scheme_chars) (c :: longer) = false).
    { rewrite <- Hhead. rewrite forallb_app. cbn [forallb].
      replace (contains (ord "#") scheme_chars) with false by (vm_compute; reflexivity).
      by rewrite andb_false_r. }
    by rewrite Hno, andb_false_r.
Qed.

Lemma take2_fragment (url q : str) :
  bool_decide (take 2 (url ++ ord "#" :: q) = U "//")
  = bool_decide (take 2 url = U "//").
Proof.
  destruct url as [|a [|c url]]; [| |done].
  - apply bool_decide_ext. split; [|done]. destruct q; discriminate.
  - apply bool_decide_ext. split; [|done]. cbn. by intros [= -> ?].
Qed.

Lemma urlsplit_netloc_fragment url q :
  ord "#" ∉ url ->
  match urlsplit_netloc url with
  | Ok (n, rest) =>
      urlsplit_netloc (url ++ ord "#" :: q) = Ok (n, rest ++ ord "#" :: q)
      /\ ord "#" ∉ rest
  | Raise e => urlsplit_netloc (url ++ ord "#" :: q) = Raise e
  end.
Proof.
  intros Hurl. unfold urlsplit_netloc. rewrite take2_fragment.
  destruct (bool_decide (take 2 url = U "//")) eqn:Hslashes; [|done].
  unfold _splitnetloc.
  assert (Hdrop : drop 2 (url ++ ord "#" :: q) = drop 2 url ++ ord "#" :: q).
  { apply bool_decide_eq_true in Hslashes. by destruct url as [|a [|c url]]. }
  rewrite Hdrop.
  destruct (span _ (drop 2 url)) as [n rest] eqn:Hspan.
  assert (Hstop : negb (contains (ord "#") (U "/?#")) = false)
    by (vm_compute; reflexivity).
  rewrite (span_app_stop (fun c => negb (contains c (U "/?#"))) (drop 2 url)
             (ord "#") q n rest Hstop Hspan).
  assert (Hrest : ord "#" ∉ rest).
  { apply Forall_ne_not_elem_of. eapply span_Forall; [|exact Hspan].
    by apply Forall_drop, Forall_ne_not_elem_of. }
  destruct ((contains (ord "[") n && negb (contains (ord "]") n))
            || (contains (ord "]") n && negb (contains (ord "[") n))); [done|].
  destruct (contains (ord "[") n && contains (ord "]") n); [|done].
  unfold mbind, result_bind. by destruct (_check_bracketed_netloc n).
Qed.

Lemma urlsplit_fragment_appended url frag :
  ord "#" ∉ url ->
  match urlsplit url with
  | Ok r =>
      exists frag',
        urlsplit (url ++ ord "#" :: frag)
        = Ok {| split_scheme := split_scheme r; split_netloc := split_netloc r;
                split_path := split_path r; split_query := split_query r;
                split_fragment := frag' |}
  | Raise e => urlsplit (url ++ ord "#" :: frag) = Raise e
  end.
Proof.
  intros Hurl. unfold urlsplit.
  destruct (urlsplit_clean_fragment url frag) as [frag' ->].
  assert (Hclean : ord "#" ∉ urlsplit_clean url).
  { by apply Forall_ne_not_elem_of, urlsplit_clean_Forall, Forall_ne_not_elem_of. }
  destruct (urlsplit_scheme (urlsplit_clean url)) as [s url1] eqn:Hscheme.
  destruct (urlsplit_scheme_fragment _ frag' _ _ Hclean Hscheme) as [-> Hurl1].
  pose proof (urlsplit_netloc_fragment url1 frag' Hurl1) as Hnetloc.
  destruct (urlsplit_netloc url1) as [[n rest]|e].
  2:{ by rewrite Hnetloc. }
  destruct Hnetloc as [-> Hrest].
  unfold mbind, result_bind, urlsplit_fragment.
  rewrite (partition_absent (ord "#") rest) by done.
  rewrite partition_app_sep by done.
  destruct (urlsplit_query rest) as [path q].
  destruct (_checknetloc n); [|done]. by eexists.
Qed.

(** [urlsplit] sees a URL only through its cleaned text. *)
Lemma urlsplit_clean_eq url1 url2 :
  urlsplit_clean url1 = urlsplit_clean url2 -> urlsplit url1 = urlsplit url2.
Proof. intros Heq. unfold urlsplit. by rewrite Heq. Qed.

Lemma whitespace_contains c :
  c <= 0x20 -> contains c _WHATWG_C0_CONTROL_OR_SPACE = true.
Proof.
  intros Hc. apply bool_decide_eq_true. unfold _WHATWG_C0_CONTROL_OR_SPACE.
  apply list_elem_of_fmap. exists (N.to_nat c). split; [lia|].
  apply elem_of_seq. lia.
Qed.

Lemma removed_replace (c : N) (a b : str) :
  c ∈ _UNSAFE_URL_BYTES_TO_REMOVE ->
  fold_left (fun url c => replace c [] url) _UNSAFE_URL_BYTES_TO_REMOVE (a ++ c :: b)
  = fold_left (fun url c => replace c [] url) _UNSAFE_URL_BYTES_TO_REMOVE (a ++ b).
Proof.
  intros Hc. cbn [fold_left _UNSAFE_URL_BYTES_TO_REMOVE]. rewrite !replace_app.
  f_equal.
  repeat (apply elem_of_cons in Hc as [->|Hc];
          [by repeat first [rewrite replace_cons_eq
                           |rewrite replace_cons_ne by discriminate]|]).
  by apply elem_of_nil in Hc.
Qed.

Lemma urlsplit_clean_removed (c : N) (a b : str) :
  c ∈ _UNSAFE_URL_BYTES_TO_REMOVE ->
  urlsplit_clean (a ++ c :: b) = urlsplit_clean (a ++ b).
Proof.
  intros Hc. unfold urlsplit_clean.
  assert (Hws : contains c _WHATWG_C0_CONTROL_OR_SPACE = true).
  { repeat (apply elem_of_cons in Hc as [->|Hc]; [vm_compute; reflexivity|]).
    by apply elem_of_nil in Hc. }
  induction a as [|x a IH].
  - cbn [app lstrip]. by rewrite Hws.
  - cbn [app lstrip]. destruct (contains x _WHATWG_C0_CONTROL_OR_SPACE); [exact IH|].
    by apply (removed_replace c (x :: a) b).
Qed.

End UrlsplitStages.

(** ** Unquoted text is not empty *)

Lemma unquote_item_nonempty item : unquote_item item <> [].
Proof.
  unfold unquote_item. destruct item as [|h1 [|h2 rest]]; try done.
  by destruct (_hextobyte h1 h2).
Qed.

Lemma unquote_to_bytes_nonempty s : s <> [] -> unquote_to_bytes s <> [].
Proof.
  intros Hs. unfold unquote_to_bytes.
  destruct (split "%"%char s) as [|bits0 [|item bits]]; try done.
  cbn [map concat]. intros Hnil.
  apply app_eq_nil in Hnil as [_ Hnil]. apply app_eq_nil in Hnil as [Hnil _].
  by apply unquote_item_nonempty in Hnil.
Qed.

Lemma utf8_scan_nonempty s : s <> [] -> utf8_scan s <> [].
Proof.
  destruct s as [|c1 r1]; [done|]. intros _. cbn [utf8_scan].
  repeat case_match; done.
Qed.

Lemma utf8_decode_nonempty s : s <> [] -> utf8_decode s <> [].
Proof.
  intros Hs Hnil. apply (utf8_scan_nonempty s Hs).
  unfold utf8_decode in Hnil. by apply map_eq_nil in Hnil.
Qed.

(** The pieces of [_asciire.split]: an odd number of them, and text that
    is not empty either starts with a piece that is not empty or has a
    7-bit run that is not empty. *)
Lemma _asciire_split_shape s :
  exists bits0 bits,
    _asciire_split s = bits0 :: bits
    /\ Nat.Even (length bits)
    /\ (s <> [] -> bits0 <> [] \/ exists run rest, bits = run :: rest /\ run <> []).
Proof.
  induction s as [|c s (bits0 & bits & Heq & Heven & _)].
  - exists [], []. split; [done|]. split; [by exists 0%nat|done].
  - cbn [_asciire_split]. rewrite Heq. destruct (c <? 0x80).
    + destruct bits0 as [|x bits0].
      * destruct bits as [|run rest].
        -- eexists _, _. split; [reflexivity|]. split; [by exists 1%nat|].
           intros _. right. by eexists _, _.
        -- eexists _, _. split; [reflexivity|]. split; [done|].
           intros _. right. by eexists _, _.
      * eexists _, _. split; [reflexivity|]. split.
        -- cbn [length]. destruct Heven as [k Hk]. exists (S k). lia.
        -- intros _. right. by eexists _, _.
    + eexists _, _. split; [reflexivity|]. split; [done|]. intros _. by left.
Qed.

Lemma unquote_nonempty s : s <> [] -> unquote s <> [].
Proof.
  intros Hs. unfold unquote. destruct (negb _); [done|].
  destruct (_asciire_split_shape s) as (bits0 & bits & -> & Heven & Hne).
  destruct (Hne Hs) as [Hbits0|(run & rest & -> & Hrun)].
  - intros Hnil. by apply app_eq_nil in Hnil as [? _].
  - destruct rest as [|text rest].
    { destruct Heven as [k Hk]. cbn [length] in Hk. lia. }
    cbn [unquote_bits]. intros Hnil.
    apply app_eq_nil in Hnil as [_ Hnil]. apply app_eq_nil in Hnil as [Hnil _].
    revert Hnil. apply utf8_decode_nonempty, unquote_to_bytes_nonempty.
    by destruct run.
Qed.

Lemma replace_plus_nonempty (s : str) : s <> [] -> replace (ord "+") (U " ") s <> [].
Proof.
  destruct s as [|c s]; [done|]. intros _. unfold replace. cbn [flat_map].
  by destruct (decide (c = ord "+")).
Qed.

Lemma parse_qsl_values qs name value :
  (name, value) ∈ parse_qsl qs -> value <> [].
Proof.
  unfold parse_qsl. intros Hin%list_elem_of_In. apply in_flat_map in Hin as (nv & _ & Hin).
  unfold parse_field in Hin. destruct nv as [|c nv]; [done|].
  destruct (split1 (ord "=") (c :: nv)) as [|nv0 [|nv1 [|? ?]]]; try done.
  destruct nv1 as [|d nv1]; [done|].
  destruct Hin as [Heq|[]]. apply (f_equal snd) in Heq. cbn [snd] in Heq.
  rewrite <- Heq. by apply unquote_nonempty, replace_plus_nonempty.
Qed.

Lemma parse_qs_values qs name values value :
  parse_qs qs !! name = Some values -> value ∈ values -> value <> [].
Proof.
  rewrite parse_qs_lookup. unfold listed, values_of.
  destruct (map snd _) as [|v vs] eqn:Hvalues; [done|].
  intros [= <-] Hin. rewrite <- Hvalues in Hin.
  apply list_elem_of_fmap in Hin as ([name' value'] & -> & Hin).
  apply list_elem_of_filter in Hin as [_ Hin]. by apply parse_qsl_values in Hin.
Qed.

(** ** What [urlencode] writes, [parse_qsl] reads *)

Lemma urlencode_text_fields (pairs : list (str * str)) q :
  urlencode (map (fun p => (p.1, VStr p.2)) pairs) = Ok q ->
  exists quoted,
    q = query_of quoted
    /\ Forall2 (fun p qp => quote_plus (VStr p.1) [] = Ok qp.1
                            /\ quote_plus (VStr p.2) [] = Ok qp.2) pairs quoted.
Proof.
  unfold urlencode. pose proof (urlencode_items_text pairs) as Hitems.
  destruct (urlencode_items _) as [l|e]; [|done].
  cbn [mbind result_bind]. intros [= <-].
  enough (exists quoted, l = map field quoted
            /\ Forall2 (fun p qp => quote_plus (VStr p.1) [] = Ok qp.1
                                    /\ quote_plus (VStr p.2) [] = Ok qp.2) pairs quoted)
    as (quoted & -> & Hall) by (by exists quoted).
  induction Hitems as [|p f pairs l (k & v & -> & Hk & Hv) _ (quoted & -> & IH)].
  - by exists [].
  - exists ((k, v) :: quoted). split; [done|]. by constructor.
Qed.

Lemma quoted_fields pairs quoted :
  Forall2 (fun p qp => quote_plus (VStr p.1) [] = Ok qp.1
                       /\ quote_plus (VStr p.2) [] = Ok qp.2) pairs quoted ->
  written quoted
  /\ Forall (fun nv => forallb is_quoted nv.1 = true /\ forallb is_quoted nv.2 = true)
       quoted
  /\ kept_fields quoted = filter (fun p => p.2 <> []) pairs.
Proof.
  induction 1 as [|[k v] [k' v'] pairs quoted [Hk Hv] _ (Hwritten & Hquoted & Hkept)].
  - split; [constructor|split; [constructor|done]].
  - cbn [fst snd] in Hk, Hv.
    pose proof (quote_plus_outcome k) as Ok'. rewrite Hk in Ok'.
    pose proof (quote_plus_outcome v) as Ov'. rewrite Hv in Ov'.
    destruct Ok' as (_ & Uk & Qk & _), Ov' as (_ & Uv & Qv & Nv).
    split; [|split].
    + apply Forall_cons. split; [|done]. cbn [fst snd].
      repeat split; apply forallb_is_quoted_absent; try done;
        apply list_elem_of_In; cbn; auto 10.
    + by apply Forall_cons.
    + destruct v as [|c v].
      * vm_compute in Hv. injection Hv as <-.
        rewrite filter_cons_False by (cbn [snd]; by intros []). exact Hkept.
      * rewrite filter_cons_True by done.
        rewrite kept_fields_cons by (by apply Nv). by rewrite Uk, Uv, Hkept.
Qed.

(** ** Extra properties: the redirect URL *)

Section ParseCallbackExtras.
Context `{Library}.

(** X9. In the mapping [parse_callback_url] returns, no list of values is
    empty and no value is the empty string; so subscripting what
    [query_string.get(name)] returns with [[0]], as [get_auth_jwt] does,
    never raises [IndexError]: it gives a first value that is not empty,
    or the [TypeError] of a missing parameter. *)
Theorem parse_callback_url_values_nonempty callback query_string :
  parse_callback_url callback = Ok query_string ->
  forall name,
    match query_string !! name with
    | Some values =>
        exists first rest,
          values = first :: rest
          /\ Forall (fun value => value <> []) values
          /\ subscript0 (query_string !! name) = Ok first
    | None =>
        subscript0 (query_string !! name)
        = Raise (TypeError (U "'NoneType' object is not subscriptable"))
    end.
Proof.
  unfold parse_callback_url, mbind, result_bind.
  destruct (urlparse callback) as [parsed|e]; [|done].
  intros [= <-] name.
  destruct (parse_qs (query parsed) !! name) as [values|] eqn:Hvalues; [|done].
  destruct values as [|first rest].
  { by apply parse_qs_nonempty in Hvalues. }
  exists first, rest. split; [done|]. split; [|done].
  apply Forall_forall. intros value Hin.
  by apply (parse_qs_values _ _ _ _ Hvalues).
Qed.

(** X10. A redirect URL without ["?"] has no parameters:
    [parse_callback_url] returns the empty mapping, unless [urlparse]
    rejects the URL. *)
Theorem parse_callback_url_no_query callback :
  ord "?" ∉ callback ->
  match parse_callback_url callback with
  | Ok query_string => query_string = ∅
  | Raise e => urlparse callback = Raise e
  end.
Proof.
  intros Hcallback. unfold parse_callback_url, urlparse, mbind, result_bind.
  destruct (urlsplit callback) as [r|e] eqn:Hsplit; [|done].
  rewrite (urlsplit_no_query _ _ Hcallback Hsplit).
  by destruct (_ && _); [destruct (_splitparams _)|].
Qed.

(** X11. What follows the first ["#"] of the redirect URL is not read:
    parameters in the fragment are ignored, and [parse_callback_url]
    returns what it returns for the URL without the fragment. *)
Theorem parse_callback_url_fragment callback fragment :
  ord "#" ∉ callback ->
  parse_callback_url (callback ++ U "#" ++ fragment) = parse_callback_url callback.
Proof.
  intros Hcallback. change (U "#" ++ fragment) with (ord "#" :: fragment).
  pose proof (urlsplit_fragment_appended callback fragment Hcallback) as Hsplit.
  unfold parse_callback_url, urlparse.
  destruct (urlsplit callback) as [r|e].
  - destruct Hsplit as [frag' ->]. unfold mbind, result_bind.
    cbn [split_scheme split_path split_query].
    by destruct (_ && _); [destruct (_splitparams _)|].
  - by rewrite Hsplit.
Qed.

(** X12. Blanks and control characters in front of the redirect URL, and
    tabs and line breaks anywhere in it, make no difference to
    [parse_callback_url]. *)
Theorem parse_callback_url_whitespace :
  (forall blanks callback,
     Forall (fun c => c <= 0x20) blanks ->
     parse_callback_url (blanks ++ callback) = parse_callback_url callback)
  /\ (forall c before after,
        c ∈ [0x09; 0x0A; 0x0D] ->
        parse_callback_url (before ++ c :: after)
        = parse_callback_url (before ++ after)).
Proof.
  assert (Hclean : forall url1 url2, urlsplit_clean url1 = urlsplit_clean url2 ->
            parse_callback_url url1 = parse_callback_url url2).
  { intros url1 url2 Heq. unfold parse_callback_url, urlparse.
    by rewrite (urlsplit_clean_eq _ _ Heq). }
  split.
  - intros blanks callback Hblanks. apply Hclean. unfold urlsplit_clean.
    rewrite lstrip_app_all; [done|].
    rewrite forallb_forall. intros c Hc. apply whitespace_contains.
    rewrite Forall_forall in Hblanks. by apply Hblanks, list_elem_of_In.
  - intros c before after Hc. apply Hclean, urlsplit_clean_removed.
    repeat (apply elem_of_cons in Hc as [->|Hc];
            [apply (bool_decide_unpack _); vm_compute; exact I|]).
    by apply elem_of_nil in Hc.
Qed.

(** X13. [parse_callback_url] undoes [urlencode]: for a URL that parses
    and has neither query nor fragment, followed by ["?"] and the query
    that [urlencode] writes for text fields, it returns for every name the
    values given under that name, in their order, except the blank ones;
    a name with no value that is not blank is absent. *)
Theorem parse_callback_url_urlencode base parsed (pairs : list (str * str)) q :
  urlparse base = Ok parsed ->
  Forall no_delimiter base ->
  urlencode (map (fun p => (p.1, VStr p.2)) pairs) = Ok q ->
  exists query_string,
    parse_callback_url (base ++ U "?" ++ q) = Ok query_string
    /\ forall name,
         query_string !! name
         = listed (values_of name (filter (fun p => p.2 <> []) pairs)).
Proof.
  intros Hbase Hdelim Hq.
  destruct (urlencode_text_fields _ _ Hq) as (quoted & -> & Hall).
  destruct (quoted_fields _ _ Hall) as (Hwritten & Hquoted & Hkept).
  pose proof (query_chars_plain _ (query_of_chars _ Hquoted)) as Hplain.
  destruct (urlparse_query_appended _ _ _ Hbase Hdelim Hplain) as (r & Hparse & Hquery).
  unfold parse_callback_url. rewrite Hparse. unfold mbind, result_bind.
  eexists. split; [reflexivity|]. intros name.
  by rewrite parse_qs_lookup, Hquery, (parse_qsl_query_of _ Hwritten), Hkept.
Qed.

End ParseCallbackExtras.

Lemma parse_callback_url_values_nonempty_witness :
  exists query_string first rest,
    example_parse_callback_url (U "https://localhost/callback/?code=&code=a&state=s")
      = Ok query_string
    /\ query_string !! U "code" = Some (first :: rest)
    /\ first <> []
    /\ query_string !! U "scope" = None.
Proof.
  set (callback := U "https://localhost/callback/?code=&code=a&state=s").
  set (query_string := <[U "state" := [U "s"]]> ({[ U "code" := [U "a"] ]}
                        : gmap str (list str))).
  assert (Hparse : example_parse_callback_url callback = Ok query_string)
    by (vm_compute; reflexivity).
  pose proof (@parse_callback_url_values_nonempty example_library callback
                query_string Hparse (U "code")) as Hcode.
  assert (Hlookup : query_string !! U "code" = Some [U "a"]) by (vm_compute; reflexivity).
  rewrite Hlookup in Hcode. destruct Hcode as (first & rest & Heq & Hall & _).
  exists query_string, first, rest. split; [exact Hparse|].
  split; [by rewrite Hlookup, Heq|]. split.
  - rewrite Heq in Hall. by apply Forall_cons in Hall as [? _].
  - vm_compute. reflexivity.
Defined.

Lemma parse_callback_url_no_query_witness :
  example_parse_callback_url (U "https://localhost/callback/#code=a&state=s") = Ok ∅.
Proof.
  pose proof (@parse_callback_url_no_query example_library
                (U "https://localhost/callback/#code=a&state=s")) as Hempty.
  unfold example_parse_callback_url.
  destruct (@parse_callback_url example_library _) as [query_string|e] eqn:Hparse.
  - f_equal. apply Hempty. apply (bool_decide_unpack _). vm_compute. exact I.
  - vm_compute in Hparse. discriminate Hparse.
Defined.

Lemma parse_callback_url_fragment_witness :
  example_parse_callback_url (U "https://localhost/callback/?code=a" ++ U "#" ++ U "state=s")
  = example_parse_callback_url (U "https://localhost/callback/?code=a").
Proof.
  apply (@parse_callback_url_fragment example_library).
  apply (bool_decide_unpack _). vm_compute. exact I.
Defined.

Lemma parse_callback_url_urlencode_witness :
  exists q query_string,
    urlencode [(U "code", VStr (U "a/b c")); (U "state", VStr []);
               (U "code", VStr (U "d&e"))] = Ok q
    /\ example_parse_callback_url (U "https://localhost/callback/" ++ U "?" ++ q)
       = Ok query_string
    /\ query_string !! U "code" = Some [U "a/b c"; U "d&e"]
    /\ query_string !! U "state" = None.
Proof.
  set (pairs := [(U "code", U "a/b c"); (U "state", []); (U "code", U "d&e")]).
  destruct (urlencode (map (fun p => (p.1, VStr p.2)) pairs)) as [q|e] eqn:Hq.
  2:{ vm_compute in Hq. discriminate Hq. }
  destruct (@parse_callback_url_urlencode example_library
              (U "https://localhost/callback/")
              {| scheme := U "https"; netloc := U "localhost"; path := U "/callback/";
                 params := []; query := []; fragment := [] |} pairs q)
    as (query_string & Hparse & Hvalues).
  - vm_compute. reflexivity.
  - unfold no_delimiter. apply (bool_decide_unpack _). vm_compute. exact I.
  - exact Hq.
  - exists q, query_string. split; [exact Hq|]. split; [exact Hparse|].
    rewrite !Hvalues. split; reflexivity.
Defined.

(** ** The flow, step by step *)

Section FlowSteps.
Context `{Library} `{Const}.

(** What the second half leaves as it was: the random source, the
    standard input and the listener. *)
Lemma exchange_world client_id code_verifier callback w st r w' :
  global_STATE w = Some st ->
  exchange client_id code_verifier callback w = (r, w') ->
  drawn w' = drawn w /\ stdin w' = stdin w /\ listened w' = listened w.
Proof.
  intros Hst Hrun. rewrite (exchange_run _ _ _ _ _ Hst) in Hrun.
  destruct (parse_callback_url callback) as [query_string|e];
    [|by injection Hrun as <- <-].
  destruct (subscript0 (query_string !! U "code")) as [code|e];
    [|by injection Hrun as <- <-].
  destruct (subscript0 (query_string !! U "state")) as [state|e];
    [|by injection Hrun as <- <-].
  destruct (bool_decide (state = st)); by injection Hrun as <- <-.
Qed.

(** The first half with what it uses up: 32 random bytes in every case,
    and one line of input or one redirect when it gets that far. *)
Lemma get_auth_jwt_steps client_id scope callback_url cli w st r w' :
  global_STATE w = Some st ->
  get_auth_jwt client_id scope callback_url cli w = (r, w') ->
  let request := authorization_request client_id scope callback_url
                   (derive_challenge (verifier_of w)) st in
  (exists e, urlencode request = Raise e /\ r = Raise e /\ trace w' = trace w
             /\ drawn w' = (drawn w + 32)%nat
             /\ stdin w' = stdin w /\ listened w' = listened w)
  \/ (exists q, urlencode request = Ok q
       /\ ((cli = true /\ stdin w = [] /\ r = Raise EOFError
            /\ trace w' = trace w
                 ++ [Print (U "Open this url in a web browser:" ++ [0x0A; 0x0A]
                            ++ (AUTH_URL ++ U "?" ++ q) ++ [0x0A; 0x0A]);
                     Input (U "Copy the callback URL from your web browser and paste it here, then press enter:"
                            ++ [0x0A]) None]
            /\ drawn w' = (drawn w + 32)%nat
            /\ stdin w' = [] /\ listened w' = listened w)
           \/ (exists callback w2,
                 trace w2 = trace w ++ prelude cli (AUTH_URL ++ U "?" ++ q) callback
                 /\ drawn w2 = (drawn w + 32)%nat
                 /\ (if cli then stdin w = callback :: stdin w2
                                 /\ listened w2 = listened w
                     else callback = redirects w (listened w)
                          /\ listened w2 = S (listened w) /\ stdin w2 = stdin w)
                 /\ same_surroundings w w2
                 /\ exchange client_id (verifier_of w) callback w2 = (r, w')))).
Proof.
  intros Hst Hrun request. rewrite get_auth_jwt_halves in Hrun.
  unfold mbind at 1, M_bind at 1 in Hrun.
  unfold generate_byte_string, token_bytes, mbind at 1, M_bind at 1 in Hrun.
  destruct (os_urandom_draws 32 w) as (w1 & Hdraw & Hdrawn & Htrace & Hglobal
    & Hstdin & Hlistened & Hredirects & Hserver & Hurandom); [lia|].
  change (Z.to_nat 32) with 32%nat in Hdrawn.
  rewrite Hdraw in Hrun. cbn [mret M_ret] in Hrun.
  change (urlsafe_b64encode _) with (verifier_of w) in Hrun.
  unfold build_auth_url, mbind at 1, M_bind at 1 in Hrun.
  unfold mbind at 1, M_bind at 1, lift at 1 in Hrun.
  rewrite generate_challenge_ok in Hrun.
  unfold mbind at 1, M_bind at 1, STATE at 1 in Hrun.
  rewrite Hglobal, Hst in Hrun.
  unfold mbind at 1, M_bind at 1, lift at 1 in Hrun.
  change (urlencode _) with (urlencode request) in Hrun.
  destruct (urlencode request) as [q|e].
  2:{ left. exists e. by injection Hrun as <- <-. }
  right. exists q. split; [done|].
  cbn [mret M_ret] in Hrun.
  unfold mbind at 1, M_bind at 1 in Hrun.
  destruct cli.
  - unfold acquire, mbind at 1, M_bind at 1, print, emit in Hrun.
    unfold input in Hrun. cbn [stdin snd emit] in Hrun. rewrite Hstdin in Hrun.
    destruct (stdin w) as [|line rest] eqn:Hin;
      cbn [urandom drawn stdin redirects listened server global_STATE trace snd] in Hrun.
    + left. injection Hrun as <- <-.
      cbn [urandom drawn stdin redirects listened server global_STATE trace].
      repeat split; try done. by rewrite Htrace, <- app_assoc.
    + right. exists line. eexists.
      split; [|split; [|split; [|split; [|exact Hrun]]]];
        cbn [urandom drawn stdin redirects listened server global_STATE trace prelude].
      * by rewrite Htrace, <- app_assoc.
      * done.
      * done.
      * by repeat split.
  - unfold acquire, mbind at 1, M_bind at 1, webbrowser_open, emit in Hrun.
    unfold listen_for_callback in Hrun.
    cbn [urandom drawn stdin redirects listened server global_STATE trace snd emit] in Hrun.
    right. eexists. eexists.
    split; [|split; [|split; [|split; [|exact Hrun]]]];
      cbn [urandom drawn stdin redirects listened server global_STATE trace prelude].
    + rewrite Htrace, <- app_assoc. reflexivity.
    + done.
    + by rewrite Hredirects, Hlistened.
    + by repeat split.
Qed.

Lemma raise_for_status_ok response :
  ~ (400 <= status_code response < 600)%Z -> raise_for_status response = Ok tt.
Proof.
  intros Hstatus. unfold raise_for_status.
  destruct (Z.leb_spec 400 (status_code response)),
    (Z.ltb_spec (status_code response) 500),
    (Z.leb_spec 500 (status_code response)),
    (Z.ltb_spec (status_code response) 600); cbn [andb]; try done; lia.
Qed.

Lemma urlencode_request_encodable client_id scope callback_url code_verifier st :
  forallb encodable callback_url && forallb encodable client_id
    && forallb encodable scope && forallb encodable st = true ->
  exists q, urlencode (authorization_request client_id scope callback_url
                         (derive_challenge code_verifier) st) = Ok q.
Proof.
  intros Henc.
  pose proof (urlencode_request_outcome client_id scope callback_url code_verifier st)
    as Hq.
  destruct (urlencode _) as [q|e]; [by exists q|].
  destruct Hq as [Hfalse _]. by rewrite Henc in Hfalse.
Qed.

End FlowSteps.

(** ** Every run of the flow *)

Section FlowRuns.
Context `{Library} `{Const}.

Lemma subscript0_parsed callback query_string name :
  parse_callback_url callback = Ok query_string ->
  match query_string !! name with
  | Some values => exists first rest, values = first :: rest
                     /\ subscript0 (query_string !! name) = Ok first
  | None => subscript0 (query_string !! name)
            = Raise (TypeError (U "'NoneType' object is not subscriptable"))
  end.
Proof.
  intros Hparse. destruct (query_string !! name) as [[|first rest]|] eqn:Hvalues.
  - by apply (parse_callback_url_nonempty _ _ _ _ Hparse) in Hvalues.
  - by exists first, rest.
  - done.
Qed.

(** The outcomes of [get_auth_jwt], with what each leaves in the trace
    and uses up of the surroundings. *)
Lemma get_auth_jwt_run client_id scope callback_url cli w st r w' :
  global_STATE w = Some st ->
  get_auth_jwt client_id scope callback_url cli w = (r, w') ->
  let request := authorization_request client_id scope callback_url
                   (derive_challenge (verifier_of w)) st in
  drawn w' = (drawn w + 32)%nat
  /\ same_surroundings w w'
  /\ ((exists e, urlencode request = Raise e /\ r = Raise e /\ log w w' = []
                 /\ stdin w' = stdin w /\ listened w' = listened w)
      \/ (exists q, urlencode request = Ok q
           /\ ((cli = true /\ stdin w = [] /\ r = Raise EOFError
                /\ log w w'
                   = [Print (U "Open this url in a web browser:" ++ [0x0A; 0x0A]
                             ++ (AUTH_URL ++ U "?" ++ q) ++ [0x0A; 0x0A]);
                      Input (U "Copy the callback URL from your web browser and paste it here, then press enter:"
                             ++ [0x0A]) None]
                /\ stdin w' = [] /\ listened w' = listened w)
               \/ (exists callback,
                     (if cli then stdin w = callback :: stdin w'
                                  /\ listened w' = listened w
                      else callback = redirects w (listened w)
                           /\ listened w' = S (listened w) /\ stdin w' = stdin w)
                     /\ ((exists e,
                            r = Raise e
                            /\ log w w' = prelude cli (AUTH_URL ++ U "?" ++ q) callback
                            /\ (urlparse callback = Raise e
                                \/ exists query_string,
                                     parse_callback_url callback = Ok query_string
                                     /\ (((query_string !! U "code" = None
                                           \/ query_string !! U "state" = None)
                                          /\ e = TypeError
                                                   (U "'NoneType' object is not subscriptable"))
                                         \/ (exists code codes state states,
                                               query_string !! U "code" = Some (code :: codes)
                                               /\ query_string !! U "state"
                                                  = Some (state :: states)
                                               /\ state <> st
                                               /\ e = ValueError
                                                        (U "Did not receive expected state")))))
                         \/ (exists query_string code codes states,
                               parse_callback_url callback = Ok query_string
                               /\ query_string !! U "code" = Some (code :: codes)
                               /\ query_string !! U "state" = Some (st :: states)
                               /\ log w w'
                                  = prelude cli (AUTH_URL ++ U "?" ++ q) callback
                                    ++ [Post TOKEN_URL
                                          (token_request client_id code (verifier_of w))
                                          HEADERS]
                               /\ r = (response ←
                                         server w
                                           {| req_url := TOKEN_URL;
                                              req_data := token_request client_id code
                                                            (verifier_of w);
                                              req_headers := HEADERS |};
                                       _ ← raise_for_status response;
                                       json_loads (content response)))))))).
Proof.
  intros Hst Hrun request.
  destruct (get_auth_jwt_steps _ _ _ _ _ _ _ _ Hst Hrun)
    as [(e & Hq & -> & Htrace & Hdrawn & Hstdin & Hlistened)
       |(q & Hq & [(-> & Hin & -> & Htrace & Hdrawn & Hstdin & Hlistened)
                  |(callback & w2 & Htrace & Hdrawn & Hread & Hsame & Hex)])].
  - split; [done|]. split; [exact (get_auth_jwt_same _ _ _ _ _ _ _ _ Hst Hrun)|].
    left. exists e. repeat split; try done. apply log_app. by rewrite app_nil_r.
  - split; [done|]. split; [exact (get_auth_jwt_same _ _ _ _ _ _ _ _ Hst Hrun)|].
    right. exists q. split; [done|]. left. repeat split; try done. by apply log_app.
  - assert (Hst2 : global_STATE w2 = Some st) by (by rewrite (proj1 Hsame)).
    destruct (exchange_world _ _ _ _ _ _ _ Hst2 Hex) as (Hd & Hs & Hl).
    split; [by rewrite Hd|].
    split; [exact (get_auth_jwt_same _ _ _ _ _ _ _ _ Hst Hrun)|].
    right. exists q. split; [done|]. right. exists callback. split.
    { rewrite Hs, Hl. exact Hread. }
    rewrite (exchange_run _ _ _ _ _ Hst2) in Hex.
    assert (Hstop : forall e, (Raise e, w2) = (r, w') ->
              r = Raise e /\ log w w' = prelude cli (AUTH_URL ++ U "?" ++ q) callback).
    { intros e [= <- <-]. split; [done|]. by apply log_app. }
    destruct (parse_callback_url callback) as [query_string|e] eqn:Hparse.
    2:{ left. exists e. destruct (Hstop e Hex) as [-> Hlog]. split; [done|].
        split; [done|]. left. by apply parse_callback_url_raises. }
    pose proof (subscript0_parsed _ _ (U "code") Hparse) as Hcode.
    pose proof (subscript0_parsed _ _ (U "state") Hparse) as Hstate.
    destruct (query_string !! U "code") as [codes|] eqn:Hcodes.
    2:{ rewrite Hcode in Hex. left. eexists. destruct (Hstop _ Hex) as [-> Hlog].
        split; [done|]. split; [done|]. right. exists query_string.
        split; [done|]. left. split; [by left|done]. }
    destruct Hcode as (code & codes' & -> & Hcode). rewrite Hcode in Hex.
    destruct (query_string !! U "state") as [states|] eqn:Hstates.
    2:{ rewrite Hstate in Hex. left. eexists. destruct (Hstop _ Hex) as [-> Hlog].
        split; [done|]. split; [done|]. right. exists query_string.
        split; [done|]. left. split; [by right|done]. }
    destruct Hstate as (state & states' & -> & Hstate). rewrite Hstate in Hex.
    destruct (bool_decide (state = st)) eqn:Hmatch.
    + apply bool_decide_eq_true in Hmatch as ->. right.
      exists query_string, code, codes', states'.
      split; [done|]. split; [done|]. split; [done|].
      injection Hex as <- <-. split.
      * apply log_app. cbn [snd emit trace]. by rewrite Htrace, <- app_assoc.
      * by rewrite (proj1 (proj2 Hsame)).
    + apply bool_decide_eq_false in Hmatch. left. eexists.
      destruct (Hstop _ Hex) as [-> Hlog]. split; [done|]. split; [done|].
      right. exists query_string. split; [done|]. right.
      by exists code, codes', state, states'.
Qed.

End FlowRuns.

(** ** Extra properties: the flow *)

Section FlowExtras.
Context `{Library} `{Const}.

(** X14. The flow succeeds on a good redirect: with inputs that UTF-8
    encodes, a redirect URL (the next line of input, or what the listener
    captures) whose first state is [STATE] and that carries a code, and an
    answer of the token endpoint with a status outside 400..599,
    [get_auth_jwt] returns what [response.json()] gives for that answer;
    its trace is the URL shown, the redirect read and the one request. *)
Theorem get_auth_jwt_succeeds client_id scope callback_url (cli : bool) w st callback
    query_string code codes states response :
  global_STATE w = Some st ->
  forallb encodable callback_url && forallb encodable client_id
    && forallb encodable scope && forallb encodable st = true ->
  (if cli then head (stdin w) = Some callback
   else redirects w (listened w) = callback) ->
  parse_callback_url callback = Ok query_string ->
  query_string !! U "code" = Some (code :: codes) ->
  query_string !! U "state" = Some (st :: states) ->
  server w {| req_url := TOKEN_URL;
              req_data := token_request client_id code (verifier_of w);
              req_headers := HEADERS |} = Ok response ->
  ~ (400 <= status_code response < 600)%Z ->
  exists auth_url w',
    get_auth_jwt client_id scope callback_url cli w
      = (json_loads (content response), w')
    /\ log w w' = prelude cli auth_url callback
                  ++ [Post TOKEN_URL (token_request client_id code (verifier_of w))
                        HEADERS]
    /\ global_STATE w' = Some st.
Proof.
  intros Hst Henc Hnext Hparse Hcode Hstate Hserver Hstatus.
  destruct (get_auth_jwt client_id scope callback_url cli w) as [r w'] eqn:Hrun.
  destruct (get_auth_jwt_run _ _ _ _ _ _ _ _ Hst Hrun)
    as (_ & Hsame & [(e & Hq & _)|(q & Hq & [(-> & Hin & _)|(callback' & Hread & Hout)])]).
  - destruct (urlencode_request_encodable client_id scope callback_url
                (verifier_of w) st Henc) as [q Hq'].
    rewrite Hq' in Hq. discriminate Hq.
  - rewrite Hin in Hnext. discriminate Hnext.
  - assert (callback' = callback) as ->.
    { destruct cli.
      - destruct Hread as [Hread _]. rewrite Hread in Hnext. by injection Hnext.
      - destruct Hread as [-> _]. exact Hnext. }
    exists (AUTH_URL ++ U "?" ++ q), w'.
    destruct Hout as [(e & -> & _ & [Hbad|(qs & Hqs & Hbad)])
                     |(qs & code' & codes' & states' & Hqs & Hcode' & _ & Hlog & ->)].
    + apply parse_callback_url_raises in Hbad. rewrite Hbad in Hparse.
      discriminate Hparse.
    + rewrite Hqs in Hparse. injection Hparse as ->.
      destruct Hbad as [[[Hnone|Hnone] _]
                       |(c & cs & s & ss & _ & Hs & Hne & _)]; [congruence..|].
      rewrite Hs in Hstate. by injection Hstate as -> _.
    + rewrite Hqs in Hparse. injection Hparse as ->.
      rewrite Hcode' in Hcode. injection Hcode as -> _.
      split; [|split; [exact Hlog|by rewrite (proj1 Hsame)]].
      rewrite Hserver. cbn [mbind result_bind].
      by rewrite (raise_for_status_ok _ Hstatus).
Qed.

(** X15. The two ways of getting the redirect URL never mix. With [cli]
    the flow opens no browser and does not touch the listener, and a run
    that read a redirect URL took exactly the first line of the input;
    without [cli] it prints nothing, asks for no input and leaves the
    input as it was, and a run that read a redirect URL took exactly the
    next capture of the listener. *)
Theorem get_auth_jwt_channels client_id scope callback_url (cli : bool) w st r w' :
  global_STATE w = Some st ->
  get_auth_jwt client_id scope callback_url cli w = (r, w') ->
  if cli then
    listened w' = listened w
    /\ (forall url, (BrowserOpen url ∉ log w w') /\ (Listen url ∉ log w w'))
    /\ (forall callback, received callback (log w w') ->
          stdin w = callback :: stdin w')
  else
    stdin w' = stdin w
    /\ (forall text prompt line,
          (Print text ∉ log w w') /\ (Input prompt line ∉ log w w'))
    /\ (forall callback, received callback (log w w') ->
          callback = redirects w (listened w) /\ listened w' = S (listened w)).
Proof.
  intros Hst Hrun.
  assert (Hpre : forall url callback tail,
            (tail = [] \/ exists target data headers, tail = [Post target data headers]) ->
            forall e, e ∈ prelude cli url callback ++ tail ->
              if cli then (exists text, e = Print text)
                          \/ (exists prompt line, e = Input prompt line)
                          \/ exists target data headers, e = Post target data headers
              else (exists u, e = BrowserOpen u) \/ (exists u, e = Listen u)
                   \/ exists target data headers, e = Post target data headers).
  { intros url callback tail Htail e [Hin|Hin]%elem_of_app.
    - destruct cli; cbn [prelude] in Hin;
        repeat (apply elem_of_cons in Hin as [->|Hin]; [eauto 6|]);
        by apply elem_of_nil in Hin.
    - destruct Htail as [->|(target & data & headers & ->)].
      + by apply elem_of_nil in Hin.
      + apply list_elem_of_singleton in Hin as ->. destruct cli; eauto 10. }
  destruct (get_auth_jwt_run _ _ _ _ _ _ _ _ Hst Hrun)
    as (_ & _ & [(e & _ & _ & Hlog & Hstdin & Hlistened)
                |(q & _ & [(-> & Hin & _ & Hlog & Hstdin & Hlistened)
                          |(callback & Hread & Hout)])]).
  - rewrite Hlog.
    assert (Hnone : forall callback, ~ received callback []).
    { intros callback [[prompt Hin]|Hin]; by apply elem_of_nil in Hin. }
    destruct cli; (split; [done|]); split;
      try (intros callback Hrec; by apply Hnone in Hrec);
      intros; split; apply not_elem_of_nil.
  - rewrite Hlog. split; [done|]. split.
    + intros url. split; intros Hbad;
        repeat (apply elem_of_cons in Hbad as [Hbad|Hbad]; [discriminate Hbad|]);
        by apply elem_of_nil in Hbad.
    + intros callback [[prompt Hrec]|Hrec];
        repeat (apply elem_of_cons in Hrec as [Hrec|Hrec]; [discriminate Hrec|]);
        by apply elem_of_nil in Hrec.
  - assert (Hlog : exists tail,
              log w w' = prelude cli (AUTH_URL ++ U "?" ++ q) callback ++ tail
              /\ (tail = [] \/ exists target data headers,
                    tail = [Post target data headers])).
    { destruct Hout as [(e & _ & Hlog & _)|(qs & code & codes & states & _ & _ & _ & Hlog & _)].
      - exists []. rewrite app_nil_r. auto.
      - eexists. split; [exact Hlog|]. right. eauto. }
    destruct Hlog as (tail & Hlog & Htail). rewrite Hlog.
    specialize (Hpre (AUTH_URL ++ U "?" ++ q) callback tail Htail).
    destruct cli.
    + destruct Hread as [Hstdin Hlistened]. split; [done|]. split.
      * intros url. split; intros Hbad; apply Hpre in Hbad
          as [[? Hbad]|[(? & ? & Hbad)|(? & ? & ? & Hbad)]]; discriminate Hbad.
      * intros callback' Hrec. apply received_prelude in Hrec; [|done]. by subst.
    + destruct Hread as (Hcallback & Hlistened & Hstdin). split; [done|]. split.
      * intros text prompt line. split; intros Hbad; apply Hpre in Hbad
          as [[? Hbad]|[[? Hbad]|(? & ? & ? & Hbad)]]; discriminate Hbad.
      * intros callback' Hrec. apply received_prelude in Hrec; [|done]. by subst.
Qed.

(** X16. At the end of the input: with [cli], inputs that UTF-8 encodes
    and no line left to read, the flow prints the request to open the URL,
    then [input] raises [EOFError]; nothing is sent. *)
Theorem get_auth_jwt_end_of_input client_id scope callback_url w st r w' :
  global_STATE w = Some st ->
  forallb encodable callback_url && forallb encodable client_id
    && forallb encodable scope && forallb encodable st = true ->
  stdin w = [] ->
  get_auth_jwt client_id scope callback_url true w = (r, w') ->
  r = Raise EOFError
  /\ no_post (log w w')
  /\ exists auth_url prompt,
       log w w' = [Print (U "Open this url in a web browser:" ++ [0x0A; 0x0A]
                          ++ auth_url ++ [0x0A; 0x0A]);
                   Input prompt None]
       /\ fst (build_auth_url client_id scope callback_url (verifier_of w) w)
          = Ok auth_url.
Proof.
  intros Hst Henc Hin Hrun.
  destruct (get_auth_jwt_run _ _ _ _ _ _ _ _ Hst Hrun)
    as (_ & _ & [(e & Hq & _)|(q & Hq & [(_ & _ & -> & Hlog & _)
                                         |(callback & [Hread _] & _)])]).
  - destruct (urlencode_request_encodable client_id scope callback_url
                (verifier_of w) st Henc) as [q Hq'].
    rewrite Hq' in Hq. discriminate Hq.
  - split; [done|]. split.
    + rewrite Hlog. intros target data headers Hbad.
      repeat (apply elem_of_cons in Hbad as [Hbad|Hbad]; [discriminate Hbad|]).
      by apply elem_of_nil in Hbad.
    + eexists _, _. split; [exact Hlog|].
      rewrite (build_auth_url_run _ _ _ _ _ _ Hst). cbn [fst]. by rewrite Hq.
  - rewrite Hin in Hread. discriminate Hread.
Qed.

(** X17. Inputs that UTF-8 cannot encode stop the flow at once: when the
    redirect URI, the client id, the scope or the state holds a lone
    surrogate, [get_auth_jwt] raises [UnicodeEncodeError] before anything
    is shown, read or sent; only the 32 random bytes of the verifier are
    used up. *)
Theorem get_auth_jwt_unencodable client_id scope callback_url cli w st r w' :
  global_STATE w = Some st ->
  forallb encodable callback_url && forallb encodable client_id
    && forallb encodable scope && forallb encodable st = false ->
  get_auth_jwt client_id scope callback_url cli w = (r, w') ->
  (exists reason, r = Raise (UnicodeEncodeError reason))
  /\ log w w' = []
  /\ stdin w' = stdin w /\ listened w' = listened w
  /\ drawn w' = (drawn w + 32)%nat.
Proof.
  intros Hst Henc Hrun.
  pose proof (urlencode_request_outcome client_id scope callback_url
                (verifier_of w) st) as Hq.
  destruct (get_auth_jwt_run _ _ _ _ _ _ _ _ Hst Hrun)
    as (Hdrawn & _ & [(e & Hq' & -> & Hlog & Hstdin & Hlistened)|(q & Hq' & _)]);
    rewrite Hq' in Hq.
  - destruct Hq as [_ ->]. split; [by eexists|]. done.
  - destruct Hq as (rd & ci & sc & t & Hrd & Hci & Hsc & Ht & _).
    pose proof (quote_plus_outcome callback_url) as Ord. rewrite Hrd in Ord.
    pose proof (quote_plus_outcome client_id) as Oci. rewrite Hci in Oci.
    pose proof (quote_plus_outcome scope) as Osc. rewrite Hsc in Osc.
    pose proof (quote_plus_outcome st) as Ot. rewrite Ht in Ot.
    destruct Ord as [Erd _], Oci as [Eci _], Osc as [Esc _], Ot as [Et _].
    rewrite Erd, Eci, Esc, Et in Henc. discriminate Henc.
Qed.

(** X18. A new verifier for every attempt: whatever its outcome, a run of
    [get_auth_jwt] uses up exactly 32 bytes of the random source for its
    verifier, so the verifier of the next attempt is made of the 32 bytes
    that follow, and equals this one only if the source repeats those 32
    bytes. *)
Theorem get_auth_jwt_fresh_verifier client_id scope callback_url cli w st r w' :
  global_STATE w = Some st ->
  get_auth_jwt client_id scope callback_url cli w = (r, w') ->
  drawn w' = (drawn w + 32)%nat
  /\ verifier_of w = urlsafe_b64encode (map (urandom w) (seq (drawn w) 32))
  /\ verifier_of w' = urlsafe_b64encode (map (urandom w) (seq (drawn w + 32) 32))
  /\ (verifier_of w' = verifier_of w ->
      map (urandom w) (seq (drawn w + 32) 32) = map (urandom w) (seq (drawn w) 32)).
Proof.
  intros Hst Hrun.
  destruct (get_auth_jwt_run _ _ _ _ _ _ _ _ Hst Hrun)
    as (Hdrawn & (_ & _ & Hurandom & _) & _).
  split; [done|]. split; [done|].
  assert (Hnext : verifier_of w'
                  = urlsafe_b64encode (map (urandom w) (seq (drawn w + 32) 32)))
    by (unfold verifier_of; by rewrite Hdrawn, Hurandom).
  split; [done|]. rewrite Hnext. unfold verifier_of. intros Heq.
  assert (Hdec := urlsafe_b64decode_b64encode (map (urandom w) (seq (drawn w + 32) 32))).
  rewrite Heq, urlsafe_b64decode_b64encode in Hdec. congruence.
Qed.

(** X19. Every run of [get_auth_jwt] ends in one of two ways. Either it
    sent nothing and raised: [UnicodeEncodeError] for an input that cannot
    be encoded, [EOFError] at the end of the input, the exception of
    [urlparse] on the redirect URL it read, [TypeError] for a missing code
    or state, or [ValueError] for a state that is not [STATE]. Or it sent
    exactly one request, to [TOKEN_URL], and its result is what the answer
    gives: the exception of the transport, the [HTTPError] of
    [raise_for_status], or what [response.json()] returns or raises. In
    particular it returns a token only after a request. *)
Theorem get_auth_jwt_outcomes client_id scope callback_url cli w st r w' :
  global_STATE w = Some st ->
  get_auth_jwt client_id scope callback_url cli w = (r, w') ->
  (no_post (log w w')
   /\ exists e,
        r = Raise e
        /\ ((exists reason, e = UnicodeEncodeError reason)
            \/ e = EOFError
            \/ (exists callback,
                  received callback (log w w') /\ urlparse callback = Raise e)
            \/ e = TypeError (U "'NoneType' object is not subscriptable")
            \/ e = ValueError (U "Did not receive expected state")))
  \/ (exists code,
        List.filter is_post (log w w')
        = [Post TOKEN_URL (token_request client_id code (verifier_of w)) HEADERS]
        /\ r = (response ← server w {| req_url := TOKEN_URL;
                                       req_data := token_request client_id code
                                                     (verifier_of w);
                                       req_headers := HEADERS |};
                _ ← raise_for_status response;
                json_loads (content response))).
Proof.
  intros Hst Hrun.
  pose proof (urlencode_request_outcome client_id scope callback_url
                (verifier_of w) st) as Hq.
  destruct (get_auth_jwt_run _ _ _ _ _ _ _ _ Hst Hrun)
    as (_ & _ & [(e & Hq' & -> & Hlog & _)
                |(q & _ & [(-> & _ & -> & Hlog & _)|(callback & _ & Hout)])]).
  - rewrite Hq' in Hq. destruct Hq as [_ ->]. left. split.
    + rewrite Hlog. intros target data headers. apply not_elem_of_nil.
    + eexists. split; [done|]. left. by eexists.
  - left. split.
    + rewrite Hlog. intros target data headers Hbad.
      repeat (apply elem_of_cons in Hbad as [Hbad|Hbad]; [discriminate Hbad|]).
      by apply elem_of_nil in Hbad.
    + eexists. split; [done|]. right. by left.
  - destruct Hout as [(e & -> & Hlog & Hwhy)
                     |(qs & code & codes & states & _ & _ & _ & Hlog & ->)].
    + left. split; [rewrite Hlog; apply no_post_prelude|].
      exists e. split; [done|].
      destruct Hwhy as [Hbad|(qs & _ & [[_ ->]|(c & cs & s & ss & _ & _ & _ & ->)])].
      * right. right. left. exists callback. split; [|done].
        rewrite Hlog, <- (app_nil_r (prelude _ _ _)). apply received_prelude_intro.
      * by right; right; right; left.
      * by right; right; right; right.
    + right. exists code. split; [|done]. rewrite Hlog.
      rewrite List.filter_app. by destruct cli.
Qed.

End FlowExtras.

(** ** The extra properties on the examples *)

Lemma build_auth_url_layout_witness :
  let w := example_process [] (example_response 200 "OK" "{}") in
  let run := @build_auth_url example_const (U "a&b=c") [] (U "https://localhost/callback/")
               (B "abc") w in
  exists auth_url,
    fst run = Ok auth_url
    /\ length (split (ord "&")
                 (drop (length (U "https://login.eveonline.com/v2/oauth/authorize/") + 1)
                    auth_url)) = 7%nat.
Proof.
  intros w run.
  set (auth_url := match fst run with Ok u => u | Raise _ => [] end).
  assert (Hrun : run = (Ok auth_url, snd run)) by (vm_compute; reflexivity).
  destruct (@build_auth_url_layout example_const (U "a&b=c") []
              (U "https://localhost/callback/") (B "abc") w (snd run) auth_url Hrun)
    as (st & rd & ci & sc & t & _ & _ & _ & _ & Hlen).
  exists auth_url. split; [exact (f_equal fst Hrun)|exact Hlen].
Defined.

Lemma build_auth_url_succeeds_iff_witness :
  let w := example_process [] (example_response 200 "OK" "{}") in
  let run := @build_auth_url example_const [0xD800] (U "esi-a.b")
               (U "https://localhost/callback/") (B "abc") w in
  snd run = w /\ exists reason, fst run = Raise (UnicodeEncodeError reason).
Proof.
  intros w run.
  destruct (@build_auth_url_succeeds_iff example_const [0xD800] (U "esi-a.b")
              (U "https://localhost/callback/") (B "abc") w
              (U "AwoRGB8mLTQ7QklQV15lbHN6gYiPlp2kq7K5wMfO1dw"))
    as (Hsame & _ & Hraise).
  - vm_compute. reflexivity.
  - split; [exact Hsame|]. apply (proj1 Hraise). vm_compute. reflexivity.
Defined.

Lemma build_auth_url_injective_witness :
  let w := example_process [] (example_response 200 "OK" "{}") in
  let run := @build_auth_url example_const (U "my id") (U "esi-a.b")
               (U "https://localhost/callback/") (B "abc") w in
  U "my id" = U "my id" /\ U "esi-a.b" = U "esi-a.b"
  /\ U "https://localhost/callback/" = U "https://localhost/callback/"
  /\ derive_challenge (B "abc") = derive_challenge (B "abc")
  /\ global_STATE w = global_STATE w.
Proof.
  intros w run.
  set (auth_url := match fst run with Ok u => u | Raise _ => [] end).
  assert (Hrun : run = (Ok auth_url, snd run)) by (vm_compute; reflexivity).
  exact (@build_auth_url_injective example_const
           (U "my id") (U "esi-a.b") (U "https://localhost/callback/") (B "abc") w (snd run)
           (U "my id") (U "esi-a.b") (U "https://localhost/callback/") (B "abc") w (snd run)
           auth_url Hrun Hrun).
Defined.

Lemma get_auth_jwt_succeeds_witness :
  let callback := U "https://localhost/callback/?code=XYZ&state=AwoRGB8mLTQ7QklQV15lbHN6gYiPlp2kq7K5wMfO1dw" in
  let w := example_process callback (example_response 200 "OK" "{}") in
  exists w',
    @get_auth_jwt example_library example_const (U "my id") (U "esi-a.b")
      (U "https://localhost/callback/") true w = (Ok (B "{}"), w').
Proof.
  intros callback w.
  destruct (@get_auth_jwt_succeeds example_library example_const
              (U "my id") (U "esi-a.b") (U "https://localhost/callback/") true w
              (U "AwoRGB8mLTQ7QklQV15lbHN6gYiPlp2kq7K5wMfO1dw") callback
              (<[U "state" := [U "AwoRGB8mLTQ7QklQV15lbHN6gYiPlp2kq7K5wMfO1dw"]]>
                 {[ U "code" := [U "XYZ"] ]})
              (U "XYZ") [] [] (example_response 200 "OK" "{}"))
    as (auth_url & w' & Hrun & _).
  - vm_compute. reflexivity.
  - vm_compute. reflexivity.
  - vm_compute. reflexivity.
  - vm_compute. reflexivity.
  - vm_compute. reflexivity.
  - vm_compute. reflexivity.
  - vm_compute. reflexivity.
  - cbn [status_code example_response]. lia.
  - exists w'. exact Hrun.
Defined.

Lemma get_auth_jwt_channels_witness :
  let callback := U "https://localhost/callback/?code=XYZ&state=AwoRGB8mLTQ7QklQV15lbHN6gYiPlp2kq7K5wMfO1dw" in
  let w := example_process callback (example_response 200 "OK" "{}") in
  let run := @get_auth_jwt example_library example_const (U "my id") (U "esi-a.b")
               (U "https://localhost/callback/") false w in
  stdin (snd run) = stdin w
  /\ (forall text prompt line,
        (Print text ∉ log w (snd run)) /\ (Input prompt line ∉ log w (snd run)))
  /\ (forall callback', received callback' (log w (snd run)) ->
        callback' = redirects w (listened w) /\ listened (snd run) = S (listened w)).
Proof.
  intros callback w run.
  apply (@get_auth_jwt_channels example_library example_const
           (U "my id") (U "esi-a.b") (U "https://localhost/callback/") false w
           (U "AwoRGB8mLTQ7QklQV15lbHN6gYiPlp2kq7K5wMfO1dw") (fst run) (snd run)).
  - vm_compute. reflexivity.
  - exact (surjective_pairing run).
Defined.

Lemma get_auth_jwt_end_of_input_witness :
  let w0 := example_process [] (example_response 200 "OK" "{}") in
  let w := {| urandom := urandom w0; drawn := drawn w0; stdin := [];
              redirects := redirects w0; listened := listened w0;
              server := server w0; global_STATE := global_STATE w0;
              trace := trace w0 |} in
  let run := @get_auth_jwt example_library example_const (U "my id") (U "esi-a.b")
               (U "https://localhost/callback/") true w in
  fst run = Raise EOFError /\ no_post (log w (snd run)).
Proof.
  intros w0 w run.
  destruct (@get_auth_jwt_end_of_input example_library example_const
              (U "my id") (U "esi-a.b") (U "https://localhost/callback/") w
              (U "AwoRGB8mLTQ7QklQV15lbHN6gYiPlp2kq7K5wMfO1dw") (fst run) (snd run))
    as (Hraise & Hno & _).
  - vm_compute. reflexivity.
  - vm_compute. reflexivity.
  - reflexivity.
  - exact (surjective_pairing run).
  - split; [exact Hraise|exact Hno].
Defined.

Lemma get_auth_jwt_unencodable_witness :
  let w := example_process [] (example_response 200 "OK" "{}") in
  let run := @get_auth_jwt example_library example_const (U "my id") [0xDFFF]
               (U "https://localhost/callback/") false w in
  (exists reason, fst run = Raise (UnicodeEncodeError reason))
  /\ log w (snd run) = []
  /\ drawn (snd run) = (drawn w + 32)%nat.
Proof.
  intros w run.
  destruct (@get_auth_jwt_unencodable example_library example_const
              (U "my id") [0xDFFF] (U "https://localhost/callback/") false w
              (U "AwoRGB8mLTQ7QklQV15lbHN6gYiPlp2kq7K5wMfO1dw") (fst run) (snd run))
    as (Hraise & Hlog & _ & _ & Hdrawn).
  - vm_compute. reflexivity.
  - vm_compute. reflexivity.
  - exact (surjective_pairing run).
  - split; [exact Hraise|]. split; [exact Hlog|exact Hdrawn].
Defined.

Lemma get_auth_jwt_fresh_verifier_witness :
  let callback := U "https://localhost/callback/?code=XYZ&state=other" in
  let w := example_process callback (example_response 200 "OK" "{}") in
  let run := @get_auth_jwt example_library example_const (U "my id") (U "esi-a.b")
               (U "https://localhost/callback/") false w in
  drawn (snd run) = (drawn w + 32)%nat
  /\ verifier_of (snd run)
     = urlsafe_b64encode (map (urandom w) (seq (drawn w + 32) 32)).
Proof.
  intros callback w run.
  destruct (@get_auth_jwt_fresh_verifier example_library example_const
              (U "my id") (U "esi-a.b") (U "https://localhost/callback/") false w
              (U "AwoRGB8mLTQ7QklQV15lbHN6gYiPlp2kq7K5wMfO1dw") (fst run) (snd run))
    as (Hdrawn & _ & Hnext & _).
  - vm_compute. reflexivity.
  - exact (surjective_pairing run).
  - split; [exact Hdrawn|exact Hnext].
Defined.

Lemma get_auth_jwt_outcomes_witness :
  let callback := U "https://localhost/callback/?code=XYZ&state=AwoRGB8mLTQ7QklQV15lbHN6gYiPlp2kq7K5wMfO1dw" in
  let w := example_process callback bad_request in
  let run := @get_auth_jwt example_library example_const (U "my id") (U "esi-a.b")
               (U "https://localhost/callback/") false w in
  exists code,
    List.filter is_post (log w (snd run))
    = [Post (U "https://login.eveonline.com/v2/oauth/token")
         (token_request (U "my id") code (verifier_of w))
         [(U "Content-Type", U "application/x-www-form-urlencoded");
          (U "Host", U "login.eveonline.com")]].
Proof.
  intros callback w run.
  destruct (@get_auth_jwt_outcomes example_library example_const
              (U "my id") (U "esi-a.b") (U "https://localhost/callback/") false w
              (U "AwoRGB8mLTQ7QklQV15lbHN6gYiPlp2kq7K5wMfO1dw") (fst run) (snd run))
    as [[Hno _]|(code & Hposts & _)].
  - vm_compute. reflexivity.
  - exact (surjective_pairing run).
  - exfalso.
    apply (Hno (U "https://login.eveonline.com/v2/oauth/token")
             (token_request (U "my id") (U "XYZ") (verifier_of w))
             [(U "Content-Type", U "application/x-www-form-urlencoded");
              (U "Host", U "login.eveonline.com")]).
    in_list.
  - exists code. exact Hposts.
Defined.

(** ** Redirect text that [urlparse] cannot reject *)

Section UrlsplitTotal.
Context `{Library}.

Lemma plain_not_bracket (s : str) :
  Forall (fun c => c < 0x80 /\ c <> ord "[" /\ c <> ord "]") s ->
  contains (ord "[") s = false /\ contains (ord "]") s = false /\ isascii s = true.
Proof.
  intros Hs. split; [|split].
  - apply bool_decide_eq_false. apply (not_elem_of_Forall _ _ _ Hs). by intros (_ & ? & _).
  - apply bool_decide_eq_false. apply (not_elem_of_Forall _ _ _ Hs). by intros (_ & _ & ?).
  - unfold isascii. rewrite forallb_forall. intros c Hc%list_elem_of_In.
    rewrite Forall_forall in Hs. destruct (Hs c Hc) as [Hlt _]. by apply N.ltb_lt.
Qed.

Lemma urlsplit_plain url :
  Forall (fun c => c < 0x80 /\ c <> ord "[" /\ c <> ord "]") url ->
  exists r, urlsplit url = Ok r.
Proof.
  intros Hurl. unfold urlsplit.
  pose proof (urlsplit_clean_Forall _ _ Hurl) as Hclean.
  destruct (urlsplit_scheme (urlsplit_clean url)) as [s url1] eqn:Hscheme.
  pose proof (urlsplit_scheme_Forall _ _ _ _ Hclean Hscheme) as Hurl1.
  assert (Hnetloc : exists n rest, urlsplit_netloc url1 = Ok (n, rest)
            /\ (n = [] \/ isascii n = true)).
  { unfold urlsplit_netloc, _splitnetloc.
    destruct (bool_decide (take 2 url1 = U "//")); [|by eexists _, _; eauto].
    destruct (span _ (drop 2 url1)) as [n rest] eqn:Hspan.
    assert (Hn : Forall (fun c => c < 0x80 /\ c <> ord "[" /\ c <> ord "]") n).
    { edestruct (@span_Forall N) as [Hn _];
        [apply Forall_drop; exact Hurl1|exact Hspan|exact Hn]. }
    destruct (plain_not_bracket n Hn) as (-> & -> & Hascii). cbn [andb orb negb].
    eexists _, _. eauto. }
  destruct Hnetloc as (n & rest & -> & Hn). cbn [mbind result_bind].
  destruct (urlsplit_fragment rest) as [url2 fragment].
  destruct (urlsplit_query url2) as [url3 query].
  assert (Hcheck : _checknetloc n = Ok tt).
  { unfold _checknetloc. destruct Hn as [->|Hascii]; [done|].
    rewrite Hascii. by destruct n. }
  rewrite Hcheck. by eexists.
Qed.

End UrlsplitTotal.

Section ParseCallbackTotal.
Context `{Library}.

(** X20. [parse_callback_url] cannot fail on 7-bit text without square
    brackets: whatever such text the user pastes, also text that is no
    URL at all, it returns a mapping (the exceptions of [urlparse] all
    come from a bracketed host or from characters outside ASCII in the
    network location). *)
Theorem parse_callback_url_total callback :
  Forall (fun c => c < 0x80 /\ c <> ord "[" /\ c <> ord "]") callback ->
  exists query_string, parse_callback_url callback = Ok query_string.
Proof.
  intros Hcallback. destruct (urlsplit_plain callback Hcallback) as [r Hsplit].
  unfold parse_callback_url, urlparse. rewrite Hsplit. cbn [mbind result_bind].
  destruct (_ && _); [destruct (_splitparams _)|]; by eexists.
Qed.

End ParseCallbackTotal.

Lemma parse_callback_url_total_witness :
  exists query_string,
    example_parse_callback_url (U "not a url: code=XYZ & state?x") = Ok query_string.
Proof.
  apply (@parse_callback_url_total example_library).
  apply (bool_decide_unpack _). vm_compute. exact I.
Defined.
